(** * Checklist backend: the Express handlers of [src/server.js]

    The server is a set of asynchronous request handlers.  Every handler
    reads the request, awaits a few calls of two outside libraries (the
    Supabase query builder and bcrypt) and answers through [res].  The
    handlers are embedded as programs of a small free monad whose only
    effect is "await this call": what the outside world answers is left to
    an interpreter, so that a property of a handler can be stated for every
    database, for a scripted sequence of replies, or for the in-memory
    reference database defined further down. *)

From Stdlib Require Import ZArith Lia.
From stdpp Require Import base option list strings pretty gmap sorting.

Open Scope Z_scope.
Open Scope string_scope.
Open Scope list_scope.

(** ** JavaScript values *)

(** Numbers are restricted to integers; objects are association lists in
    insertion order, as [Object.keys] enumerates them. *)
#[warnings="-register-all"]
Inductive value : Type :=
| VUndefined
| VNull
| VBool (b : bool)
| VNum (n : Z)
| VStr (s : string)
| VArr (elems : list value)
| VObj (fields : list (string * value)).

Definition obj := list (string * value).

(** [ToBoolean]. *)
Definition truthy (v : value) : bool :=
  match v with
  | VUndefined | VNull => false
  | VBool b => b
  | VNum n => negb (Z.eqb n 0)
  | VStr s => negb (String.eqb s "")
  | VArr _ | VObj _ => true
  end.

(** [v === undefined] and [v === 'literal']. *)
Definition is_undefined (v : value) : bool :=
  match v with VUndefined => true | _ => false end.

Definition strict_eq_str (v : value) (lit : string) : bool :=
  match v with VStr s => String.eqb s lit | _ => false end.

(** [literals.includes(v)] for an array of string literals. *)
Definition includes (literals : list string) (v : value) : bool :=
  existsb (strict_eq_str v) literals.

(** [String(v)], which is also the property key [v] is coerced to. *)
Fixpoint to_string (v : value) : string :=
  match v with
  | VUndefined => "undefined"
  | VNull => "null"
  | VBool b => if b then "true" else "false"
  | VNum n => pretty n
  | VStr s => s
  | VArr l =>
      let elem x :=
        match x with VUndefined | VNull => "" | _ => to_string x end in
      (fix join (l : list value) : string :=
         match l with
         | [] => ""
         | [x] => elem x
         | x :: r => elem x +:+ "," +:+ join r
         end) l
  | VObj _ => "[object Object]"
  end.

(** Own property of an object literal; [undefined] when absent. *)
Fixpoint field (k : string) (o : obj) : value :=
  match o with
  | [] => VUndefined
  | (k', v) :: r => if String.eqb k k' then v else field k r
  end.

(** [o.k = v]: overwrite in place, or append a new property. *)
Fixpoint set_field (k : string) (v : value) (o : obj) : obj :=
  match o with
  | [] => [(k, v)]
  | (k', v') :: r =>
      if String.eqb k k' then (k, v) :: r else (k', v') :: set_field k v r
  end.

Definition has_field (k : string) (o : obj) : bool :=
  existsb (λ kv, String.eqb k kv.1) o.

(** [v.k] on a receiver that is neither [null] nor [undefined]: a property of
    an object, [undefined] on a primitive (none of the keys the server reads
    is a built-in of the primitive wrappers). *)
Definition member (k : string) (v : value) : value :=
  match v with VObj o => field k o | _ => VUndefined end.

Definition type_error (msg : string) : value :=
  VObj [("name", VStr "TypeError"); ("message", VStr msg)].

(** [v.k] in general: reading a property of [null] or [undefined] throws. *)
Definition get_prop (k : string) (v : value) : value + value :=
  match v with
  | VUndefined | VNull =>
      inr (type_error ("Cannot read properties of " +:+ to_string v))
  | _ => inl (member k v)
  end.

(** The own enumerable properties a rest pattern copies. *)
Definition chars (s : string) : list value :=
  (λ c, VStr (String c "")) <$> String.list_ascii_of_string s.

Definition own_entries (v : value) : obj :=
  match v with
  | VObj o => o
  | VArr l => imap (λ i x, (pretty i, x)) l
  | VStr s => imap (λ i x, (pretty i, x)) (chars s)
  | _ => []
  end.

(** [const { k, ...rest } = v] for a [v] that is not nullish. *)
Definition omit (k : string) (v : value) : value :=
  VObj (filter (λ kv, kv.1 ≠ k) (own_entries v)).

(** What [for (const x of v)] iterates over, when [v] is iterable. *)
Definition iterate (v : value) : list value + value :=
  match v with
  | VArr l => inl l
  | VStr s => inl (chars s)
  | _ => inr (type_error (to_string v +:+ " is not iterable"))
  end.

(** ** The Supabase query builder *)

Inductive column : Type :=
| Col (name : string)
| Embed (relation : string) (hint : option string) (cols : list string).

Inductive selection : Type :=
| Star
| Cols (cs : list column).

Inductive verb : Type :=
| Read
| Insert (rows : list value)
| Update (changes : value)
| Delete.

Record query : Type := Query {
  table : string;
  action : verb;
  returning : option selection;
  filters : list (string * value);
  ordering : option (string * bool);
  is_single : bool
}.

Definition from (t : string) : query :=
  Query t Read None [] None false.
Definition select (s : selection) (q : query) : query :=
  Query (table q) (action q) (Some s) (filters q) (ordering q) (is_single q).
Definition insert_rows (rows : list value) (q : query) : query :=
  Query (table q) (Insert rows) (returning q) (filters q) (ordering q) (is_single q).
Definition update (changes : value) (q : query) : query :=
  Query (table q) (Update changes) (returning q) (filters q) (ordering q) (is_single q).
Definition delete_rows (q : query) : query :=
  Query (table q) Delete (returning q) (filters q) (ordering q) (is_single q).
Definition eq_filter (c : string) (v : value) (q : query) : query :=
  Query (table q) (action q) (returning q) (filters q ++ [(c, v)]) (ordering q) (is_single q).
Definition order (c : string) (ascending : bool) (q : query) : query :=
  Query (table q) (action q) (returning q) (filters q) (Some (c, ascending)) (is_single q).
Definition single (q : query) : query :=
  Query (table q) (action q) (returning q) (filters q) (ordering q) true.

Notation "q |> f" := (f q) (at level 45, left associativity, only parsing).

(** ** Handler programs *)

Inductive effect : Type :=
| Db (q : query)
| GenSalt (rounds : value)
| Hash (s salt : value)
| Compare (s hash : value).

(** How an awaited promise settles. *)
Inductive settled : Type :=
| Resolved (v : value)
| Rejected (e : value).

Inductive prog (A : Type) : Type :=
| Ret (a : A)
| Throw (e : value)
| Await (eff : effect) (k : settled → prog A).
Arguments Ret {A} a.
Arguments Throw {A} e.
Arguments Await {A} eff k.

Fixpoint prog_bind {A B} (f : A → prog B) (p : prog A) : prog B :=
  match p with
  | Ret a => f a
  | Throw e => Throw e
  | Await eff k => Await eff (λ r, prog_bind f (k r))
  end.

#[global] Instance prog_mret : MRet prog := @Ret.
#[global] Instance prog_mbind : MBind prog := @prog_bind.

(** [await eff]: a rejected promise throws at the [await]. *)
Definition await (eff : effect) : prog value :=
  Await eff (λ r, match r with Resolved v => Ret v | Rejected e => Throw e end).

(** [try { p } catch (err) { h err }]. *)
Fixpoint try_catch {A} (p : prog A) (h : value → prog A) : prog A :=
  match p with
  | Ret a => Ret a
  | Throw e => h e
  | Await eff k => Await eff (λ r, try_catch (k r) h)
  end.

Definition lift {A} (r : A + value) : prog A :=
  match r with inl a => Ret a | inr e => Throw e end.

(** [const { data, error } = await supabase...]. *)
Definition supabase (q : query) : prog (value * value) :=
  r ← await (Db q);
  data ← lift (get_prop "data" r);
  error ← lift (get_prop "error" r);
  mret (data, error).

(** ** Requests and responses *)

(** What a handler works on: the id of the path, the query string, and the
    properties it finds on [req.body] ([incoming] and [serve] below have the
    request as Express hands it over, body or no body). *)
Record request : Type := Request {
  params_id : string;
  req_query : obj;
  body : obj
}.

Record response : Type := Response {
  status : Z;
  payload : option value
}.

(** [res.status(c).json(b)], [res.json(b)] and [res.status(c).send()]. *)
Definition json (code : Z) (b : value) : response := Response code (Some b).
Definition send (code : Z) : response := Response code None.
Definition error_body (msg : value) : value := VObj [("error", msg)].
Definition message_body (msg : string) : value := VObj [("message", VStr msg)].

(** ** The handlers of [src/server.js] *)

Definition public_profile : selection :=
  Cols [Col "id"; Col "name"; Col "avatar_url"; Col "created_at"].

(** [POST /api/profiles] *)
Definition post_profiles (req : request) : prog response :=
  let name := field "name" (body req) in
  let password := field "password" (body req) in
  let avatar_url := field "avatar_url" (body req) in
  if negb (truthy name) || negb (truthy password)
  then mret (json 400 (error_body (VStr "Name and password required")))
  else
    try_catch
      (salt ← await (GenSalt (VNum 10));
       password_hash ← await (Hash password salt);
       '(data, error) ← supabase
          (from "profiles"
           |> insert_rows [VObj [("name", name);
                                 ("password_hash", password_hash);
                                 ("avatar_url", avatar_url)]]
           |> select public_profile
           |> single);
       if truthy error then Throw error
       else mret (json 201 data))
      (λ err,
         code ← lift (get_prop "code" err);
         if strict_eq_str code "23505"
         then mret (json 409 (error_body (VStr "Profile name already exists")))
         else mret (json 500 (error_body (member "message" err)))).

(** [GET /api/profiles] *)
Definition get_profiles (req : request) : prog response :=
  '(data, error) ← supabase
     (from "profiles" |> select public_profile |> order "created_at" false);
  if truthy error then mret (json 500 (error_body (member "message" error)))
  else mret (json 200 data).

(** [POST /api/profiles/login] *)
Definition post_profiles_login (req : request) : prog response :=
  let profile_id := field "profile_id" (body req) in
  let password := field "password" (body req) in
  if negb (truthy profile_id) || negb (truthy password)
  then mret (json 400 (error_body (VStr "Profile ID and password required")))
  else
    '(profile, error) ← supabase
       (from "profiles" |> select Star |> eq_filter "id" profile_id |> single);
    if truthy error || negb (truthy profile)
    then mret (json 404 (error_body (VStr "Profile not found")))
    else
      isMatch ← await (Compare password (member "password_hash" profile));
      if negb (truthy isMatch)
      then mret (json 401 (error_body (VStr "Invalid password")))
      else
        let safeProfile := omit "password_hash" profile in
        mret (json 200 safeProfile).

(** [PUT /api/profiles/:id] *)
Definition put_profile (req : request) : prog response :=
  let name := field "name" (body req) in
  let password := field "password" (body req) in
  let avatar_url := field "avatar_url" (body req) in
  let updates : obj := [] in
  let updates := if truthy name then set_field "name" name updates else updates in
  let updates :=
    if negb (is_undefined avatar_url)
    then set_field "avatar_url" avatar_url updates else updates in
  updates ←
    (if truthy password
     then
       salt ← await (GenSalt (VNum 10));
       password_hash ← await (Hash password salt);
       mret (set_field "password_hash" password_hash updates)
     else mret updates);
  '(data, error) ← supabase
     (from "profiles"
      |> update (VObj updates)
      |> eq_filter "id" (VStr (params_id req))
      |> select public_profile
      |> single);
  if truthy error then mret (json 500 (error_body (member "message" error)))
  else mret (json 200 data).

(** [DELETE /api/profiles/:id] *)
Definition delete_profile (req : request) : prog response :=
  '(_, error) ← supabase
     (from "profiles" |> delete_rows |> eq_filter "id" (VStr (params_id req)));
  if truthy error then mret (json 500 (error_body (member "message" error)))
  else mret (send 204).

(** [POST /api/checklists] *)
Definition post_checklists (req : request) : prog response :=
  let profile_id := field "profile_id" (body req) in
  let title := field "title" (body req) in
  if negb (truthy profile_id) || negb (truthy title)
  then mret (json 400 (error_body (VStr "Profile ID and title required")))
  else
    '(data, error) ← supabase
       (from "checklists"
        |> insert_rows [VObj [("profile_id", profile_id); ("title", title)]]
        |> select Star
        |> single);
    if truthy error then mret (json 500 (error_body (member "message" error)))
    else mret (json 201 data).

(** [GET /api/checklists] *)
Definition get_checklists (req : request) : prog response :=
  let profile_id := field "profile_id" (req_query req) in
  if negb (truthy profile_id)
  then mret (json 400 (error_body (VStr "Profile ID required")))
  else
    '(data, error) ← supabase
       (from "checklists"
        |> select Star
        |> eq_filter "profile_id" profile_id
        |> order "created_at" false);
    if truthy error then mret (json 500 (error_body (member "message" error)))
    else mret (json 200 data).

(** [GET /api/checklists/:id] *)
Definition get_checklist (req : request) : prog response :=
  '(data, error) ← supabase
     (from "checklists"
      |> select Star
      |> eq_filter "id" (VStr (params_id req))
      |> single);
  if truthy error then mret (json 404 (error_body (VStr "Checklist not found")))
  else mret (json 200 data).

(** [PUT /api/checklists/:id] *)
Definition put_checklist (req : request) : prog response :=
  let title := field "title" (body req) in
  '(data, error) ← supabase
     (from "checklists"
      |> update (VObj [("title", title)])
      |> eq_filter "id" (VStr (params_id req))
      |> select Star
      |> single);
  if truthy error then mret (json 500 (error_body (member "message" error)))
  else mret (json 200 data).

(** [DELETE /api/checklists/:id] *)
Definition delete_checklist (req : request) : prog response :=
  let profile_id := field "profile_id" (body req) in
  let password := field "password" (body req) in
  if negb (truthy profile_id) || negb (truthy password)
  then mret (json 400
               (error_body (VStr "Profile ID and password required for deletion")))
  else
    '(profile, profileError) ← supabase
       (from "profiles"
        |> select (Cols [Col "password_hash"])
        |> eq_filter "id" profile_id
        |> single);
    if truthy profileError || negb (truthy profile)
    then mret (json 404 (error_body (VStr "Profile not found")))
    else
      isMatch ← await (Compare password (member "password_hash" profile));
      if negb (truthy isMatch)
      then mret (json 401 (error_body (VStr "Invalid password")))
      else
        '(_, error) ← supabase
           (from "checklists"
            |> delete_rows
            |> eq_filter "id" (VStr (params_id req)));
        if truthy error
        then mret (json 500 (error_body (member "message" error)))
        else mret (send 204).

(** [POST /api/checklists/:id/share] *)
Definition post_checklist_share (req : request) : prog response :=
  let sender_id := field "sender_id" (body req) in
  let receiver_name := field "receiver_name" (body req) in
  let checklist_id := VStr (params_id req) in
  if negb (truthy sender_id) || negb (truthy receiver_name)
  then mret (json 400 (error_body (VStr "Sender ID and receiver name required")))
  else
    '(receiver, receiverError) ← supabase
       (from "profiles"
        |> select (Cols [Col "id"])
        |> eq_filter "name" receiver_name
        |> single);
    if truthy receiverError || negb (truthy receiver)
    then mret (json 404 (error_body (VStr "Receiver profile not found")))
    else
      '(data, error) ← supabase
         (from "share_requests"
          |> insert_rows [VObj [("checklist_id", checklist_id);
                                ("sender_id", sender_id);
                                ("receiver_id", member "id" receiver)]]
          |> select Star
          |> single);
      if truthy error
      then mret (json 500 (error_body (member "message" error)))
      else mret (json 201 data).

(** [GET /api/profiles/:id/share-requests] *)
Definition get_profile_share_requests (req : request) : prog response :=
  '(data, error) ← supabase
     (from "share_requests"
      |> select (Cols [Col "id"; Col "status"; Col "created_at";
                       Col "checklist_id";
                       Embed "checklists" None ["title"];
                       Embed "profiles" (Some "share_requests_sender_id_fkey")
                         ["name"; "avatar_url"]])
      |> eq_filter "receiver_id" (VStr (params_id req))
      |> eq_filter "status" (VStr "pending")
      |> order "created_at" false);
  if truthy error then mret (json 500 (error_body (member "message" error)))
  else mret (json 200 data).

(** The [idMap] object of the clone loop: keys are the coerced ids of the
    source tasks (database-generated identifiers, so never a name that
    [Object.prototype] defines). *)
Definition idMap_get (idMap : gmap string value) (k : value) : value :=
  default VUndefined (idMap !! to_string k).

Definition idMap_set (idMap : gmap string value) (k v : value)
  : gmap string value :=
  <[to_string k := v]> idMap.

(** The object literal [newTaskData]. *)
Definition newTaskData (checklist_id : value) (idMap : gmap string value)
    (task : value) : value :=
  VObj [("checklist_id", checklist_id);
        ("parent_id",
           if truthy (member "parent_id" task)
           then idMap_get idMap (member "parent_id" task)
           else VNull);
        ("title", member "title" task);
        ("description", member "description" task);
        ("order_num", member "order_num" task);
        ("start_time", member "start_time" task);
        ("end_time", member "end_time" task);
        ("allocated_time", member "allocated_time" task);
        ("is_completed", member "is_completed" task)].

(** [for (const task of tasks) { ... }] of the accept branch; the final
    [idMap] is returned so that it can be inspected. *)
Fixpoint clone_loop (newChecklist : value) (tasks : list value)
    (idMap : gmap string value) : prog (gmap string value) :=
  match tasks with
  | [] => mret idMap
  | task :: rest =>
      checklist_id ← lift (get_prop "id" newChecklist);
      _ ← lift (get_prop "parent_id" task);
      '(newTask, nTError) ← supabase
         (from "tasks"
          |> insert_rows [newTaskData checklist_id idMap task]
          |> select Star
          |> single);
      clone_loop newChecklist rest
        (if negb (truthy nTError) && truthy newTask
         then idMap_set idMap (member "id" task) (member "id" newTask)
         else idMap)
  end.

(** The second half of the accept branch: fetch the tasks of the source
    checklist and copy them under [newChecklist]. *)
Definition clone_tasks (request newChecklist : value) : prog response :=
  '(tasks, tasksError) ← supabase
     (from "tasks"
      |> select Star
      |> eq_filter "checklist_id" (member "checklist_id" request)
      |> order "created_at" true);
  if truthy tasksError
  then mret (json 500 (error_body (member "message" tasksError)))
  else
    items ← lift (iterate tasks);
    _ ← clone_loop newChecklist items ∅;
    mret (json 200 (message_body "Accepted and cloned checklist")).

(** The body of [if (action === 'accept') { ... }]: the checklist cloner. *)
Definition accept_branch (request : value) : prog response :=
  '(originalChecklist, clError) ← supabase
     (from "checklists"
      |> select Star
      |> eq_filter "id" (member "checklist_id" request)
      |> single);
  if truthy clError
  then mret (json 500 (error_body (member "message" clError)))
  else
    title ← lift (get_prop "title" originalChecklist);
    '(newChecklist, newClError) ← supabase
       (from "checklists"
        |> insert_rows [VObj [("profile_id", member "receiver_id" request);
                              ("title", title);
                              ("is_shared_copy", VBool true)]]
        |> select Star
        |> single);
    if truthy newClError
    then mret (json 500 (error_body (member "message" newClError)))
    else clone_tasks request newChecklist.

(** [POST /api/share-requests/:id/respond] *)
Definition post_share_request_respond (req : request) : prog response :=
  let action := field "action" (body req) in
  if negb (includes ["accept"; "reject"] action)
  then mret (json 400 (error_body (VStr "Invalid action")))
  else
    '(request, reqError) ← supabase
       (from "share_requests"
        |> select Star
        |> eq_filter "id" (VStr (params_id req))
        |> single);
    if truthy reqError || negb (truthy request)
    then mret (json 404 (error_body (VStr "Request not found")))
    else if negb (strict_eq_str (member "status" request) "pending")
    then mret (json 400 (error_body (VStr "Request already processed")))
    else
      '(_, updateError) ← supabase
         (from "share_requests"
          |> update (VObj [("status",
                            VStr (if strict_eq_str action "accept"
                                  then "accepted" else "rejected"))])
          |> eq_filter "id" (VStr (params_id req)));
      if truthy updateError
      then mret (json 500 (error_body (member "message" updateError)))
      else if strict_eq_str action "accept"
      then accept_branch request
      else mret (json 200 (message_body "Rejected share request")).

(** [POST /api/checklists/:id/timer-logs] *)
Definition post_checklist_timer_logs (req : request) : prog response :=
  let elapsed_seconds := field "elapsed_seconds" (body req) in
  if is_undefined elapsed_seconds
  then mret (json 400 (error_body (VStr "Elapsed seconds required")))
  else
    '(data, error) ← supabase
       (from "timer_logs"
        |> insert_rows [VObj [("checklist_id", VStr (params_id req));
                              ("elapsed_seconds", elapsed_seconds)]]
        |> select Star
        |> single);
    if truthy error then mret (json 500 (error_body (member "message" error)))
    else mret (json 201 data).

(** [GET /api/checklists/:id/timer-logs] *)
Definition get_checklist_timer_logs (req : request) : prog response :=
  '(data, error) ← supabase
     (from "timer_logs"
      |> select Star
      |> eq_filter "checklist_id" (VStr (params_id req))
      |> order "created_at" false);
  if truthy error then mret (json 500 (error_body (member "message" error)))
  else mret (json 200 data).

(** [POST /api/tasks] *)
Definition post_tasks (req : request) : prog response :=
  let checklist_id := field "checklist_id" (body req) in
  let parent_id := field "parent_id" (body req) in
  let title := field "title" (body req) in
  let description := field "description" (body req) in
  let order_num := field "order_num" (body req) in
  let start_time := field "start_time" (body req) in
  let end_time := field "end_time" (body req) in
  let allocated_time := field "allocated_time" (body req) in
  '(data, error) ← supabase
     (from "tasks"
      |> insert_rows [VObj [("checklist_id", checklist_id);
                            ("parent_id",
                               if truthy parent_id then parent_id else VNull);
                            ("title", title);
                            ("description", description);
                            ("order_num", order_num);
                            ("start_time", start_time);
                            ("end_time", end_time);
                            ("allocated_time", allocated_time)]]
      |> select Star
      |> single);
  if truthy error then mret (json 500 (error_body (member "message" error)))
  else mret (json 201 data).

(** [GET /api/checklists/:id/tasks] *)
Definition get_checklist_tasks (req : request) : prog response :=
  '(data, error) ← supabase
     (from "tasks"
      |> select Star
      |> eq_filter "checklist_id" (VStr (params_id req))
      |> order "order_num" true);
  if truthy error then mret (json 500 (error_body (member "message" error)))
  else mret (json 200 data).

(** The fields [PUT /api/tasks/:id] reads from the body, in the order of its
    [if (f !== undefined) updates.f = f] statements. *)
Definition task_update_fields : list string :=
  ["title"; "description"; "is_completed"; "order_num";
   "start_time"; "end_time"; "allocated_time"].

Definition assign_if_defined (f : string) (b : obj) (updates : obj) : obj :=
  if negb (is_undefined (field f b)) then set_field f (field f b) updates
  else updates.

Definition task_updates (b : obj) : obj :=
  let updates : obj := [] in
  let updates := assign_if_defined "title" b updates in
  let updates := assign_if_defined "description" b updates in
  let updates := assign_if_defined "is_completed" b updates in
  let updates := assign_if_defined "order_num" b updates in
  let updates := assign_if_defined "start_time" b updates in
  let updates := assign_if_defined "end_time" b updates in
  let updates := assign_if_defined "allocated_time" b updates in
  updates.

(** [PUT /api/tasks/:id] *)
Definition put_task (req : request) : prog response :=
  let updates := task_updates (body req) in
  '(data, error) ← supabase
     (from "tasks"
      |> update (VObj updates)
      |> eq_filter "id" (VStr (params_id req))
      |> select Star
      |> single);
  if truthy error then mret (json 500 (error_body (member "message" error)))
  else mret (json 200 data).

(** [DELETE /api/tasks/:id] *)
Definition delete_task (req : request) : prog response :=
  '(_, error) ← supabase
     (from "tasks" |> delete_rows |> eq_filter "id" (VStr (params_id req)));
  if truthy error then mret (json 500 (error_body (member "message" error)))
  else mret (send 204).

(** The routes of the application. *)
Inductive endpoint : Type :=
| PostProfiles | GetProfiles | PostProfilesLogin | PutProfile | DeleteProfile
| PostChecklists | GetChecklists | GetChecklist | PutChecklist
| DeleteChecklist
| PostChecklistShare | GetProfileShareRequests | PostShareRequestRespond
| PostChecklistTimerLogs | GetChecklistTimerLogs
| PostTasks | GetChecklistTasks | PutTask | DeleteTask.

Definition handler (e : endpoint) : request → prog response :=
  match e with
  | PostProfiles => post_profiles
  | GetProfiles => get_profiles
  | PostProfilesLogin => post_profiles_login
  | PutProfile => put_profile
  | DeleteProfile => delete_profile
  | PostChecklists => post_checklists
  | GetChecklists => get_checklists
  | GetChecklist => get_checklist
  | PutChecklist => put_checklist
  | DeleteChecklist => delete_checklist
  | PostChecklistShare => post_checklist_share
  | GetProfileShareRequests => get_profile_share_requests
  | PostShareRequestRespond => post_share_request_respond
  | PostChecklistTimerLogs => post_checklist_timer_logs
  | GetChecklistTimerLogs => get_checklist_timer_logs
  | PostTasks => post_tasks
  | GetChecklistTasks => get_checklist_tasks
  | PutTask => put_task
  | DeleteTask => delete_task
  end.

(** ** What Express hands to a handler

    [req.params.id] is a string and [req.query] an object, always.
    [req.body] is what the body parsers left: the parsed object or array, and,
    when no body was parsed, [{}] or [undefined] depending on the version of
    Express in use.  A [request] above is what a handler works on once its
    first statement, [const { ... } = req.body], has gone through. *)
Record incoming : Type := Incoming {
  in_params_id : string;
  in_query : obj;
  in_body : value
}.

(** The endpoints whose handler destructures [req.body]. *)
Definition reads_body (e : endpoint) : bool :=
  match e with
  | PostProfiles | PostProfilesLogin | PutProfile
  | PostChecklists | PutChecklist | DeleteChecklist
  | PostChecklistShare | PostShareRequestRespond
  | PostChecklistTimerLogs | PostTasks | PutTask => true
  | GetProfiles | DeleteProfile | GetChecklists | GetChecklist
  | GetProfileShareRequests | GetChecklistTimerLogs | GetChecklistTasks
  | DeleteTask => false
  end.

(** What a destructuring pattern finds on a value that is neither [null] nor
    [undefined]: the properties of an object, and none of the names the
    server reads on an array or a primitive. *)
Definition own_properties (b : value) : obj :=
  match b with VObj o => o | _ => [] end.

(** [const { a, b } = v]: a [TypeError] on [null] and [undefined]. *)
Definition destructure (b : value) : prog obj :=
  match b with
  | VUndefined | VNull =>
      Throw (type_error ("Cannot destructure property of " +:+ to_string b))
  | _ => Ret (own_properties b)
  end.

Definition parsed (r : incoming) : request :=
  Request (in_params_id r) (in_query r) (own_properties (in_body r)).

(** A route of the application as Express calls it.  The handlers that do
    not read the body never touch [req.body]. *)
Definition serve (e : endpoint) (r : incoming) : prog response :=
  if reads_body e
  then
    b ← destructure (in_body r);
    handler e (Request (in_params_id r) (in_query r) b)
  else handler e (parsed r).

(** ** Running a handler against the outside world *)

(** A world answers every awaited call from its current state. *)
Class World (W : Type) := answer : effect → W → settled * W.

(** A handler either returns its response or dies on an exception nobody
    catches, in which case Express sends nothing. *)
Inductive outcome (A : Type) : Type :=
| Returned (a : A)
| Uncaught (e : value).
Arguments Returned {A} a.
Arguments Uncaught {A} e.

(** The outcome, the final state of the world, and the calls made with the
    answers they got, in order. *)
Fixpoint run {W} `{World W} {A} (p : prog A) (s : W)
  : outcome A * W * list (effect * settled) :=
  match p with
  | Ret a => (Returned a, s, [])
  | Throw e => (Uncaught e, s, [])
  | Await eff k =>
      let '(r, s1) := answer eff s in
      let '(o, s2, calls) := run (k r) s1 in
      (o, s2, (eff, r) :: calls)
  end.

Definition result_of {W} `{World W} {A} (p : prog A) (s : W) : outcome A :=
  (run p s).1.1.
Definition state_after {W} `{World W} {A} (p : prog A) (s : W) : W :=
  (run p s).1.2.
Definition calls_of {W} `{World W} {A} (p : prog A) (s : W) : list effect :=
  (run p s).2.*1.

(** The world that replays a fixed list of answers; once the list is used up
    every further call is rejected. *)
#[global] Instance script_world : World (list settled) := λ _ s,
  match s with
  | r :: rest => (r, rest)
  | [] => (Rejected VUndefined, [])
  end.

(** What a Supabase call resolves to. *)
Definition reply (data error : value) : value :=
  VObj [("data", data); ("error", error)].
Definition ok (data : value) : settled := Resolved (reply data VNull).
Definition failed (error : value) : settled := Resolved (reply VNull error).

(** ** An in-memory reference database

    The database service itself is an outside collaborator.  The store below
    is a small executable model of what the handlers rely on: tables of
    rows, generated identifiers and creation times, equality filters,
    ordering, column lists, and calls that can fail. *)

(** Modelled from the spec: the database schema is not part of the
    sources.  The tables and columns are those the handlers name and the
    data model of the spec lists; each column comes with the value a row
    gets when an insert leaves it out. *)
Definition schema : list (string * list (string * value)) :=
  [("profiles",
     [("id", VNull); ("name", VNull); ("password_hash", VNull);
      ("avatar_url", VNull); ("created_at", VNull)]);
   ("checklists",
     [("id", VNull); ("profile_id", VNull); ("title", VNull);
      ("is_shared_copy", VBool false); ("created_at", VNull)]);
   ("tasks",
     [("id", VNull); ("checklist_id", VNull); ("parent_id", VNull);
      ("title", VNull); ("description", VNull); ("order_num", VNull);
      ("start_time", VNull); ("end_time", VNull); ("allocated_time", VNull);
      ("is_completed", VBool false); ("created_at", VNull)]);
   ("share_requests",
     [("id", VNull); ("checklist_id", VNull); ("sender_id", VNull);
      ("receiver_id", VNull); ("status", VStr "pending");
      ("created_at", VNull)]);
   ("timer_logs",
     [("id", VNull); ("checklist_id", VNull); ("elapsed_seconds", VNull);
      ("created_at", VNull)])].

(** Modelled from the spec: the foreign keys an embedded column list
    follows, as (table, constraint, column, referenced table). *)
Definition foreign_keys : list (string * string * string * string) :=
  [("checklists", "checklists_profile_id_fkey", "profile_id", "profiles");
   ("tasks", "tasks_checklist_id_fkey", "checklist_id", "checklists");
   ("tasks", "tasks_parent_id_fkey", "parent_id", "tasks");
   ("share_requests", "share_requests_checklist_id_fkey", "checklist_id",
      "checklists");
   ("share_requests", "share_requests_sender_id_fkey", "sender_id",
      "profiles");
   ("share_requests", "share_requests_receiver_id_fkey", "receiver_id",
      "profiles");
   ("timer_logs", "timer_logs_checklist_id_fkey", "checklist_id",
      "checklists")].

Fixpoint assoc {A} (k : string) (l : list (string * A)) : option A :=
  match l with
  | [] => None
  | (k', a) :: r => if String.eqb k k' then Some a else assoc k r
  end.

Record store : Type := Store {
  tables : gmap string (list obj);
  next_id : positive;
  clock : Z;
  faults : list (option (string * string));
  bcrypt : effect → settled
}.

Definition rows (s : store) (t : string) : list obj :=
  default [] (tables s !! t).

Definition pg_error (code message : string) : value :=
  VObj [("code", VStr code); ("message", VStr message)].

(** What [JSON.stringify] followed by [JSON.parse] leaves of a value: an
    [undefined] property disappears, an [undefined] array element is
    [null]. *)
Fixpoint keep_defined (f : value → value) (o : obj) : obj :=
  match o with
  | [] => []
  | (k, x) :: r =>
      match x with
      | VUndefined => keep_defined f r
      | _ => (k, f x) :: keep_defined f r
      end
  end.

Fixpoint wire (v : value) : value :=
  match v with
  | VUndefined => VNull
  | VArr l => VArr (map wire l)
  | VObj o => VObj (keep_defined wire o)
  | _ => v
  end.

(** [column = eq.value]: the filter travels as text; [NULL] equals nothing. *)
Definition matches (row : obj) (f : string * value) : bool :=
  match field f.1 row with
  | VUndefined | VNull => false
  | c => String.eqb (to_string c) (to_string f.2)
  end.

Definition hits (s : store) (q : query) : list obj :=
  List.filter (λ r, forallb (matches r) (filters q)) (rows s (table q)).

(** Ordering compares numbers (times are ticks of the store's clock);
    anything else sorts after them, [NULLS LAST]. *)
Definition cell_leb (c : string) (x y : obj) : bool :=
  match field c x, field c y with
  | VNum a, VNum b => Z.leb a b
  | VNum _, _ => true
  | _, VNum _ => false
  | _, _ => true
  end.

Fixpoint insert_by {A} (leb : A → A → bool) (x : A) (l : list A) : list A :=
  match l with
  | [] => [x]
  | y :: r => if leb x y then x :: y :: r else y :: insert_by leb x r
  end.

Definition sort_by {A} (leb : A → A → bool) (l : list A) : list A :=
  foldr (insert_by leb) [] l.

Definition ordered (o : option (string * bool)) (l : list obj) : list obj :=
  match o with
  | None => l
  | Some (c, true) => sort_by (cell_leb c) l
  | Some (c, false) => sort_by (λ x y, cell_leb c y x) l
  end.

(** The column a relation is embedded through. *)
Definition embed_column (t rel : string) (hint : option string)
  : option string :=
  match List.filter
          (λ fk, String.eqb fk.1.1.1 t && String.eqb fk.2 rel
                 && match hint with
                    | Some h => String.eqb fk.1.1.2 h
                    | None => true
                    end)
          foreign_keys with
  | [fk] => Some fk.1.2
  | _ => None
  end.

Definition pick (cols : list string) (row : obj) : obj :=
  (λ c, (c, wire (field c row))) <$> cols.

Definition project_column (s : store) (t : string) (row : obj) (c : column)
  : option (string * value) :=
  match c with
  | Col name => Some (name, wire (field name row))
  | Embed rel hint cols =>
      fk ← embed_column t rel hint;
      Some (rel,
            match List.filter (λ r, matches r ("id", field fk row)) (rows s rel) with
            | r :: _ => VObj (pick cols r)
            | [] => VNull
            end)
  end.

Definition project (s : store) (t : string) (sel : selection) (row : obj)
  : option obj :=
  match sel with
  | Star => Some row
  | Cols cs => mapM (project_column s t row) cs
  end.

Definition not_single : value :=
  pg_error "PGRST116" "JSON object requested, multiple (or no) rows returned".

(** The body of a reply: nothing for a mutation without [select], one
    object under [single], an array otherwise. *)
Definition shaped (s : store) (q : query) (found : list obj) : value + value :=
  match returning q, action q with
  | None, Insert _ | None, Update _ | None, Delete => inl VNull
  | sel, _ =>
      match mapM (project s (table q) (default Star sel)) found with
      | None => inr (pg_error "PGRST200" "Could not find a relationship")
      | Some out =>
          if is_single q
          then match out with
               | [r] => inl (VObj r)
               | _ => inr not_single
               end
          else inl (VArr (VObj <$> out))
      end
  end.

(** The row an insert stores: every column of the table, from the payload
    when it names the column ([undefined] travels as [NULL]), generated or
    defaulted otherwise. *)
Definition stored_row (s : store) (cols : list (string * value))
    (payload : obj) : obj :=
  (λ cd : string * value,
     (cd.1,
      if has_field cd.1 payload then wire (field cd.1 payload)
      else if String.eqb cd.1 "id" then VNum (Z.pos (next_id s))
      else if String.eqb cd.1 "created_at" then VNum (clock s)
      else cd.2)) <$> cols.

Definition known_columns (cols : list (string * value)) (payload : obj) : bool :=
  forallb (λ kv : string * value, bool_decide (is_Some (assoc kv.1 cols))) payload.

(** The columns an update writes: those of the JSON body. *)
Definition written (changes : obj) : obj := keep_defined wire changes.

Definition apply_changes (changes : obj) (row : obj) : obj :=
  (λ kv : string * value,
     (kv.1, if has_field kv.1 changes then field kv.1 changes else kv.2)) <$> row.

Definition with_table (s : store) (t : string) (l : list obj) : store :=
  Store (<[t := l]> (tables s)) (next_id s) (clock s) (faults s) (bcrypt s).

Definition ticked (s : store) : store :=
  Store (tables s) (Pos.succ (next_id s)) (clock s + 1) (faults s) (bcrypt s).

(** One call, on a store whose next fault has already been consumed: the
    data or the error, and the store afterwards.  A mutation whose reply
    cannot be produced is rolled back. *)
Definition execute (q : query) (s : store) : (value + value) * store :=
  match assoc (table q) schema with
  | None => (inr (pg_error "42P01" "relation does not exist"), s)
  | Some cols =>
      match action q with
      | Read => (shaped s q (ordered (ordering q) (hits s q)), s)
      | Insert [VObj payload] =>
          if known_columns cols payload
          then
            let row := stored_row s cols payload in
            let s' := ticked (with_table s (table q) (rows s (table q) ++ [row])) in
            match shaped s' q [row] with
            | inl data => (inl data, s')
            | inr e => (inr e, s)
            end
          else (inr (pg_error "PGRST204" "Could not find the column"), s)
      | Insert _ => (inr (pg_error "PGRST102" "Unsupported payload"), s)
      | Update (VObj changes) =>
          if known_columns cols (written changes)
          then
            let touched r := forallb (matches r) (filters q) in
            let rewritten r :=
              if touched r then apply_changes (written changes) r else r in
            let s' := with_table s (table q) (rewritten <$> rows s (table q)) in
            match shaped s' q (rewritten <$> hits s q) with
            | inl data => (inl data, s')
            | inr e => (inr e, s)
            end
          else (inr (pg_error "PGRST204" "Could not find the column"), s)
      | Update _ => (inr (pg_error "PGRST102" "Unsupported payload"), s)
      | Delete =>
          let kept :=
            List.filter (λ r, negb (forallb (matches r) (filters q)))
              (rows s (table q)) in
          match shaped s q (hits s q) with
          | inl data => (inl data, with_table s (table q) kept)
          | inr e => (inr e, s)
          end
      end
  end.

Definition without_fault (s : store) : store :=
  Store (tables s) (next_id s) (clock s) (tail (faults s)) (bcrypt s).

Definition settle (r : value + value) : settled :=
  match r with inl data => ok data | inr e => failed e end.

(** The fault scheduled for the next database call, if any. *)
Definition next_fault (s : store) : option (string * string) :=
  match faults s with
  | Some f :: _ => Some f
  | _ => None
  end.

(** A database call first consults the fault schedule: a scheduled fault
    makes the call fail with that error and leaves the tables alone. *)
#[global] Instance memory_world : World store := λ eff s,
  match eff with
  | Db q =>
      match next_fault s with
      | Some (code, message) =>
          (failed (pg_error code message), without_fault s)
      | None =>
          let '(r, s') := execute q (without_fault s) in (settle r, s')
      end
  | _ => (bcrypt s eff, s)
  end.

Arguments shaped : simpl never.
Arguments stored_row : simpl never.
Arguments known_columns : simpl never.
Arguments written : simpl never.
Arguments apply_changes : simpl never.
Arguments hits : simpl never.
Arguments ordered : simpl never.
Arguments matches : simpl never.
Arguments wire : simpl never.

(** The first [n] database calls of a store meet no scheduled fault. *)
Definition calm (n : nat) (s : store) : bool :=
  forallb (λ f, bool_decide (f = None)) (take n (faults s)).

(** ** The earlier version of the server

    [src/unnamed/part_000] is an earlier version of [server.js].  It has no
    share requests and no timer logs; its profile endpoints, its checklist
    endpoints but the deletion, and its task list and task deletion read as
    the ones above.  The three handlers that differ (of which the deletion
    does not read [req.body], so that [delete_checklist (parsed r)] is what
    Express runs on [r]): *)
Module Earlier.

(** [DELETE /api/checklists/:id] *)
Definition delete_checklist (req : request) : prog response :=
  '(_, error) ← supabase
     (from "checklists" |> delete_rows
      |> eq_filter "id" (VStr (params_id req)));
  if truthy error then mret (json 500 (error_body (member "message" error)))
  else mret (send 204).

(** [POST /api/tasks] *)
Definition post_tasks (req : request) : prog response :=
  let checklist_id := field "checklist_id" (body req) in
  let parent_id := field "parent_id" (body req) in
  let title := field "title" (body req) in
  let order_num := field "order_num" (body req) in
  let start_time := field "start_time" (body req) in
  let end_time := field "end_time" (body req) in
  '(data, error) ← supabase
     (from "tasks"
      |> insert_rows [VObj [("checklist_id", checklist_id);
                            ("parent_id",
                               if truthy parent_id then parent_id else VNull);
                            ("title", title);
                            ("order_num", order_num);
                            ("start_time", start_time);
                            ("end_time", end_time)]]
      |> select Star
      |> single);
  if truthy error then mret (json 500 (error_body (member "message" error)))
  else mret (json 201 data).

Definition task_updates (b : obj) : obj :=
  let updates : obj := [] in
  let updates := assign_if_defined "title" b updates in
  let updates := assign_if_defined "is_completed" b updates in
  let updates := assign_if_defined "order_num" b updates in
  let updates := assign_if_defined "start_time" b updates in
  let updates := assign_if_defined "end_time" b updates in
  updates.

(** [PUT /api/tasks/:id] *)
Definition put_task (req : request) : prog response :=
  let updates := task_updates (body req) in
  '(data, error) ← supabase
     (from "tasks"
      |> update (VObj updates)
      |> eq_filter "id" (VStr (params_id req))
      |> select Star
      |> single);
  if truthy error then mret (json 500 (error_body (member "message" error)))
  else mret (json 200 data).

End Earlier.

(** ** Vocabulary of the properties *)

(** Where a handler reads an input from. *)
Inductive source : Type := InBody | InQuery.

Definition input (req : request) (i : source * string) : value :=
  match i.1 with
  | InBody => field i.2 (body req)
  | InQuery => field i.2 (req_query req)
  end.

(** The inputs a handler tests before its first call; empty for the handlers
    that test nothing. *)
Definition guarded_inputs (e : endpoint) : list (source * string) :=
  match e with
  | PostProfiles => [(InBody, "name"); (InBody, "password")]
  | PostProfilesLogin => [(InBody, "profile_id"); (InBody, "password")]
  | PostChecklists => [(InBody, "profile_id"); (InBody, "title")]
  | GetChecklists => [(InQuery, "profile_id")]
  | DeleteChecklist => [(InBody, "profile_id"); (InBody, "password")]
  | PostChecklistShare => [(InBody, "sender_id"); (InBody, "receiver_name")]
  | PostShareRequestRespond => [(InBody, "action")]
  | PostChecklistTimerLogs => [(InBody, "elapsed_seconds")]
  | _ => []
  end.

(** A task-creation request with an empty body, and a database that refuses
    the row. *)
Definition empty_request : request := Request "" [] [].
Definition not_null_violation : value :=
  pg_error "23502" "null value in column title violates not-null constraint".

(** The share requests stored under an id, as the lookup of the respond
    handler filters them. *)
Definition requests_with_id (s : store) (id : string) : list obj :=
  List.filter (λ r, matches r ("id", VStr id)) (rows s "share_requests").

(** Every database call a program can make satisfies [P], whatever the
    answers are. *)
Inductive calls_only (P : query → Prop) {A} : prog A → Prop :=
| calls_only_ret a : calls_only P (Ret a)
| calls_only_throw e : calls_only P (Throw e)
| calls_only_db q k :
    P q → (∀ r, calls_only P (k r)) → calls_only P (Await (Db q) k)
| calls_only_salt rounds k :
    (∀ r, calls_only P (k r)) → calls_only P (Await (GenSalt rounds) k)
| calls_only_hash x salt k :
    (∀ r, calls_only P (k r)) → calls_only P (Await (Hash x salt) k)
| calls_only_compare x h k :
    (∀ r, calls_only P (k r)) → calls_only P (Await (Compare x h) k).

(** One Supabase call against the reference database. *)
Definition db_step (q : query) (s : store) : (value + value) * store :=
  match next_fault s with
  | Some (c, m) => (inr (pg_error c m), without_fault s)
  | None => execute q (without_fault s)
  end.

Definition destructured (r : value + value) : value * value :=
  match r with inl d => (d, VNull) | inr e => (VNull, e) end.


(** The two calls the respond handler makes before it branches. *)
Definition lookup_request (id : string) : query :=
  from "share_requests" |> select Star |> eq_filter "id" (VStr id) |> single.

Definition mark_request (id status : string) : query :=
  from "share_requests"
  |> update (VObj [("status", VStr status)])
  |> eq_filter "id" (VStr id).

(** The rows of [share_requests] once the request [id] is marked. *)
Definition marked (id status : string) (l : list obj) : list obj :=
  (λ r, if matches r ("id", VStr id)
        then apply_changes [("status", VStr status)] r else r) <$> l.

(** The scenario of the spec: profile 10 owns checklist "Trip" with task
    "Pack" and its sub-task "Shoes", and has asked to share it with profile
    11. *)
Definition example_task (id : Z) (parent : value) (title : string) : obj :=
  [("id", VNum id); ("checklist_id", VNum 1); ("parent_id", parent);
   ("title", VStr title); ("description", VNull); ("order_num", VNum id);
   ("start_time", VNull); ("end_time", VNull); ("allocated_time", VNull);
   ("is_completed", VBool false); ("created_at", VNum id)].

Definition trip_request : obj :=
  [("id", VNum 4); ("checklist_id", VNum 1); ("sender_id", VNum 10);
   ("receiver_id", VNum 11); ("status", VStr "pending");
   ("created_at", VNum 4)].

Definition trip_checklist : obj :=
  [("id", VNum 1); ("profile_id", VNum 10); ("title", VStr "Trip");
   ("is_shared_copy", VBool false); ("created_at", VNum 1)].

Definition trip_tables : gmap string (list obj) :=
  list_to_map
    [("checklists", [trip_checklist]);
     ("tasks", [example_task 2 VNull "Pack"; example_task 3 (VNum 2) "Shoes"]);
     ("share_requests", [trip_request])].

Definition no_bcrypt : effect → settled := λ _, Rejected VUndefined.

Definition trip_store : store := Store trip_tables 5 5 [] no_bcrypt.

Definition accept_trip : request := Request "4" [] [("action", VStr "accept")].

(** The calls of the accept branch and what they look at. *)
Definition fetch_checklist (id : value) : query :=
  from "checklists" |> select Star |> eq_filter "id" id |> single.

Definition copy_checklist (owner title : value) : query :=
  from "checklists"
  |> insert_rows [VObj [("profile_id", owner); ("title", title);
                        ("is_shared_copy", VBool true)]]
  |> select Star
  |> single.

Definition fetch_tasks (checklist_id : value) : query :=
  from "tasks"
  |> select Star
  |> eq_filter "checklist_id" checklist_id
  |> order "created_at" true.

Definition checklists_with_id (s : store) (id : value) : list obj :=
  List.filter (λ r, matches r ("id", id)) (rows s "checklists").

(** The tasks of a checklist, oldest first. *)
Definition tasks_of (s : store) (checklist_id : value) : list obj :=
  sort_by (cell_leb "created_at")
    (List.filter (λ r, matches r ("checklist_id", checklist_id))
       (rows s "tasks")).

(** The row the reference database stores for the copy of a checklist. *)
Definition copied_checklist (s : store) (owner title : value) : obj :=
  [("id", VNum (Z.pos (next_id s))); ("profile_id", wire owner);
   ("title", wire title); ("is_shared_copy", VBool true);
   ("created_at", VNum (clock s))].

Definition with_copy (s : store) (row : obj) : store :=
  ticked (with_table (without_fault s) "checklists"
            (rows s "checklists" ++ [row])).

(** The store once the lookup and the status update of a respond have gone
    through. *)
Definition with_mark (s : store) (id status : string) : store :=
  with_table (without_fault (without_fault s)) "share_requests"
    (marked id status (rows s "share_requests")).

(** The same scenario with a database that fails on its third call. *)
Definition connection_lost : string * string :=
  ("08006", "connection failure").

Definition trip_store_failing : store :=
  Store trip_tables 5 5 [None; None; Some connection_lost] no_bcrypt.

(** The insert of the clone loop, and the row the reference database stores
    for it. *)
Definition insert_task (payload : value) : query :=
  from "tasks" |> insert_rows [payload] |> select Star |> single.

Definition new_parent (idMap : gmap string value) (task : obj) : value :=
  if truthy (field "parent_id" task)
  then idMap_get idMap (field "parent_id" task)
  else VNull.

Definition copied_task (s : store) (checklist_id : value)
    (idMap : gmap string value) (task : obj) : obj :=
  [("id", VNum (Z.pos (next_id s)));
   ("checklist_id", wire checklist_id);
   ("parent_id", wire (new_parent idMap task));
   ("title", wire (field "title" task));
   ("description", wire (field "description" task));
   ("order_num", wire (field "order_num" task));
   ("start_time", wire (field "start_time" task));
   ("end_time", wire (field "end_time" task));
   ("allocated_time", wire (field "allocated_time" task));
   ("is_completed", wire (field "is_completed" task));
   ("created_at", VNum (clock s))].

Definition with_task (s : store) (row : obj) : store :=
  ticked (with_table (without_fault s) "tasks" (rows s "tasks" ++ [row])).

(** The fields a copy takes over from its source task. *)
Definition copied_fields : list string :=
  ["title"; "description"; "order_num"; "start_time"; "end_time";
   "allocated_time"; "is_completed"].

(** The [idMap] after the loop has handled [tasks] with the given outcomes
    ([None] where the insert failed). *)
Fixpoint record_ids (idMap : gmap string value) (tasks : list obj)
    (outcomes : list (option obj)) : gmap string value :=
  match tasks, outcomes with
  | task :: tasks', Some row :: outcomes' =>
      record_ids (idMap_set idMap (field "id" task) (field "id" row))
        tasks' outcomes'
  | _ :: tasks', None :: outcomes' => record_ids idMap tasks' outcomes'
  | _, _ => idMap
  end.

(** Database cells that hold plain JSON scalars. *)
Definition primitive (v : value) : bool :=
  match v with
  | VNull | VBool _ | VNum _ | VStr _ => true
  | _ => false
  end.

(** The key under which the loop records a task. *)
Definition task_key (task : obj) : string := to_string (field "id" task).

(** The scenario with a checklist that has no task yet. *)
Definition bare_store : store :=
  Store (list_to_map [("checklists", [trip_checklist]);
                      ("share_requests", [trip_request])])
    5 5 [] no_bcrypt.


Definition new_trip : value :=
  VObj [("id", VNum 5); ("profile_id", VNum 11); ("title", VStr "Trip");
        ("is_shared_copy", VBool true); ("created_at", VNum 5)].

Definition trip_tasks : list obj :=
  [example_task 2 VNull "Pack"; example_task 3 (VNum 2) "Shoes"].

(** A Supabase reply with the given [data] and [error]. *)
Definition answered (data error : value) : settled :=
  Resolved (reply data error).

Definition nullish (v : value) : bool :=
  match v with VUndefined | VNull => true | _ => false end.

(** Scripted replies for the example: the request, the status update, the
    source checklist, its copy, two tasks, and one failed and one successful
    insert. *)
Definition timeout_error : value := pg_error "57014" "statement timeout".

Definition partial_clone_script : list settled :=
  [ok (VObj trip_request); ok VNull; ok (VObj trip_checklist); ok new_trip;
   ok (VArr (VObj <$> trip_tasks));
   failed timeout_error;
   ok (VObj (example_task 7 VNull "Shoes"))].

(** The tasks stored under an id, as the update of a task filters them. *)
Definition tasks_with_id (s : store) (id : string) : list obj :=
  List.filter (λ r, matches r ("id", VStr id)) (rows s "tasks").

(** Whether the task update writes field [f] for body [b]. *)
Definition updated (b : obj) (f : string) : bool :=
  bool_decide (f ∈ task_update_fields) && negb (is_undefined (field f b)).

(** A request to detach the task "Shoes" from its parent. *)
Definition detach_shoes : request := Request "3" [] [("parent_id", VNull)].

(** ** The password hash *)

(** An object with property [k], anywhere inside [v]. *)
Fixpoint any_field (k : string) (inside : value → bool) (o : obj) : bool :=
  match o with
  | [] => false
  | (k', x) :: r => String.eqb k k' || inside x || any_field k inside r
  end.

Fixpoint mentions (k : string) (v : value) : bool :=
  match v with
  | VArr l => existsb (mentions k) l
  | VObj o => any_field k (mentions k) o
  | _ => false
  end.

Definition hides_hash (v : value) : bool := negb (mentions "password_hash" v).

(** The query asks the database for the password hash of a profile. *)
Definition asks_for_hash (q : query) : bool :=
  match returning q with
  | None => false
  | Some Star => String.eqb (table q) "profiles"
  | Some (Cols cs) =>
      existsb
        (λ c, match c with
              | Col name =>
                  String.eqb (table q) "profiles"
                  && String.eqb name "password_hash"
              | Embed rel _ cols =>
                  String.eqb rel "profiles"
                  && existsb (λ n, String.eqb n "password_hash"
                                   || String.eqb n "*") cols
              end) cs
  end.

(** What is assumed of the outside world: the message of an error never
    carries the hash; the database returns the hash only to a query that asks
    for it, and then as a plain column of the row. *)
Definition discreet (eff : effect) (ans : settled) : bool :=
  match ans with
  | Rejected e => hides_hash (member "message" e)
  | Resolved r =>
      match eff with
      | Db q =>
          hides_hash (member "message" (member "error" r))
          && (if asks_for_hash q
              then forallb (λ kv, hides_hash kv.2)
                     (own_entries (member "data" r))
              else hides_hash (member "data" r))
      | _ => true
      end
  end.

Definition hash_free (resp : response) : bool :=
  match payload resp with
  | Some b => hides_hash b
  | None => true
  end.

(** Whatever a discreet world answers, the program responds without the
    hash. *)
Fixpoint never_leaks (p : prog response) : Prop :=
  match p with
  | Ret resp => hash_free resp = true
  | Throw _ => True
  | Await eff k => ∀ ans, discreet eff ans = true → never_leaks (k ans)
  end.

(** A stored profile and a login attempt with the wrong password. *)
Definition stored_profile : value :=
  VObj [("id", VNum 10); ("name", VStr "Ann"); ("password_hash", VStr "$2a$10$x");
        ("avatar_url", VNull); ("created_at", VNum 1)].

Definition bad_login : request :=
  Request "" [] [("profile_id", VNum 10); ("password", VStr "guess")].

(** The same for the body of a [try]: what it throws must not carry the hash
    in its message either, since the [catch] echoes that message. *)
Fixpoint throws_discreetly (p : prog response) : Prop :=
  match p with
  | Ret resp => hash_free resp = true
  | Throw e => hides_hash (member "message" e) = true
  | Await eff k => ∀ ans, discreet eff ans = true → throws_discreetly (k ans)
  end.

(** What a discreet database may hand to the continuation of a call. *)
Definition discreet_data (q : query) (data : value) : bool :=
  if asks_for_hash q
  then forallb (λ kv, hides_hash kv.2) (own_entries data)
  else hides_hash data.

(** The order a boolean comparison decides. *)
Definition below {A} (leb : A → A → bool) : relation A :=
  λ x y, leb x y = true.

(** ** Properties of whole programs *)

(** [P] holds of whatever the program returns and [E] of whatever it throws,
    for all answers the predicate [fair] admits. *)
Fixpoint ensures {A} (fair : effect → settled → bool) (P : A → Prop)
    (E : value → Prop) (p : prog A) : Prop :=
  match p with
  | Ret a => P a
  | Throw e => E e
  | Await eff k => ∀ ans, fair eff ans = true → ensures fair P E (k ans)
  end.

Definition any_answer : effect → settled → bool := λ _ _, true.

(** The status codes the server uses, and the shape of its bodies: an error
    status carries [{ error }], 204 carries nothing. *)
Definition status_codes : list Z := [200; 201; 204; 400; 401; 404; 409; 500].

Definition conventional (resp : response) : Prop :=
  status resp ∈ status_codes
  ∧ ((400 ≤ status resp)%Z → ∃ m, payload resp = Some (error_body m))
  ∧ (status resp = 204 ↔ payload resp = None).

(** The replies Supabase and bcrypt give when nothing is broken: every
    promise resolves; a database reply is an object that carries an error, or
    else the data its query asked for: nothing for a mutation without
    [select], one row under [single], an array of rows otherwise. *)
Definition expected_data (q : query) (data : value) : bool :=
  match returning q with
  | None => true
  | Some _ =>
      if is_single q then negb (nullish data)
      else match data with
           | VArr l => forallb (λ x, negb (nullish x)) l
           | _ => false
           end
  end.

Definition orderly (eff : effect) (ans : settled) : bool :=
  match ans with
  | Rejected _ => false
  | Resolved r =>
      match eff with
      | Db q =>
          negb (nullish r)
          && (truthy (member "error" r)
              || expected_data q (member "data" r))
      | _ => true
      end
  end.

(** The handlers whose guard is a truthiness test ([!x]). *)
Definition truthiness_guarded (e : endpoint) : bool :=
  match e with
  | PostProfiles | PostProfilesLogin | PostChecklists | GetChecklists
  | DeleteChecklist | PostChecklistShare => true
  | _ => false
  end.

(** A checklist request with an empty title, and a timer log of zero
    seconds. *)
Definition untitled_checklist : request :=
  Request "" [] [("profile_id", VNum 10); ("title", VStr "")].

Definition zero_seconds : request :=
  Request "1" [] [("elapsed_seconds", VNum 0)].

Definition insert_timer_log (checklist_id : string) (elapsed : value) : query :=
  from "timer_logs"
  |> insert_rows [VObj [("checklist_id", VStr checklist_id);
                        ("elapsed_seconds", elapsed)]]
  |> select Star
  |> single.

(** The tables a handler inserts into, updates or deletes from. *)
Definition written_tables (e : endpoint) : list string :=
  match e with
  | PostProfiles | PutProfile | DeleteProfile => ["profiles"]
  | PostChecklists | PutChecklist | DeleteChecklist => ["checklists"]
  | PostChecklistShare => ["share_requests"]
  | PostShareRequestRespond => ["share_requests"; "checklists"; "tasks"]
  | PostChecklistTimerLogs => ["timer_logs"]
  | PostTasks | PutTask | DeleteTask => ["tasks"]
  | GetProfiles | PostProfilesLogin | GetChecklists | GetChecklist
  | GetProfileShareRequests | GetChecklistTimerLogs | GetChecklistTasks => []
  end.

(** A query that reads, or that writes one of the given tables. *)
Definition reads_or_writes (ts : list string) (q : query) : Prop :=
  action q = Read ∨ table q ∈ ts.

(** Requests and stores for the reject path and for failures in the middle
    of an accept. *)
Definition reject_trip : request := Request "4" [] [("action", VStr "reject")].

Definition trip_store_update_fails : store :=
  Store trip_tables 5 5 [None; Some connection_lost] no_bcrypt.

Definition trip_store_tasks_fail : store :=
  Store trip_tables 5 5 [None; None; None; None; Some connection_lost]
    no_bcrypt.

(** The calls of the profile handlers. *)
Definition lookup_profile (id : value) : query :=
  from "profiles" |> select Star |> eq_filter "id" id |> single.

Definition insert_profile (name password_hash avatar_url : value) : query :=
  from "profiles"
  |> insert_rows [VObj [("name", name); ("password_hash", password_hash);
                        ("avatar_url", avatar_url)]]
  |> select public_profile
  |> single.

Definition update_profile (id : string) (updates : obj) : query :=
  from "profiles"
  |> update (VObj updates)
  |> eq_filter "id" (VStr id)
  |> select public_profile
  |> single.

(** Example requests for the profile handlers. *)
Definition sign_up : request :=
  Request "" [] [("name", VStr "Ann"); ("password", VStr "secret")].

Definition duplicate_name : value :=
  pg_error "23505" "duplicate key value violates unique constraint".

Definition good_login : request :=
  Request "" [] [("profile_id", VNum 10); ("password", VStr "secret")].

Definition rename_profile : request :=
  Request "10" [] [("name", VStr "Anna"); ("avatar_url", VNull)].

(** Deleting by id. *)
Definition delete_by_id (t : string) (id : string) : query :=
  from t |> delete_rows |> eq_filter "id" (VStr id).

Definition without_id (id : string) (l : list obj) : list obj :=
  List.filter (λ r, negb (matches r ("id", VStr id))) l.

Definition delete_shoes : request := Request "3" [] [].
Definition delete_nothing : request := Request "99" [] [].

(** The lookup of the hash before a checklist is deleted, and a store whose
    bcrypt accepts every password. *)
Definition lookup_hash (id : value) : query :=
  from "profiles" |> select (Cols [Col "password_hash"]) |> eq_filter "id" id
  |> single.

Definition profiles_with_id (s : store) (id : value) : list obj :=
  List.filter (λ r, matches r ("id", id)) (rows s "profiles").

Definition ann : obj :=
  [("id", VNum 10); ("name", VStr "Ann"); ("password_hash", VStr "$2a$10$x");
   ("avatar_url", VNull); ("created_at", VNum 1)].

Definition lenient_bcrypt : effect → settled := λ _, Resolved (VBool true).

(** A bcrypt for which the password of the examples matches the hash of
    profile 20 and no other. *)
Definition picky_bcrypt : effect → settled := λ eff,
  match eff with
  | Compare _ (VStr hash) => Resolved (VBool (String.eqb hash "$2a$10$y"))
  | _ => Resolved (VBool false)
  end.

Definition tables_with_ann : gmap string (list obj) :=
  <["profiles" := [ann]]> trip_tables.

Definition delete_trip : request :=
  Request "1" [] [("profile_id", VNum 10); ("password", VStr "secret")].

(** The list endpoints: one filtered, ordered read of a table. *)
Definition listing (t c : string) (v : value) (by_column : string)
    (ascending : bool) : query :=
  from t |> select Star |> eq_filter c v |> order by_column ascending.

Definition selected (s : store) (t c : string) (v : value) : list obj :=
  List.filter (λ r, matches r (c, v)) (rows s t).

(** [l] lists its numbered rows by ascending (descending) number in [c]. *)
Definition ascending_in (c : string) (l : list obj) : Prop :=
  ∀ j k rj rk a b,
    l !! j = Some rj → l !! k = Some rk →
    field c rj = VNum a → field c rk = VNum b → a < b → (j < k)%nat.

Definition descending_in (c : string) (l : list obj) : Prop :=
  ∀ j k rj rk a b,
    l !! j = Some rj → l !! k = Some rk →
    field c rj = VNum a → field c rk = VNum b → a < b → (k < j)%nat.

Definition log (id seconds created : Z) : obj :=
  [("id", VNum id); ("checklist_id", VNum 1); ("elapsed_seconds", VNum seconds);
   ("created_at", VNum created)].

Definition ordered_task (id order_num : Z) : obj :=
  [("id", VNum id); ("checklist_id", VNum 1); ("parent_id", VNull);
   ("title", VStr "t"); ("description", VNull); ("order_num", VNum order_num);
   ("start_time", VNull); ("end_time", VNull); ("allocated_time", VNull);
   ("is_completed", VBool false); ("created_at", VNum id)].

Definition listed_tables : gmap string (list obj) :=
  list_to_map
    [("checklists", [trip_checklist]);
     ("tasks", [ordered_task 2 30; ordered_task 3 10; ordered_task 4 20]);
     ("timer_logs", [log 5 60 1; log 6 0 3; log 7 10 2])].

Definition listed_store : store := Store listed_tables 8 8 [] no_bcrypt.

Definition list_trip : request := Request "1" [("profile_id", VNum 10)] [].

(** The two calls of [POST /api/checklists/:id/share] and the row the
    reference database stores for the request. *)
Definition lookup_receiver (name : value) : query :=
  from "profiles" |> select (Cols [Col "id"]) |> eq_filter "name" name
  |> single.

Definition file_request (checklist_id sender receiver : value) : query :=
  from "share_requests"
  |> insert_rows [VObj [("checklist_id", checklist_id);
                        ("sender_id", sender);
                        ("receiver_id", receiver)]]
  |> select Star
  |> single.

Definition filed_request (s : store) (checklist_id sender receiver : value)
  : obj :=
  [("id", VNum (Z.pos (next_id s))); ("checklist_id", wire checklist_id);
   ("sender_id", wire sender); ("receiver_id", wire receiver);
   ("status", VStr "pending"); ("created_at", VNum (clock s))].

Definition bob : obj :=
  [("id", VNum 20); ("name", VStr "Bob"); ("password_hash", VStr "$2a$10$y");
   ("avatar_url", VNull); ("created_at", VNum 2)].

Definition tables_with_profiles : gmap string (list obj) :=
  <["profiles" := [ann; bob]]> trip_tables.

Definition share_with (name : string) : request :=
  Request "1" [] [("sender_id", VNum 10); ("receiver_name", VStr name)].

(** The read of [GET /api/profiles/:id/share-requests] and the entry it
    shows for a stored request: four columns of the request, the title of its
    checklist and the name and avatar of its sender. *)
Definition pending_requests (receiver : string) : query :=
  from "share_requests"
  |> select (Cols [Col "id"; Col "status"; Col "created_at";
                   Col "checklist_id";
                   Embed "checklists" None ["title"];
                   Embed "profiles" (Some "share_requests_sender_id_fkey")
                     ["name"; "avatar_url"]])
  |> eq_filter "receiver_id" (VStr receiver)
  |> eq_filter "status" (VStr "pending")
  |> order "created_at" false.

Definition first_picked (cols : list string) (l : list obj) : value :=
  match l with r :: _ => VObj (pick cols r) | [] => VNull end.

Definition shown_request (s : store) (row : obj) : obj :=
  [("id", wire (field "id" row)); ("status", wire (field "status" row));
   ("created_at", wire (field "created_at" row));
   ("checklist_id", wire (field "checklist_id" row));
   ("checklists",
     first_picked ["title"]
       (selected s "checklists" "id" (field "checklist_id" row)));
   ("profiles",
     first_picked ["name"; "avatar_url"]
       (selected s "profiles" "id" (field "sender_id" row)))].

Definition pending_for (s : store) (receiver : string) : list obj :=
  List.filter
    (λ r, matches r ("receiver_id", VStr receiver)
          && matches r ("status", VStr "pending"))
    (rows s "share_requests").

Definition pending_of (receiver : string) : request := Request receiver [] [].

(** ** The status codes of each endpoint *)

Definition possible_status (e : endpoint) : list Z :=
  match e with
  | PostProfiles => [400; 201; 409; 500]
  | PostProfilesLogin => [400; 404; 401; 200]
  | PostChecklists | PostChecklistTimerLogs => [400; 201; 500]
  | GetChecklists => [400; 200; 500]
  | GetChecklist => [404; 200]
  | DeleteChecklist => [400; 404; 401; 500; 204]
  | PostChecklistShare => [400; 404; 500; 201]
  | PostShareRequestRespond => [400; 404; 500; 200]
  | PostTasks => [500; 201]
  | DeleteProfile | DeleteTask => [500; 204]
  | GetProfiles | PutProfile | PutChecklist | GetProfileShareRequests
  | GetChecklistTimerLogs | GetChecklistTasks | PutTask => [500; 200]
  end.

(** A request that passes every guard, and for each endpoint and status a
    sequence of answers under which that request (the empty one for 400) is
    answered with the status. *)
Definition full_request : request :=
  Request "1" [("profile_id", VNum 10)]
    [("name", VStr "Ann"); ("password", VStr "secret");
     ("profile_id", VNum 10); ("title", VStr "Trip");
     ("sender_id", VNum 10); ("receiver_name", VStr "Bob");
     ("action", VStr "reject"); ("elapsed_seconds", VNum 5)].

Definition answers_reaching (e : endpoint) (c : Z) : list settled :=
  let row := ok stored_profile in
  let error := failed timeout_error in
  let yes := Resolved (VBool true) in
  let no := Resolved (VBool false) in
  match e with
  | PostProfiles | PutProfile =>
      [Resolved (VStr "salt"); Resolved (VStr "hash");
       if Z.eqb c 500 then error
       else if Z.eqb c 409 then failed duplicate_name else row]
  | PostProfilesLogin =>
      if Z.eqb c 404 then [error]
      else [row; if Z.eqb c 401 then no else yes]
  | DeleteChecklist =>
      if Z.eqb c 404 then [error]
      else if Z.eqb c 401 then [row; no]
      else [row; yes; if Z.eqb c 500 then error else row]
  | PostChecklistShare =>
      if Z.eqb c 404 then [error]
      else [row; if Z.eqb c 500 then error else row]
  | PostShareRequestRespond =>
      if Z.eqb c 404 then [error]
      else [ok (VObj trip_request); if Z.eqb c 500 then error else row]
  | _ => [if Z.eqb c 500 || Z.eqb c 404 then error else row]
  end.

Definition reaching (e : endpoint) (c : Z) : request * list settled :=
  (if Z.eqb c 400 then empty_request else full_request, answers_reaching e c).

(** The insert of [POST /api/tasks] and the row the reference database
    stores for it. *)
Definition insert_new_task (b : obj) : query :=
  from "tasks"
  |> insert_rows [VObj [("checklist_id", field "checklist_id" b);
                        ("parent_id",
                           if truthy (field "parent_id" b)
                           then field "parent_id" b else VNull);
                        ("title", field "title" b);
                        ("description", field "description" b);
                        ("order_num", field "order_num" b);
                        ("start_time", field "start_time" b);
                        ("end_time", field "end_time" b);
                        ("allocated_time", field "allocated_time" b)]]
  |> select Star
  |> single.

Definition created_task (s : store) (b : obj) : obj :=
  [("id", VNum (Z.pos (next_id s)));
   ("checklist_id", wire (field "checklist_id" b));
   ("parent_id",
      if truthy (field "parent_id" b) then wire (field "parent_id" b)
      else VNull);
   ("title", wire (field "title" b));
   ("description", wire (field "description" b));
   ("order_num", wire (field "order_num" b));
   ("start_time", wire (field "start_time" b));
   ("end_time", wire (field "end_time" b));
   ("allocated_time", wire (field "allocated_time" b));
   ("is_completed", VBool false);
   ("created_at", VNum (clock s))].

Definition stray_task : request :=
  Request "" [] [("checklist_id", VNum 77); ("parent_id", VNum 0);
                 ("is_completed", VBool true)].

(** The insert of [POST /api/checklists] and the row the reference database
    stores for it. *)
Definition insert_checklist (owner title : value) : query :=
  from "checklists"
  |> insert_rows [VObj [("profile_id", owner); ("title", title)]]
  |> select Star
  |> single.

Definition created_checklist (s : store) (owner title : value) : obj :=
  [("id", VNum (Z.pos (next_id s))); ("profile_id", wire owner);
   ("title", wire title); ("is_shared_copy", VBool false);
   ("created_at", VNum (clock s))].

Definition checklist_at (id : Z) : request := Request (pretty id) [] [].

Definition new_list : request :=
  Request "" [] [("profile_id", VNum 10); ("title", VStr "Groceries")].

(** Requests for the comparison with the earlier version. *)
Definition earlier_insert_task (b : obj) : query :=
  from "tasks"
  |> insert_rows [VObj [("checklist_id", field "checklist_id" b);
                        ("parent_id",
                           if truthy (field "parent_id" b)
                           then field "parent_id" b else VNull);
                        ("title", field "title" b);
                        ("order_num", field "order_num" b);
                        ("start_time", field "start_time" b);
                        ("end_time", field "end_time" b)]]
  |> select Star
  |> single.

Definition retitle : request := Request "3" [] [("title", VStr "Boots")].

Definition describe : request :=
  Request "3" [] [("description", VStr "for the hike")].

Definition plain_task : request :=
  Request "" [] [("checklist_id", VNum 1); ("title", VStr "Tent")].

(** ** What a handler reads of its request *)

Definition inputs_read (e : endpoint) : list (source * string) :=
  match e with
  | PostProfiles | PutProfile =>
      [(InBody, "name"); (InBody, "password"); (InBody, "avatar_url")]
  | PostProfilesLogin | DeleteChecklist =>
      [(InBody, "profile_id"); (InBody, "password")]
  | PostChecklists => [(InBody, "profile_id"); (InBody, "title")]
  | GetChecklists => [(InQuery, "profile_id")]
  | PutChecklist => [(InBody, "title")]
  | PostChecklistShare => [(InBody, "sender_id"); (InBody, "receiver_name")]
  | PostShareRequestRespond => [(InBody, "action")]
  | PostChecklistTimerLogs => [(InBody, "elapsed_seconds")]
  | PostTasks =>
      [(InBody, "checklist_id"); (InBody, "parent_id"); (InBody, "title");
       (InBody, "description"); (InBody, "order_num"); (InBody, "start_time");
       (InBody, "end_time"); (InBody, "allocated_time")]
  | PutTask => (λ f, (InBody, f)) <$> task_update_fields
  | GetProfiles | DeleteProfile | GetChecklist | GetProfileShareRequests
  | GetChecklistTimerLogs | GetChecklistTasks | DeleteTask => []
  end.

Definition reads_path_id (e : endpoint) : bool :=
  match e with
  | PostProfiles | GetProfiles | PostProfilesLogin | PostChecklists
  | GetChecklists | PostTasks => false
  | _ => true
  end.

Definition same_inputs (e : endpoint) (req req' : request) : Prop :=
  (reads_path_id e = true → params_id req = params_id req')
  ∧ Forall (λ i, input req i = input req' i) (inputs_read e).

Definition respond_as (who : Z) : request :=
  Request "4" [] [("action", VStr "accept"); ("profile_id", VNum who)].

(** The update of [PUT /api/checklists/:id]. *)
Definition retitle_checklist (id : string) (title : value) : query :=
  from "checklists"
  |> update (VObj [("title", title)])
  |> eq_filter "id" (VStr id)
  |> select Star
  |> single.

Definition rename_trip (id : string) : request :=
  Request id [] [("title", VStr "Journey"); ("profile_id", VNum 99)].

(** Requests as Express hands them over: one whose body was never parsed,
    one with an empty object for a body. *)
Definition no_body : incoming := Incoming "1" [] VUndefined.
Definition empty_body : incoming := Incoming "1" [] (VObj []).

(** What a handler answers to the reply of a single insert. *)
Definition created_or_failed (r : value) : response :=
  if truthy (member "error" r)
  then json 500 (error_body (member "message" (member "error" r)))
  else json 201 (member "data" r).

Definition accept_trip_as_sent : incoming :=
  Incoming "4" [] (VObj [("action", VStr "accept")]).

(** ** Requests in flight together

    Node runs a handler up to its next [await] and resumes it once the
    awaited call has settled; the handlers of two requests in flight take
    turns at these points.  A turn is one awaited call of one of the two,
    made and settled; a handler that has finished lets its turn pass.  When
    the turns are used up the first handler runs to its end, then the
    second. *)
Definition advance {W} `{World W} {A} (p : prog A) (s : W) : prog A * W :=
  match p with
  | Await eff k => let '(r, s1) := answer eff s in (k r, s1)
  | _ => (p, s)
  end.

Fixpoint interleaved {W} `{World W} {A} (turns : list bool) (p q : prog A)
    (s : W) : outcome A * outcome A * W :=
  match turns with
  | [] =>
      let '(o1, s1, _) := run p s in
      let '(o2, s2, _) := run q s1 in
      (o1, o2, s2)
  | first :: rest =>
      if first
      then let '(p', s') := advance p s in interleaved rest p' q s'
      else let '(q', s') := advance q s in interleaved rest p q' s'
  end.

Definition accepted_and_cloned : outcome response :=
  Returned (json 200 (message_body "Accepted and cloned checklist")).

(** ** A password that is not a string

    [bcryptjs] checks the types of its arguments before anything else:
    [compare(s, hash)] called with a password or a hash that is not a string
    rejects with the error "Illegal arguments: <typeof s>, <typeof hash>".
    The bcrypt below does that and accepts no password at all. *)
Definition js_typeof (v : value) : string :=
  match v with
  | VUndefined => "undefined"
  | VBool _ => "boolean"
  | VNum _ => "number"
  | VStr _ => "string"
  | VNull | VArr _ | VObj _ => "object"
  end.

Definition illegal_arguments (s hash : value) : value :=
  VObj [("name", VStr "Error");
        ("message",
          VStr ("Illegal arguments: " +:+ js_typeof s +:+ ", "
                +:+ js_typeof hash))].

Definition typed_bcrypt : effect → settled := λ eff,
  match eff with
  | Compare (VStr _) (VStr _) => Resolved (VBool false)
  | Compare s hash => Rejected (illegal_arguments s hash)
  | _ => Resolved (VStr "$2a$10$")
  end.

Definition numeric_login : request :=
  Request "" [] [("profile_id", VNum 10); ("password", VNum 12345)].

(** ** Validation guards *)

Ltac unfold_handler :=
  unfold handler, post_profiles, get_profiles, post_profiles_login,
    put_profile, delete_profile, post_checklists, get_checklists,
    get_checklist, put_checklist, delete_checklist, post_checklist_share,
    get_profile_share_requests, post_share_request_respond,
    post_checklist_timer_logs, get_checklist_timer_logs, post_tasks,
    get_checklist_tasks, put_task, delete_task.

Lemma guard_left (a b : value) :
  a = VUndefined → negb (truthy a) || negb (truthy b) = true.
Proof. by intros ->. Qed.

Lemma guard_right (a b : value) :
  b = VUndefined → negb (truthy a) || negb (truthy b) = true.
Proof. intros ->. by destruct (truthy a). Qed.

Lemma guard_rejects (e : endpoint) (req : request) (i : source * string) :
  i ∈ guarded_inputs e →
  input req i = VUndefined →
  ∃ msg, handler e req = Ret (json 400 (error_body (VStr msg))).
Proof.
  destruct i as [src f]. intros Hin Hmiss.
  destruct e; simpl in Hin;
    repeat (apply elem_of_cons in Hin as [Heq | Hin];
            [injection Heq as -> -> |]);
    try (by apply elem_of_nil in Hin);
    unfold input in Hmiss; simpl in Hmiss;
    unfold_handler; cbn -[truthy]; rewrite ?Hmiss;
    try (rewrite guard_left by done); try (rewrite guard_right by done);
    eauto.
Qed.

(** With a body to destructure a route is its handler on the parsed
    request; without one, a handler that reads the body throws at once. *)
Lemma serve_parsed (e : endpoint) (r : incoming) :
  reads_body e && nullish (in_body r) = false →
  serve e r = handler e (parsed r).
Proof.
  unfold serve, parsed. destruct (reads_body e); [|done].
  by destruct (in_body r).
Qed.

Lemma serve_without_body (e : endpoint) (r : incoming) :
  reads_body e && nullish (in_body r) = true →
  ∃ err, serve e r = Throw err.
Proof.
  unfold serve. destruct (reads_body e); [|done].
  destruct (in_body r); try done; cbn; eauto.
Qed.

(** C7, as the code has it: a handler that tests its inputs answers 400
    without awaiting anything when one of them is missing from a request
    whose body it can destructure; when [req.body] is [undefined] a handler
    that reads the body throws before its guard, without 400 and without a
    call; task creation tests nothing: given a body it always makes the
    insert of the eight fields it reads its first call, and when that call
    resolves with a reply it answers 201 with the data of the reply, or 500
    with the message of the reply's error, without a further call. *)
Theorem missing_input_rejected_before_any_call :
  (∀ (e : endpoint) (r : incoming) (i : source * string),
     i ∈ guarded_inputs e →
     reads_body e && nullish (in_body r) = false →
     input (parsed r) i = VUndefined →
     ∃ msg, serve e r = Ret (json 400 (error_body (VStr msg))))
  ∧ (∀ (e : endpoint) (r : incoming),
       reads_body e && nullish (in_body r) = true →
       ∃ err, serve e r = Throw err)
  ∧ (∀ r : incoming,
       nullish (in_body r) = false →
       ∃ k, serve PostTasks r
            = Await (Db (insert_new_task (body (parsed r)))) k)
  ∧ (∀ (W : Type) (world : World W) (r : incoming) (s s1 : W)
       (answered_with : value),
       nullish (in_body r) = false →
       answer (Db (insert_new_task (body (parsed r)))) s
       = (Resolved answered_with, s1) →
       nullish answered_with = false →
       result_of (serve PostTasks r) s
       = Returned (created_or_failed answered_with)
       ∧ calls_of (serve PostTasks r) s
         = [Db (insert_new_task (body (parsed r)))]).
Proof.
  split; [|split; [|split]].
  - intros e r i Hin Hbody Hmiss. rewrite serve_parsed by done.
    by apply guard_rejects with i.
  - apply serve_without_body.
  - intros r Hbody. rewrite serve_parsed by done.
    unfold handler, post_tasks, supabase, await. cbn. eauto.
  - intros W world r s s1 v Hbody Hanswer Hv.
    rewrite serve_parsed by done.
    unfold result_of, calls_of, handler, post_tasks.
    match goal with
    | |- context [supabase ?q] =>
        change q with (insert_new_task (body (parsed r)))
    end.
    revert Hanswer. generalize (insert_new_task (body (parsed r))).
    intros q Hanswer. unfold supabase, await. cbn. rewrite Hanswer.
    unfold created_or_failed.
    destruct v; try done; cbn;
      match goal with
      | |- context [if ?b then _ else _] => by destruct b
      end.
Qed.

Lemma missing_input_rejected_before_any_call_witness :
  (∃ msg, serve PostProfiles empty_body
          = Ret (json 400 (error_body (VStr msg))))
  ∧ (∃ err, serve PostProfiles no_body = Throw err)
  ∧ (∃ k, serve PostTasks empty_body = Await (Db (insert_new_task [])) k)
  ∧ result_of (serve PostTasks empty_body) [failed not_null_violation]
    = Returned (created_or_failed (reply VNull not_null_violation)).
Proof.
  split; [|split; [|split]].
  - apply (proj1 missing_input_rejected_before_any_call
             PostProfiles empty_body (InBody, "name")).
    + simpl. left.
    + reflexivity.
    + reflexivity.
  - apply (proj1 (proj2 missing_input_rejected_before_any_call)
             PostProfiles no_body).
    reflexivity.
  - apply (proj1 (proj2 (proj2 missing_input_rejected_before_any_call))
             empty_body).
    reflexivity.
  - apply (proj2 (proj2 (proj2 missing_input_rejected_before_any_call))
             (list settled) script_world empty_body
             [failed not_null_violation] []
             (reply VNull not_null_violation));
      reflexivity.
Defined.

(** C7 as stated fails for task creation: a request without a title is not
    answered 400; the insert is sent and the database's refusal comes back as
    a 500. *)
Lemma post_tasks_without_title_reaches_database :
  field "title" (body empty_request) = VUndefined
  ∧ field "checklist_id" (body empty_request) = VUndefined
  ∧ result_of (post_tasks empty_request) [failed not_null_violation]
    = Returned (json 500 (error_body (member "message" not_null_violation)))
  ∧ length (calls_of (post_tasks empty_request) [failed not_null_violation])
    = 1%nat.
Proof. repeat split. Qed.

(** ** Running programs *)

Lemma run_bind {W} `{World W} {A B} (p : prog A) (f : A → prog B) (s : W) :
  run (p ≫= f) s =
    match run p s with
    | (Returned a, s1, t1) =>
        let '(o, s2, t2) := run (f a) s1 in (o, s2, t1 ++ t2)
    | (Uncaught e, s1, t1) => (Uncaught e, s1, t1)
    end.
Proof.
  revert s. induction p as [a | e | eff k IH]; intros s; cbn.
  - by destruct (run (f a) s) as [[o s2] t2].
  - done.
  - destruct (answer eff s) as [r s1].
    change (prog_bind f (k r)) with (k r ≫= f). rewrite IH.
    destruct (run (k r) s1) as [[[a | e] s2] t]; [|done].
    by destruct (run (f a) s2) as [[o s3] t2].
Qed.

Lemma calls_only_bind (P : query → Prop) {A B} (p : prog A) (f : A → prog B) :
  calls_only P p → (∀ a, calls_only P (f a)) → calls_only P (p ≫= f).
Proof.
  intros Hp Hf. induction Hp; cbn; try done; constructor; auto.
Qed.

Lemma calls_only_lift (P : query → Prop) {A} (r : A + value) :
  calls_only P (lift r).
Proof. destruct r; constructor. Qed.

Lemma calls_only_supabase (P : query → Prop) (q : query) :
  P q → calls_only P (supabase q).
Proof.
  intros Hq. unfold supabase, await. constructor; [done|].
  intros [v | e]; cbn; [|constructor].
  apply calls_only_bind; [apply calls_only_lift|]. intros d.
  apply calls_only_bind; [apply calls_only_lift|]. intros e. constructor.
Qed.

Lemma calls_only_clone_loop (P : query → Prop) nc tasks idMap :
  (∀ q, table q = "tasks" → P q) →
  calls_only P (clone_loop nc tasks idMap).
Proof.
  intros HP. revert idMap. induction tasks as [| task rest IH]; intros idMap.
  - constructor.
  - cbn [clone_loop].
    apply calls_only_bind; [apply calls_only_lift|]. intros cid.
    apply calls_only_bind; [apply calls_only_lift|]. intros _.
    apply calls_only_bind; [apply calls_only_supabase; by apply HP|].
    intros [newTask nTError]. apply IH.
Qed.

Lemma calls_only_clone_tasks (P : query → Prop) request nc :
  (∀ q, table q = "tasks" → P q) →
  calls_only P (clone_tasks request nc).
Proof.
  intros HP. unfold clone_tasks.
  apply calls_only_bind; [by apply calls_only_supabase, HP|].
  intros [tasks tasksError]. destruct (truthy tasksError); [constructor|].
  apply calls_only_bind; [apply calls_only_lift|]. intros items.
  apply calls_only_bind; [|intros; constructor].
  by apply calls_only_clone_loop.
Qed.

Lemma calls_only_accept_branch (P : query → Prop) request :
  (∀ q, table q = "tasks" ∨ table q = "checklists" → P q) →
  calls_only P (accept_branch request).
Proof.
  intros HP. unfold accept_branch.
  apply calls_only_bind; [apply calls_only_supabase, HP; by right|].
  intros [cl clError]. destruct (truthy clError); [constructor|].
  apply calls_only_bind; [apply calls_only_lift|]. intros title.
  apply calls_only_bind; [apply calls_only_supabase, HP; by right|].
  intros [newCl newClError]. destruct (truthy newClError); [constructor|].
  apply calls_only_clone_tasks. intros q Hq. apply HP. by left.
Qed.

(** ** The reference database *)

Lemma rows_with_table s t l t' :
  rows (with_table s t l) t' = if decide (t = t') then l else rows s t'.
Proof.
  unfold rows, with_table. cbn. rewrite lookup_insert.
  by destruct (decide (t = t')).
Qed.

Lemma rows_with_table_eq s t l : rows (with_table s t l) t = l.
Proof. rewrite rows_with_table. by destruct (decide (t = t)). Qed.

Lemma rows_with_table_ne s t l t' :
  t ≠ t' → rows (with_table s t l) t' = rows s t'.
Proof. intros. rewrite rows_with_table. by destruct (decide (t = t')). Qed.

Lemma rows_ticked s t : rows (ticked s) t = rows s t.
Proof. done. Qed.

Lemma rows_without_fault s t : rows (without_fault s) t = rows s t.
Proof. done. Qed.

(** A call leaves every other table as it was. *)
Lemma execute_frame q s t :
  table q ≠ t → rows (execute q s).2 t = rows s t.
Proof.
  intros Hne. unfold execute.
  destruct (assoc (table q) schema) as [cols|]; [|done].
  destruct (action q) as [| l | c |]; cbn.
  - done.
  - destruct l as [| [] [|]]; try done.
    destruct (known_columns cols fields); [|done].
    match goal with
    | |- context [shaped ?a ?b ?c] => destruct (shaped a b c)
    end; [|done].
    cbn. by rewrite rows_ticked, rows_with_table_ne.
  - destruct c; try done.
    destruct (known_columns cols (written fields)); [|done].
    match goal with
    | |- context [shaped ?a ?b ?c] => destruct (shaped a b c)
    end; [|done].
    cbn. by rewrite rows_with_table_ne.
  - destruct (shaped s q _); [|done]. cbn. by rewrite rows_with_table_ne.
Qed.

Lemma answer_frame eff s t :
  (∀ q, eff = Db q → table q ≠ t) →
  rows (answer eff s).2 t = rows s t.
Proof.
  intros Hq. destruct eff as [q | | |]; try done. cbn.
  destruct (next_fault s) as [[c m]|]; [done|].
  specialize (Hq q eq_refl).
  pose proof (execute_frame q (without_fault s) t Hq) as Hf.
  destruct (execute q (without_fault s)) as [r s1]. by cbn in *.
Qed.

(** A program that never calls on table [t] leaves its rows as they were. *)
Lemma run_frame {A} (p : prog A) (s : store) (t : string) :
  calls_only (λ q, table q ≠ t) p →
  rows (state_after p s) t = rows s t.
Proof.
  intros Hp. revert s. unfold state_after.
  induction Hp as [a | e | q k Hq Hk IH | r k Hk IH | x y k Hk IH | x y k Hk IH];
    intros s; cbn [run]; try done.
  all: match goal with
       | |- context [answer ?eff ?s0] =>
           pose proof (answer_frame eff s0 t) as Hf;
           destruct (answer eff s0) as [r1 s1] eqn:Ha;
           specialize (IH r1 s1); destruct (run (k r1) s1) as [[o s2] tr];
           cbn in *; rewrite IH; apply Hf
       end.
  all: try (intros q' [= <-]; done); intros q' [=].
Qed.


Lemma mapM_project_star s t (l : list obj) :
  mapM (project s t Star) l = Some l.
Proof. induction l as [| r l IH]; [done|]. cbn. by rewrite IH. Qed.

Lemma shaped_single_star s q l :
  returning q = Some Star → is_single q = true →
  shaped s q l = match l with [r] => inl (VObj r) | _ => inr not_single end.
Proof.
  intros Hr Hs. unfold shaped. rewrite Hr, Hs. cbn.
  rewrite mapM_project_star. by destruct (action q).
Qed.

Lemma shaped_many_star s q l :
  returning q = Some Star → is_single q = false →
  shaped s q l = inl (VArr (VObj <$> l)).
Proof.
  intros Hr Hs. unfold shaped. rewrite Hr, Hs. cbn.
  rewrite mapM_project_star. by destruct (action q).
Qed.

Lemma hits_one_filter s q c v :
  filters q = [(c, v)] →
  hits s q = List.filter (λ r, matches r (c, v)) (rows s (table q)).
Proof.
  intros Hf. unfold hits. rewrite Hf. apply List.filter_ext.
  intros r. cbn. by rewrite andb_true_r.
Qed.

Lemma run_supabase_memory {A} q (k : value * value → prog A) (s : store) :
  run (supabase q ≫= k) s =
    let '(o, s2, t) := run (k (destructured (db_step q s).1)) (db_step q s).2 in
    (o, s2, (Db q, settle (db_step q s).1) :: t).
Proof.
  rewrite run_bind. unfold supabase, await, db_step. cbn.
  destruct (next_fault s) as [[c m]|]; cbn.
  - by destruct (run (k _) _) as [[o s2] t].
  - destruct (execute q (without_fault s)) as [[d | e] s1]; cbn;
      by destruct (run (k _) _) as [[o s2] t].
Qed.

(** ** Responding to a share request *)

Lemma lookup_request_step s id :
  db_step (lookup_request id) s =
    (match next_fault s with
     | Some (c, m) => inr (pg_error c m)
     | None => match requests_with_id s id with
               | [r] => inl (VObj r)
               | _ => inr not_single
               end
     end, without_fault s).
Proof.
  unfold db_step. destruct (next_fault s) as [[c m]|]; [done|].
  unfold execute. cbn.
  rewrite shaped_single_star by done.
  by rewrite (hits_one_filter _ _ "id" (VStr id)) by done.
Qed.

Lemma mark_request_step s id st :
  next_fault s = None →
  db_step (mark_request id st) s =
    (inl VNull,
     with_table (without_fault s) "share_requests"
       (marked id st (rows s "share_requests"))).
Proof.
  intros Hnf. unfold db_step. rewrite Hnf. unfold execute. cbn.
  change (written [("status", VStr st)]) with [("status", VStr st)].
  change (known_columns _ [("status", VStr st)]) with true. cbn.
  unfold shaped. cbn. f_equal. f_equal. unfold marked.
  apply list_fmap_ext. intros _ r _. cbn. by rewrite andb_true_r.
Qed.

Lemma field_apply_changes k ch r :
  field k (apply_changes ch r) =
    if has_field k r
    then (if has_field k ch then field k ch else field k r)
    else VUndefined.
Proof.
  unfold apply_changes, has_field.
  induction r as [| [k' v'] r IH]; [done|]. cbn.
  destruct (String.eqb_spec k k') as [-> |]; [done|]. by rewrite IH.
Qed.

Lemma field_has_field k r : field k r ≠ VUndefined → has_field k r = true.
Proof.
  unfold has_field. induction r as [| [k' v'] r IH]; [done|]. cbn.
  destruct (String.eqb k k'); [done|]. apply IH.
Qed.

Lemma not_has_field k r : has_field k r = false → field k r = VUndefined.
Proof.
  unfold has_field. induction r as [| [k' v'] r IH]; [done|]. cbn.
  destruct (String.eqb k k'); [done|]. apply IH.
Qed.

Lemma matches_marked (st : string) (v : value) (r : obj) :
  matches (apply_changes [("status", VStr st)] r) ("id", v)
  = matches r ("id", v).
Proof.
  unfold matches. cbn. rewrite field_apply_changes. cbn.
  destruct (has_field "id" r) eqn:Hh; [done|]. by rewrite not_has_field.
Qed.

Lemma requests_with_id_marked (s : store) (id st id' : string) :
  List.filter (λ r, matches r ("id", VStr id'))
    (marked id st (rows s "share_requests"))
  = marked id st (requests_with_id s id').
Proof.
  unfold requests_with_id, marked.
  induction (rows s "share_requests") as [| r l IH]; [done|]. cbn.
  assert (matches (if matches r ("id", VStr id)
                   then apply_changes [("status", VStr st)] r else r)
            ("id", VStr id') = matches r ("id", VStr id')) as ->.
  { destruct (matches r ("id", VStr id)); [apply matches_marked | done]. }
  destruct (matches r ("id", VStr id')); cbn; by rewrite IH.
Qed.

Lemma calm_next n s : calm (S n) s = true → next_fault s = None.
Proof.
  unfold calm, next_fault. destruct (faults s) as [| [f|] l]; cbn; try done.
Qed.

Lemma calm_without_fault n s :
  calm (S n) s = true → calm n (without_fault s) = true.
Proof.
  unfold calm. cbn. destruct (faults s) as [| f l]; cbn.
  - by destruct n.
  - by intros [_ ?]%andb_prop.
Qed.

Lemma respond_invalid_action req :
  includes ["accept"; "reject"] (field "action" (body req)) = false →
  post_share_request_respond req
  = Ret (json 400 (error_body (VStr "Invalid action"))).
Proof. intros Hinc. unfold post_share_request_respond. by rewrite Hinc. Qed.

Lemma respond_not_found s req :
  includes ["accept"; "reject"] (field "action" (body req)) = true →
  next_fault s ≠ None ∨ (∀ r, requests_with_id s (params_id req) ≠ [r]) →
  result_of (post_share_request_respond req) s
  = Returned (json 404 (error_body (VStr "Request not found")))
  ∧ state_after (post_share_request_respond req) s = without_fault s
  ∧ calls_of (post_share_request_respond req) s
    = [Db (lookup_request (params_id req))].
Proof.
  intros Hinc Hnone. unfold result_of, state_after, calls_of.
  unfold post_share_request_respond. rewrite Hinc. cbn [negb].
  rewrite (run_supabase_memory (lookup_request (params_id req))).
  rewrite lookup_request_step. cbn [fst snd].
  destruct (next_fault s) as [[c m]|]; [done|].
  destruct Hnone as [? | Hnone]; [done|].
  destruct (requests_with_id s (params_id req)) as [| r [|]]; try done.
  by destruct (Hnone r).
Qed.

Lemma respond_not_pending s req r :
  includes ["accept"; "reject"] (field "action" (body req)) = true →
  next_fault s = None →
  requests_with_id s (params_id req) = [r] →
  strict_eq_str (field "status" r) "pending" = false →
  result_of (post_share_request_respond req) s
  = Returned (json 400 (error_body (VStr "Request already processed")))
  ∧ state_after (post_share_request_respond req) s = without_fault s
  ∧ calls_of (post_share_request_respond req) s
    = [Db (lookup_request (params_id req))].
Proof.
  intros Hinc Hnf Hr Hst. unfold result_of, state_after, calls_of.
  unfold post_share_request_respond. rewrite Hinc. cbn [negb].
  rewrite (run_supabase_memory (lookup_request (params_id req))).
  rewrite lookup_request_step. cbn [fst snd]. rewrite Hnf, Hr. cbn.
  by rewrite Hst.
Qed.

(** Whatever the request says, a stored request that is not pending is left
    alone and the caller gets a client error. *)
Lemma respond_settled s req r :
  requests_with_id s (params_id req) = [r] →
  strict_eq_str (field "status" r) "pending" = false →
  (∃ code msg,
     result_of (post_share_request_respond req) s
     = Returned (json code (error_body (VStr msg)))
     ∧ (code = 400 ∨ code = 404))
  ∧ tables (state_after (post_share_request_respond req) s) = tables s.
Proof.
  intros Hr Hst.
  destruct (includes ["accept"; "reject"] (field "action" (body req))) eqn:Hinc.
  - destruct (next_fault s) as [f|] eqn:Hnf.
    + destruct (respond_not_found s req Hinc) as (-> & Hs & _).
      { left. by rewrite Hnf. }
      rewrite Hs. split; [|done]. eauto 6.
    + destruct (respond_not_pending s req r Hinc Hnf Hr Hst) as (-> & Hs & _).
      rewrite Hs. split; [|done]. eauto 6.
  - unfold result_of, state_after. rewrite respond_invalid_action by done.
    split; [|done]. cbn. eauto 6.
Qed.

Lemma respond_pending s req r :
  includes ["accept"; "reject"] (field "action" (body req)) = true →
  calm 2 s = true →
  requests_with_id s (params_id req) = [r] →
  strict_eq_str (field "status" r) "pending" = true →
  let status := if strict_eq_str (field "action" (body req)) "accept"
                then "accepted" else "rejected" in
  rows (state_after (post_share_request_respond req) s) "share_requests"
  = marked (params_id req) status (rows s "share_requests").
Proof.
  intros Hinc Hcalm Hr Hst status.
  pose proof (calm_next _ _ Hcalm) as Hnf.
  pose proof (calm_next _ _ (calm_without_fault _ _ Hcalm)) as Hnf'.
  unfold state_after, post_share_request_respond. rewrite Hinc. cbn [negb].
  rewrite (run_supabase_memory (lookup_request (params_id req))).
  rewrite lookup_request_step. cbn [fst snd]. rewrite Hnf, Hr.
  cbn [destructured truthy orb negb member]. rewrite Hst. cbn [negb].
  rewrite (run_supabase_memory (mark_request (params_id req) status)).
  rewrite mark_request_step by done. cbn [fst snd destructured truthy].
  set (s2 := with_table _ _ _).
  destruct (strict_eq_str (field "action" (body req)) "accept").
  - pose proof (run_frame (accept_branch (VObj r)) s2 "share_requests") as Hf.
    unfold state_after in Hf.
    destruct (run (accept_branch (VObj r)) s2) as [[o s3] t].
    cbn [fst snd] in *.
    rewrite Hf; [by unfold s2; rewrite rows_with_table_eq|].
    apply calls_only_accept_branch. by intros q [-> | ->].
  - cbn -[rows with_table]. unfold s2. by rewrite rows_with_table_eq.
Qed.

Lemma requests_with_id_matches s id r :
  requests_with_id s id = [r] → matches r ("id", VStr id) = true.
Proof.
  intros Hr.
  assert (List.In r (requests_with_id s id)) as Hin by (rewrite Hr; by left).
  by apply List.filter_In in Hin as [_ ?].
Qed.

Lemma respond_marks s req r :
  includes ["accept"; "reject"] (field "action" (body req)) = true →
  calm 2 s = true →
  requests_with_id s (params_id req) = [r] →
  strict_eq_str (field "status" r) "pending" = true →
  ∃ r',
    requests_with_id (state_after (post_share_request_respond req) s)
      (params_id req) = [r']
    ∧ field "status" r'
      = VStr (if strict_eq_str (field "action" (body req)) "accept"
              then "accepted" else "rejected").
Proof.
  intros Hinc Hcalm Hr Hst.
  pose proof (respond_pending s req r Hinc Hcalm Hr Hst) as Hrows.
  cbv zeta in Hrows.
  set (p := post_share_request_respond req) in *.
  set (status := if strict_eq_str _ "accept" then _ else _) in *.
  exists (apply_changes [("status", VStr status)] r). split.
  - unfold requests_with_id at 1. rewrite Hrows.
    rewrite requests_with_id_marked, Hr. unfold marked. cbn.
    by rewrite (requests_with_id_matches s _ r Hr).
  - rewrite field_apply_changes. cbn.
    rewrite field_has_field; [done|].
    destruct (field "status" r); done.
Qed.

(** ** Responds in flight together *)

Lemma answer_db q (s : store) :
  answer (Db q) s = (settle (db_step q s).1, (db_step q s).2).
Proof.
  unfold db_step. cbn. destruct (next_fault s) as [[c m]|]; [done|].
  by destruct (execute q (without_fault s)).
Qed.

Lemma advance_supabase {A} q (k : value * value → prog A) (s : store) :
  advance (supabase q ≫= k) s
  = (k (destructured (db_step q s).1), (db_step q s).2).
Proof.
  unfold supabase, await. cbn [mbind prog_mbind prog_bind advance].
  rewrite answer_db. by destruct (db_step q s) as [[d | e] s1].
Qed.

Lemma run_await_step {A} eff (k : settled → prog A) (s : store) :
  result_of (Await eff k) s = result_of (k (answer eff s).1) (answer eff s).2
  ∧ state_after (Await eff k) s
    = state_after (k (answer eff s).1) (answer eff s).2.
Proof.
  unfold result_of, state_after. cbn [run].
  destruct (answer eff s) as [r s1]. cbn [fst snd].
  by destruct (run (k r) s1) as [[o s2] t].
Qed.

(** A database that never fails: nothing is scheduled, now or later. *)
Lemma faults_execute q s : faults (execute q s).2 = faults s.
Proof.
  unfold execute. destruct (assoc (table q) schema) as [cols|]; [|done].
  destruct (action q) as [| l | c |]; cbn; try done.
  - destruct l as [| [] [|]]; try done.
    destruct (known_columns cols fields); [|done].
    match goal with
    | |- context [shaped ?a ?b ?c] => destruct (shaped a b c)
    end; done.
  - destruct c; try done.
    destruct (known_columns cols (written fields)); [|done].
    match goal with
    | |- context [shaped ?a ?b ?c] => destruct (shaped a b c)
    end; done.
  - match goal with
    | |- context [shaped ?a ?b ?c] => destruct (shaped a b c)
    end; done.
Qed.

Lemma quiet_answer eff (s : store) :
  faults s = [] → faults (answer eff s).2 = [].
Proof.
  intros Hq. destruct eff as [q | | |]; try done. cbn.
  unfold next_fault. rewrite Hq.
  pose proof (faults_execute q (without_fault s)) as Hf.
  destruct (execute q (without_fault s)) as [r s1]. cbn in *.
  rewrite Hf. unfold without_fault. cbn. by rewrite Hq.
Qed.

Lemma quiet_run {A} (p : prog A) (s : store) :
  faults s = [] → faults (state_after p s) = [].
Proof.
  revert s. induction p as [a | e | eff k IH]; intros s Hq; [done | done |].
  rewrite (proj2 (run_await_step eff k s)). apply IH. by apply quiet_answer.
Qed.

Lemma quiet_store (s : store) : faults s = [] → without_fault s = s.
Proof. destruct s. cbn. by intros ->. Qed.

Lemma quiet_next_fault (s : store) : faults s = [] → next_fault s = None.
Proof. unfold next_fault. by intros ->. Qed.

(** What a respond finds once the request is settled. *)
Lemma respond_after_settled s again r :
  faults s = [] →
  requests_with_id s (params_id again) = [r] →
  strict_eq_str (field "status" r) "pending" = false →
  ∃ msg,
    result_of (post_share_request_respond again) s
    = Returned (json 400 (error_body (VStr msg)))
    ∧ state_after (post_share_request_respond again) s = s
    ∧ advance (post_share_request_respond again) s
      = (Ret (json 400 (error_body (VStr msg))), s).
Proof.
  intros Hq Hr Hst.
  destruct (includes ["accept"; "reject"] (field "action" (body again)))
    eqn:Hinc.
  - exists "Request already processed".
    destruct (respond_not_pending s again r Hinc (quiet_next_fault s Hq)
                Hr Hst) as (-> & -> & _).
    rewrite quiet_store by done. split; [done|]. split; [done|].
    unfold post_share_request_respond. rewrite Hinc. cbn [negb].
    rewrite (advance_supabase (lookup_request (params_id again))).
    rewrite lookup_request_step, quiet_next_fault, Hr, quiet_store by done.
    cbn [fst snd destructured truthy orb negb member]. by rewrite Hst.
  - exists "Invalid action". rewrite respond_invalid_action by done. done.
Qed.

(** Once the request is settled, a respond to it is answered 400 and
    changes nothing, at whatever turns it runs among the calls of a program
    that leaves the share requests alone. *)
Lemma interleaved_settled (turns : list bool) (p q : prog response)
    (s : store) (again : request) (r : obj) :
  faults s = [] →
  calls_only (λ c, table c ≠ "share_requests") p →
  requests_with_id s (params_id again) = [r] →
  strict_eq_str (field "status" r) "pending" = false →
  q = post_share_request_respond again
  ∨ (∃ msg, q = Ret (json 400 (error_body (VStr msg)))) →
  ∃ msg,
    interleaved turns p q s
    = (result_of p s, Returned (json 400 (error_body (VStr msg))),
       state_after p s).
Proof.
  revert p q s. induction turns as [| first rest IH];
    intros p q s Hq Hp Hr Hst Hsecond.
  - cbn [interleaved]. unfold result_of, state_after.
    pose proof (quiet_run p s Hq) as Hq1.
    pose proof (run_frame p s "share_requests" Hp) as Hrows.
    unfold state_after in Hq1, Hrows.
    destruct (run p s) as [[o1 s1] t1]. cbn [fst snd] in *.
    assert (requests_with_id s1 (params_id again) = [r]) as Hr1
      by (unfold requests_with_id in *; by rewrite Hrows).
    destruct Hsecond as [-> | [msg ->]].
    + destruct (respond_after_settled s1 again r Hq1 Hr1 Hst)
        as (msg & Hres & Hstate & _).
      exists msg. unfold result_of, state_after in Hres, Hstate.
      destruct (run (post_share_request_respond again) s1) as [[o2 s2] t2].
      cbn [fst snd] in *. by subst.
    + by exists msg.
  - cbn [interleaved]. destruct first.
    + destruct p as [a | e | eff k]; cbn [advance]; [by apply IH ..|].
      destruct (run_await_step eff k s) as [-> ->].
      pose proof (quiet_answer eff s Hq) as Hq1.
      assert (rows (answer eff s).2 "share_requests"
              = rows s "share_requests") as Hrows.
      { apply answer_frame. intros c ->. by inversion Hp. }
      assert (calls_only (λ c, table c ≠ "share_requests")
                (k (answer eff s).1)) as Hk.
      { inversion Hp; subst;
          repeat match goal with
                 | H : existT _ _ = existT _ _ |- _ =>
                     apply Eqdep_dec.inj_pair2_eq_dec in H;
                     [subst | decide equality]
                 end; auto. }
      destruct (answer eff s) as [r1 s1]. cbn [fst snd] in *.
      apply IH; try done.
      unfold requests_with_id in *. by rewrite Hrows.
    + destruct Hsecond as [-> | [msg ->]].
      * destruct (respond_after_settled s again r Hq Hr Hst)
          as (msg & _ & _ & ->).
        apply IH; try done. right. by exists msg.
      * cbn [advance]. apply IH; try done. right. by exists msg.
Qed.

Lemma run_advance {A} (p : prog A) (s : store) :
  result_of p s = result_of (advance p s).1 (advance p s).2
  ∧ state_after p s = state_after (advance p s).1 (advance p s).2.
Proof.
  destruct p as [a | e | eff k]; [done | done |]. cbn [advance].
  pose proof (run_await_step eff k s) as Hstep.
  by destruct (answer eff s) as [r1 s1].
Qed.

(** The first two calls of a respond to a pending request, on a database
    that does not fail. *)
Lemma respond_two_turns s req r :
  includes ["accept"; "reject"] (field "action" (body req)) = true →
  faults s = [] →
  requests_with_id s (params_id req) = [r] →
  strict_eq_str (field "status" r) "pending" = true →
  let accept := strict_eq_str (field "action" (body req)) "accept" in
  let status := if accept then "accepted" else "rejected" in
  ∃ p1,
    advance (post_share_request_respond req) s = (p1, s)
    ∧ advance p1 s
      = (if accept then accept_branch (VObj r)
         else Ret (json 200 (message_body "Rejected share request")),
         with_table s "share_requests"
           (marked (params_id req) status (rows s "share_requests"))).
Proof.
  intros Hinc Hq Hr Hst accept status. subst accept status.
  unfold post_share_request_respond. rewrite Hinc. cbn [negb].
  eexists. split.
  - rewrite (advance_supabase (lookup_request (params_id req))).
    rewrite lookup_request_step, quiet_next_fault, Hr, quiet_store by done.
    cbn [fst snd destructured truthy orb negb member]. rewrite Hst.
    cbn [negb]. reflexivity.
  - match goal with
    | |- context [supabase ?q ≫= _] => rewrite (advance_supabase q)
    end.
    match goal with
    | |- context [db_step ?q s] =>
        change q with
          (mark_request (params_id req)
             (if strict_eq_str (field "action" (body req)) "accept"
              then "accepted" else "rejected"))
    end.
    rewrite mark_request_step by (by apply quiet_next_fault).
    rewrite quiet_store by done.
    cbn [fst snd destructured truthy]. reflexivity.
Qed.

(** C3, as the code has it: the respond handler changes a share request at
    most once as long as no other respond looks the request up between a
    respond's lookup and its status update.  An unknown request is answered
    404 and a request that is not pending 400, in both cases after the
    lookup alone and with every table as it was; a pending request is marked
    accepted or rejected, no other request is touched, and any later respond
    on the same id is answered with a client error and changes no table.  On
    a database that does not fail the same holds of a respond that starts
    once the first has made its status update, at whatever turns the two
    then run: it is answered 400 and the outcome and the final state are
    those of the first respond alone. *)
Theorem respond_fires_at_most_once (s : store) (req : request) :
  let p := post_share_request_respond req in
  let action := field "action" (body req) in
  includes ["accept"; "reject"] action = true →
  (next_fault s ≠ None ∨ (∀ r, requests_with_id s (params_id req) ≠ [r]) →
   result_of p s = Returned (json 404 (error_body (VStr "Request not found")))
   ∧ tables (state_after p s) = tables s
   ∧ calls_of p s = [Db (lookup_request (params_id req))])
  ∧ (∀ r,
       next_fault s = None →
       requests_with_id s (params_id req) = [r] →
       strict_eq_str (field "status" r) "pending" = false →
       result_of p s
       = Returned (json 400 (error_body (VStr "Request already processed")))
       ∧ tables (state_after p s) = tables s
       ∧ calls_of p s = [Db (lookup_request (params_id req))])
  ∧ (∀ r,
       calm 2 s = true →
       requests_with_id s (params_id req) = [r] →
       strict_eq_str (field "status" r) "pending" = true →
       let status := if strict_eq_str action "accept"
                     then "accepted" else "rejected" in
       ∃ r',
         rows (state_after p s) "share_requests"
         = marked (params_id req) status (rows s "share_requests")
         ∧ requests_with_id (state_after p s) (params_id req) = [r']
         ∧ field "status" r' = VStr status
         ∧ ∀ again : request,
             params_id again = params_id req →
             let p' := post_share_request_respond again in
             (∃ code msg,
                result_of p' (state_after p s)
                = Returned (json code (error_body (VStr msg)))
                ∧ (code = 400 ∨ code = 404))
             ∧ tables (state_after p' (state_after p s))
               = tables (state_after p s))
  ∧ (∀ r (again : request) (turns : list bool),
       faults s = [] →
       requests_with_id s (params_id req) = [r] →
       strict_eq_str (field "status" r) "pending" = true →
       params_id again = params_id req →
       ∃ msg,
         interleaved (true :: true :: turns) p
           (post_share_request_respond again) s
         = (result_of p s,
            Returned (json 400 (error_body (VStr msg))),
            state_after p s)).
Proof.
  cbv zeta. intros Hinc. split; [|split; [|split]].
  - intros Hnone.
    destruct (respond_not_found s req Hinc Hnone) as (-> & -> & ->). done.
  - intros r Hnf Hr Hst.
    destruct (respond_not_pending s req r Hinc Hnf Hr Hst) as (-> & -> & ->).
    done.
  - intros r Hcalm Hr Hst.
    destruct (respond_marks s req r Hinc Hcalm Hr Hst) as (r' & Hr' & Hst').
    exists r'. split; [by apply (respond_pending s req r)|]. split; [done|].
    split; [done|]. intros again Hid.
    apply (respond_settled _ again r'); [congruence|].
    rewrite Hst'. by destruct (strict_eq_str _ "accept").
  - intros r again turns Hq Hr Hst Hid.
    destruct (respond_two_turns s req r Hinc Hq Hr Hst) as (p1 & H1 & H2).
    cbv zeta in H2.
    destruct (run_advance (post_share_request_respond req) s) as [-> ->].
    cbn [interleaved]. rewrite H1. cbn [fst snd].
    destruct (run_advance p1 s) as [-> ->]. rewrite H2. cbn [fst snd].
    set (status := if strict_eq_str _ "accept" then "accepted"
                   else "rejected").
    apply (interleaved_settled turns _ _ _ again
             (apply_changes [("status", VStr status)] r)).
    + done.
    + destruct (strict_eq_str (field "action" (body req)) "accept");
        [|constructor].
      apply calls_only_accept_branch. by intros c [-> | ->].
    + unfold requests_with_id. rewrite rows_with_table_eq.
      rewrite requests_with_id_marked, Hid, Hr. unfold marked. cbn.
      by rewrite (requests_with_id_matches s _ r Hr).
    + rewrite field_apply_changes. cbn.
      rewrite field_has_field by (by destruct (field "status" r)).
      unfold status. by destruct (strict_eq_str _ "accept").
    + by left.
Qed.

Lemma respond_fires_at_most_once_witness :
  (∃ r',
     rows (state_after (post_share_request_respond accept_trip) trip_store)
       "share_requests"
     = marked "4" "accepted" (rows trip_store "share_requests")
     ∧ requests_with_id
         (state_after (post_share_request_respond accept_trip) trip_store) "4"
       = [r']
     ∧ field "status" r' = VStr "accepted"
     ∧ ∀ again : request,
         params_id again = "4" →
         (∃ code msg,
            result_of (post_share_request_respond again)
              (state_after (post_share_request_respond accept_trip) trip_store)
            = Returned (json code (error_body (VStr msg)))
            ∧ (code = 400 ∨ code = 404))
         ∧ tables (state_after (post_share_request_respond again)
                     (state_after (post_share_request_respond accept_trip)
                        trip_store))
           = tables (state_after (post_share_request_respond accept_trip)
                       trip_store))
  ∧ (∃ msg,
       interleaved [true; true; true; false; true; true]
         (post_share_request_respond accept_trip)
         (post_share_request_respond accept_trip) trip_store
       = (result_of (post_share_request_respond accept_trip) trip_store,
          Returned (json 400 (error_body (VStr msg))),
          state_after (post_share_request_respond accept_trip) trip_store)).
Proof.
  split.
  - apply (proj1 (proj2 (proj2 (respond_fires_at_most_once trip_store
                                  accept_trip eq_refl))) trip_request);
      reflexivity.
  - apply (proj2 (proj2 (proj2 (respond_fires_at_most_once trip_store
                                  accept_trip eq_refl))) trip_request
             accept_trip [true; false; true; true]);
      reflexivity.
Defined.

(** C3 as stated fails when two responds are in flight together: with both
    lookups made before either status update, both accepts find the request
    pending, both are answered 200, and the checklist and its two tasks are
    cloned twice. *)
Lemma overlapping_accepts_clone_twice :
  (interleaved [true; false]
     (post_share_request_respond accept_trip)
     (post_share_request_respond accept_trip) trip_store).1
  = (accepted_and_cloned, accepted_and_cloned)
  ∧ length (rows trip_store "checklists") = 1%nat
  ∧ length (rows trip_store "tasks") = 2%nat
  ∧ length (rows (interleaved [true; false]
                    (post_share_request_respond accept_trip)
                    (post_share_request_respond accept_trip) trip_store).2
              "checklists") = 3%nat
  ∧ length (rows (interleaved [true; false]
                    (post_share_request_respond accept_trip)
                    (post_share_request_respond accept_trip) trip_store).2
              "tasks") = 6%nat.
Proof. repeat split. Qed.

(** ** The accept branch against the reference database *)

Lemma fetch_checklist_step s id :
  db_step (fetch_checklist id) s =
    (match next_fault s with
     | Some (c, m) => inr (pg_error c m)
     | None => match checklists_with_id s id with
               | [r] => inl (VObj r)
               | _ => inr not_single
               end
     end, without_fault s).
Proof.
  unfold db_step. destruct (next_fault s) as [[c m]|]; [done|].
  unfold execute. cbn.
  rewrite shaped_single_star by done.
  by rewrite (hits_one_filter _ _ "id" id) by done.
Qed.

Lemma copy_checklist_step s owner title :
  next_fault s = None →
  db_step (copy_checklist owner title) s =
    (inl (VObj (copied_checklist s owner title)),
     with_copy s (copied_checklist s owner title)).
Proof.
  intros Hnf. unfold db_step. rewrite Hnf. unfold execute. cbn.
  change (known_columns _ _) with true. cbn.
  by rewrite shaped_single_star by done.
Qed.

Lemma fetch_tasks_step s id :
  db_step (fetch_tasks id) s =
    (match next_fault s with
     | Some (c, m) => inr (pg_error c m)
     | None => inl (VArr (VObj <$> tasks_of s id))
     end, without_fault s).
Proof.
  unfold db_step. destruct (next_fault s) as [[c m]|]; [done|].
  unfold execute. cbn.
  rewrite shaped_many_star by done.
  by rewrite (hits_one_filter _ _ "checklist_id" id) by done.
Qed.

Lemma bind_ret {A B} (a : A) (f : A → prog B) : Ret a ≫= f = f a.
Proof. done. Qed.

Lemma clone_tasks_fault s request nc c m :
  next_fault s = Some (c, m) →
  run (clone_tasks request nc) s =
    (Returned (json 500 (error_body (VStr m))), without_fault s,
     [(Db (fetch_tasks (member "checklist_id" request)),
       failed (pg_error c m))]).
Proof.
  intros Hnf. unfold clone_tasks.
  rewrite (run_supabase_memory (fetch_tasks (member "checklist_id" request))).
  rewrite fetch_tasks_step, Hnf. done.
Qed.

Lemma clone_tasks_calm s request nc :
  next_fault s = None →
  run (clone_tasks request nc) s =
    let rows := tasks_of s (member "checklist_id" request) in
    let '(o, s', t) := run (clone_loop nc (VObj <$> rows) ∅) (without_fault s) in
    (match o with
     | Returned _ =>
         Returned (json 200 (message_body "Accepted and cloned checklist"))
     | Uncaught e => Uncaught e
     end, s',
     (Db (fetch_tasks (member "checklist_id" request)),
      ok (VArr (VObj <$> rows))) :: t).
Proof.
  intros Hnf. unfold clone_tasks.
  rewrite (run_supabase_memory (fetch_tasks (member "checklist_id" request))).
  rewrite fetch_tasks_step, Hnf. cbn [fst snd destructured truthy].
  cbn [iterate lift]. rewrite run_bind. cbn [run app].
  rewrite run_bind.
  destruct (run (clone_loop _ _ _) _) as [[[m' | e] s'] t]; cbn;
    by rewrite ?app_nil_r.
Qed.

Lemma accept_branch_fetch_fails s r e :
  (∃ c m, next_fault s = Some (c, m) ∧ e = pg_error c m)
  ∨ (next_fault s = None
     ∧ (∀ c, checklists_with_id s (field "checklist_id" r) ≠ [c])
     ∧ e = not_single) →
  run (accept_branch (VObj r)) s =
    (Returned (json 500 (error_body (member "message" e))), without_fault s,
     [(Db (fetch_checklist (field "checklist_id" r)), failed e)]).
Proof.
  intros Hfail. unfold accept_branch.
  rewrite (run_supabase_memory (fetch_checklist (field "checklist_id" r))).
  rewrite fetch_checklist_step. cbn [fst snd].
  destruct Hfail as [(c & m & -> & ->) | (-> & Hnone & ->)]; [done|].
  destruct (checklists_with_id _ _) as [| c [|]]; try done.
  by destruct (Hnone c).
Qed.

Lemma accept_branch_calm s r c :
  calm 2 s = true →
  checklists_with_id s (field "checklist_id" r) = [c] →
  run (accept_branch (VObj r)) s =
    let new := copied_checklist (without_fault s)
                 (field "receiver_id" r) (field "title" c) in
    let '(o, s', t) :=
      run (clone_tasks (VObj r) (VObj new)) (with_copy (without_fault s) new) in
    (o, s',
     (Db (fetch_checklist (field "checklist_id" r)), ok (VObj c))
     :: (Db (copy_checklist (field "receiver_id" r) (field "title" c)),
         ok (VObj new))
     :: t).
Proof.
  intros Hcalm Hc.
  pose proof (calm_next _ _ Hcalm) as Hnf.
  pose proof (calm_next _ _ (calm_without_fault _ _ Hcalm)) as Hnf'.
  unfold accept_branch.
  rewrite (run_supabase_memory (fetch_checklist (field "checklist_id" r))).
  rewrite fetch_checklist_step. cbn [fst snd]. rewrite Hnf, Hc.
  cbn [destructured truthy get_prop lift member].
  rewrite bind_ret.
  rewrite (run_supabase_memory
             (copy_checklist (field "receiver_id" r) (field "title" c))).
  rewrite copy_checklist_step by done.
  cbn [fst snd destructured truthy].
  by destruct (run (clone_tasks _ _) _) as [[o s'] t].
Qed.

Lemma respond_accept_run s req r :
  strict_eq_str (field "action" (body req)) "accept" = true →
  calm 2 s = true →
  requests_with_id s (params_id req) = [r] →
  strict_eq_str (field "status" r) "pending" = true →
  run (post_share_request_respond req) s =
    let '(o, s', t) :=
      run (accept_branch (VObj r)) (with_mark s (params_id req) "accepted") in
    (o, s',
     (Db (lookup_request (params_id req)), ok (VObj r))
     :: (Db (mark_request (params_id req) "accepted"), ok VNull)
     :: t).
Proof.
  intros Hacc Hcalm Hr Hst.
  pose proof (calm_next _ _ Hcalm) as Hnf.
  pose proof (calm_next _ _ (calm_without_fault _ _ Hcalm)) as Hnf'.
  unfold post_share_request_respond.
  assert (includes ["accept"; "reject"] (field "action" (body req)) = true)
    as -> by (cbn; by rewrite Hacc).
  cbn [negb].
  rewrite (run_supabase_memory (lookup_request (params_id req))).
  rewrite lookup_request_step. cbn [fst snd]. rewrite Hnf, Hr.
  cbn [destructured truthy orb negb member]. rewrite Hst, Hacc. cbn [negb].
  rewrite (run_supabase_memory (mark_request (params_id req) "accepted")).
  rewrite mark_request_step by done. cbn [fst snd destructured truthy].
  change (with_table _ _ _) with (with_mark s (params_id req) "accepted").
  by destruct (run (accept_branch _) _) as [[o s'] t].
Qed.

Lemma faults_with_mark s id st : faults (with_mark s id st) = drop 2 (faults s).
Proof. cbn. by destruct (faults s) as [| ? [| ? ?]]. Qed.

Lemma faults_with_copy s row : faults (with_copy s row) = drop 1 (faults s).
Proof. cbn. by destruct (faults s). Qed.

Lemma next_fault_lookup s :
  next_fault s = mjoin (faults s !! 0%nat).
Proof. unfold next_fault. by destruct (faults s) as [| [f|] l]. Qed.

Lemma calm_lookup n s i :
  calm n s = true → (i < n)%nat → mjoin (faults s !! i) = None.
Proof.
  unfold calm. generalize (faults s). intros l. revert n i.
  induction l as [| f l IH]; intros n i Hc Hi; [done|].
  destruct n as [| n]; [lia|]. cbn in Hc. apply andb_prop in Hc as [Hf Hc].
  destruct i as [| i]; cbn.
  - by apply bool_decide_eq_true in Hf as ->.
  - apply (IH n); [done | lia].
Qed.

Lemma calm_with_mark n s id st :
  calm (2 + n) s = true → calm n (with_mark s id st) = true.
Proof. intros H. by do 2 apply calm_without_fault in H. Qed.

Lemma calm_with_copy n s row :
  calm (1 + n) s = true → calm n (with_copy s row) = true.
Proof. intros H. by apply calm_without_fault in H. Qed.

Lemma calm_le n m s : (n ≤ m)%nat → calm m s = true → calm n s = true.
Proof.
  unfold calm. generalize (faults s). intros l. revert n m.
  induction l as [| f l IH]; intros n m Hle Hc; [by destruct n|].
  destruct n as [| n]; [done|]. destruct m as [| m]; [lia|].
  cbn in *. apply andb_prop in Hc as [-> Hc]. cbn. apply (IH n m); [lia|done].
Qed.

Lemma checklists_with_mark s id st v :
  checklists_with_id (with_mark s id st) v = checklists_with_id s v.
Proof.
  unfold checklists_with_id, with_mark. by rewrite rows_with_table_ne.
Qed.

Lemma next_fault_with_mark s id st :
  next_fault (with_mark s id st) = mjoin (faults s !! 2%nat).
Proof.
  rewrite next_fault_lookup, faults_with_mark, lookup_drop. done.
Qed.

(** C10: an accepted request is marked before the cloner runs.  When the
    fetch of the source checklist or the fetch of its tasks then fails, the
    caller gets a 500 and the stored request is nevertheless accepted. *)
Theorem accepted_before_cloning (s : store) (req : request) (r : obj)
    (e : value) :
  strict_eq_str (field "action" (body req)) "accept" = true →
  calm 2 s = true →
  requests_with_id s (params_id req) = [r] →
  strict_eq_str (field "status" r) "pending" = true →
  (∃ c m, faults s !! 2%nat = Some (Some (c, m)) ∧ e = pg_error c m)
  ∨ (calm 3 s = true
     ∧ (∀ c, checklists_with_id s (field "checklist_id" r) ≠ [c])
     ∧ e = not_single)
  ∨ (∃ c code m,
       calm 4 s = true
       ∧ checklists_with_id s (field "checklist_id" r) = [c]
       ∧ faults s !! 4%nat = Some (Some (code, m))
       ∧ e = pg_error code m) →
  let p := post_share_request_respond req in
  result_of p s = Returned (json 500 (error_body (member "message" e)))
  ∧ (∃ rest,
       calls_of p s
       = Db (lookup_request (params_id req))
         :: Db (mark_request (params_id req) "accepted")
         :: Db (fetch_checklist (field "checklist_id" r))
         :: rest)
  ∧ ∃ r',
      requests_with_id (state_after p s) (params_id req) = [r']
      ∧ field "status" r' = VStr "accepted".
Proof.
  intros Hacc Hcalm Hr Hst Hfail p.
  assert (includes ["accept"; "reject"] (field "action" (body req)) = true)
    as Hinc by (cbn; by rewrite Hacc).
  split; [|split].
  3: { destruct (respond_marks s req r Hinc Hcalm Hr Hst) as (r' & ? & Hs).
       rewrite Hacc in Hs. eauto. }
  all: unfold result_of, calls_of, p;
       rewrite (respond_accept_run s req r) by done.
  all: set (s2 := with_mark s (params_id req) "accepted").
  all: destruct Hfail as [(c & m & Hf & ->) | [(Hc3 & Hnone & ->) |
                          (c & code & m & Hc4 & Hc & Hf & ->)]].
  all: try (rewrite (accept_branch_fetch_fails s2 r (pg_error c m));
            [cbn; eauto |
             left; exists c, m; split; [|done];
             unfold s2; by rewrite next_fault_with_mark, Hf]).
  all: try (rewrite (accept_branch_fetch_fails s2 r not_single);
            [cbn; eauto |
             right; split; [|split; [|done]];
             [ apply (calm_next 0), calm_with_mark, Hc3
             | intros c; unfold s2; rewrite checklists_with_mark; apply Hnone ]]).
  all: rewrite (accept_branch_calm s2 r c);
       [ | apply calm_with_mark, Hc4
         | unfold s2; by rewrite checklists_with_mark ].
  all: cbv zeta;
       rewrite (clone_tasks_fault _ _ _ code m);
       [cbn; eauto |].
  all: rewrite next_fault_lookup, faults_with_copy; cbn [faults without_fault];
       unfold s2; rewrite faults_with_mark.
  all: destruct (faults s) as [| f0 [| f1 [| f2 [| f3 l]]]]; try done.
  all: change (l !! 0%nat = Some (Some (code, m))) in Hf.
  all: change (drop 1 (tail (drop 2 (f0 :: f1 :: f2 :: f3 :: l)))) with l.
  all: by rewrite Hf.
Qed.

Lemma accepted_before_cloning_witness :
  result_of (post_share_request_respond accept_trip) trip_store_failing
  = Returned (json 500 (error_body (VStr "connection failure")))
  ∧ (∃ rest,
       calls_of (post_share_request_respond accept_trip) trip_store_failing
       = Db (lookup_request "4") :: Db (mark_request "4" "accepted")
         :: Db (fetch_checklist (VNum 1)) :: rest)
  ∧ ∃ r',
      requests_with_id
        (state_after (post_share_request_respond accept_trip)
           trip_store_failing) "4" = [r']
      ∧ field "status" r' = VStr "accepted".
Proof.
  apply (accepted_before_cloning trip_store_failing accept_trip trip_request
           (pg_error "08006" "connection failure")); try reflexivity.
  left. exists "08006", "connection failure". split; reflexivity.
Defined.

(** ** The clone loop against the reference database *)

Lemma clone_loop_fault nc cid (t : obj) T m s c msg :
  get_prop "id" nc = inl cid →
  next_fault s = Some (c, msg) →
  run (clone_loop nc (VObj t :: T) m) s =
    let '(o, s', tr) := run (clone_loop nc T m) (without_fault s) in
    (o, s',
     (Db (insert_task (newTaskData cid m (VObj t))), failed (pg_error c msg))
     :: tr).
Proof.
  intros Hid Hnf. cbn [clone_loop]. rewrite Hid. cbn [lift get_prop].
  rewrite !bind_ret.
  rewrite (run_supabase_memory (insert_task (newTaskData cid m (VObj t)))).
  unfold db_step. rewrite Hnf.
  cbn [fst snd destructured truthy negb andb pg_error].
  by destruct (run (clone_loop nc T m) _) as [[o s'] tr].
Qed.

Lemma clone_loop_calm nc cid (t : obj) T m s :
  get_prop "id" nc = inl cid →
  next_fault s = None →
  run (clone_loop nc (VObj t :: T) m) s =
    let row := copied_task s cid m t in
    let '(o, s', tr) :=
      run (clone_loop nc T (idMap_set m (field "id" t) (field "id" row)))
        (with_task s row) in
    (o, s',
     (Db (insert_task (newTaskData cid m (VObj t))), ok (VObj row)) :: tr).
Proof.
  intros Hid Hnf. cbn [clone_loop]. rewrite Hid. cbn [lift get_prop].
  rewrite !bind_ret.
  rewrite (run_supabase_memory (insert_task (newTaskData cid m (VObj t)))).
  unfold db_step. rewrite Hnf. unfold execute. cbn.
  change (known_columns _ _) with true. cbn.
  rewrite shaped_single_star by done.
  cbn [fst snd destructured truthy negb andb member].
  by destruct (run (clone_loop nc T _) _) as [[o s'] tr].
Qed.

Lemma faults_with_task s row : faults (with_task s row) = tail (faults s).
Proof. done. Qed.

Lemma fault_lookup_tail (l : list (option (string * string))) k :
  tail l !! k = l !! S k.
Proof. by destruct l. Qed.

(** What the loop does on the reference database: it never throws, every
    task is attempted, the tasks table grows by the rows of the inserts that
    went through, and each stored row is the copy built from the ids recorded
    so far. *)
Lemma clone_loop_memory nc cid :
  get_prop "id" nc = inl cid →
  ∀ (T : list obj) (m : gmap string value) (s : store),
  ∃ (res : list (option obj)) (s' : store) (tr : list (effect * settled)),
    run (clone_loop nc (VObj <$> T) m) s = (Returned (record_ids m T res), s', tr)
    ∧ length res = length T
    ∧ length tr = length T
    ∧ rows s' "tasks" = rows s "tasks" ++ omap id res
    ∧ (∀ k, res !! k = Some None
            ↔ (k < length T)%nat ∧ is_Some (mjoin (faults s !! k)))
    ∧ (∀ k tk nk,
         T !! k = Some tk → res !! k = Some (Some nk) →
         ∃ sk, nk = copied_task sk cid
                      (record_ids m (take k T) (take k res)) tk).
Proof.
  intros Hid T. induction T as [| t T IH]; intros m s.
  - exists [], s, []. cbn. split_and!; try done.
    + by rewrite app_nil_r.
    + intros k. split; [done|]. intros [? _]. lia.
  - cbn [fmap list_fmap].
    destruct (next_fault s) as [[c msg]|] eqn:Hnf.
    + rewrite (clone_loop_fault nc cid t _ m s c msg) by done.
      destruct (IH m (without_fault s))
        as (res & s' & tr & -> & Hlen & Hlen' & Hrows & Hfail & Hrow).
      exists (None :: res), s'. eexists. split; [reflexivity|]. cbn.
      rewrite Hlen, Hlen'. split_and!; try done.
      * intros k. split.
        -- intros Hk. destruct k as [| k]; cbn in *.
           { split; [lia|]. rewrite next_fault_lookup in Hnf.
             cbn in Hnf. by rewrite Hnf. }
           apply Hfail in Hk as [? Hk]. split; [lia|].
           by rewrite <- fault_lookup_tail.
        -- intros [Hk Hf]. destruct k as [| k]; [done|]. cbn.
           apply Hfail. split; [lia|]. cbn. by rewrite fault_lookup_tail.
      * intros [| k] tk nk; cbn; [done|]. apply Hrow.
    + rewrite (clone_loop_calm nc cid t _ m s) by done. cbv zeta.
      set (row := copied_task s cid m t).
      destruct (IH (idMap_set m (field "id" t) (field "id" row))
                  (with_task s row))
        as (res & s' & tr & -> & Hlen & Hlen' & Hrows & Hfail & Hrow).
      exists (Some row :: res), s'. eexists. split; [reflexivity|]. cbn.
      rewrite Hlen, Hlen'. split_and!; try done.
      * rewrite Hrows. unfold with_task.
        rewrite rows_ticked, rows_with_table_eq. by rewrite <- app_assoc.
      * intros k. split.
        -- intros Hk. destruct k as [| k]; cbn in *; [done|].
           apply Hfail in Hk as [? Hk]. split; [lia|].
           by rewrite ?faults_with_task, fault_lookup_tail in Hk.
        -- intros [Hk Hf]. destruct k as [| k]; cbn in *.
           { rewrite next_fault_lookup in Hnf. cbn in Hnf. rewrite Hnf in Hf.
             by destruct Hf. }
           apply Hfail. split; [lia|].
           by rewrite ?faults_with_task, fault_lookup_tail.
      * intros [| k] tk nk; cbn.
        { intros [= <-] [= <-]. by exists s. }
        apply Hrow.
Qed.

(** ** The ids the loop records *)


Lemma record_ids_other m T res key :
  key ∉ task_key <$> T → record_ids m T res !! key = m !! key.
Proof.
  revert m res. induction T as [| t T IH]; intros m res Hkey; [done|].
  apply not_elem_of_cons in Hkey as [Hne Hkey].
  destruct res as [| [row|] res]; [done | |]; cbn.
  - rewrite IH by done. unfold idMap_set. by rewrite lookup_insert_ne.
  - by rewrite IH.
Qed.

Lemma record_ids_recorded m T res j tj nj :
  NoDup (task_key <$> T) →
  T !! j = Some tj → res !! j = Some (Some nj) →
  record_ids m T res !! task_key tj = Some (field "id" nj).
Proof.
  revert m res j. induction T as [| t T IH]; intros m res j Hnd Ht Hr; [done|].
  apply NoDup_cons in Hnd as [Hfresh Hnd].
  destruct j as [| j]; cbn in Ht.
  - injection Ht as ->. destruct res as [| [row|] res]; try done.
    injection Hr as ->. cbn. rewrite record_ids_other by done.
    unfold idMap_set. by rewrite lookup_insert_eq.
  - destruct res as [| [row|] res]; [done | |]; cbn in *; by apply (IH _ _ j).
Qed.

Lemma record_ids_take_recorded T res j k tj nj :
  NoDup (task_key <$> T) →
  T !! j = Some tj → res !! j = Some (Some nj) → (j < k)%nat →
  record_ids ∅ (take k T) (take k res) !! task_key tj = Some (field "id" nj).
Proof.
  intros Hnd Ht Hr Hjk. apply (record_ids_recorded _ _ _ j).
  - rewrite fmap_take. eapply sublist_NoDup; [done|]. apply sublist_take.
  - by rewrite lookup_take_lt.
  - by rewrite lookup_take_lt.
Qed.


(** ** Ordering by creation time *)

Section insertion_sort.
Context {A : Type} (leb : A → A → bool).
Hypothesis leb_total : ∀ x y, leb x y = false → leb y x = true.
Hypothesis leb_trans :
  ∀ x y z, leb x y = true → leb y z = true → leb x z = true.

Lemma insert_by_HdRel x y l :
  below leb y x → HdRel (below leb) y l → HdRel (below leb) y (insert_by leb x l).
Proof.
  intros Hyx Hl. destruct l as [| z l]; cbn; [by constructor|].
  destruct (leb x z); constructor; [done|]. by inversion Hl.
Qed.

Lemma insert_by_Sorted x l :
  Sorted (below leb) l → Sorted (below leb) (insert_by leb x l).
Proof.
  induction 1 as [| y l Hl IH Hy]; cbn; [by repeat constructor|].
  destruct (leb x y) eqn:Hxy.
  - constructor; [by constructor | by constructor].
  - constructor; [done|]. apply insert_by_HdRel; [|done].
    by apply leb_total.
Qed.

Lemma sort_by_StronglySorted l : StronglySorted (below leb) (sort_by leb l).
Proof.
  assert (Transitive (below leb)) by (intros x y z; apply leb_trans).
  apply Sorted_StronglySorted; [done|].
  induction l as [| x l IH]; cbn; [constructor|].
  by apply insert_by_Sorted.
Qed.
End insertion_sort.

Lemma StronglySorted_lookup {A} (R : relation A) l i j x y :
  StronglySorted R l → l !! i = Some x → l !! j = Some y → (i < j)%nat →
  R x y.
Proof.
  intros Hs. revert i j. induction Hs as [| z l Hs IH Hz]; intros i j Hi Hj Hij;
    [done|].
  destruct j as [| j]; [lia|]. cbn in Hj.
  destruct i as [| i]; cbn in Hi.
  - injection Hi as ->. rewrite Forall_forall in Hz.
    apply Hz. by eapply list_elem_of_lookup_2.
  - apply (IH i j); [done | done | lia].
Qed.

Lemma cell_leb_total c x y : cell_leb c x y = false → cell_leb c y x = true.
Proof.
  unfold cell_leb. destruct (field c x), (field c y); try done.
  intros ?%Z.leb_gt. apply Z.leb_le. lia.
Qed.

Lemma cell_leb_trans c x y z :
  cell_leb c x y = true → cell_leb c y z = true → cell_leb c x z = true.
Proof.
  unfold cell_leb. destruct (field c x), (field c y), (field c z); try done.
  intros ?%Z.leb_le ?%Z.leb_le. apply Z.leb_le. lia.
Qed.

(** A task created strictly earlier is fetched earlier. *)
Lemma tasks_of_order s cid j k tj tk a b :
  tasks_of s cid !! j = Some tj → tasks_of s cid !! k = Some tk →
  field "created_at" tj = VNum a → field "created_at" tk = VNum b →
  a < b → (j < k)%nat.
Proof.
  intros Hj Hk Ha Hb Hab.
  pose proof (sort_by_StronglySorted (cell_leb "created_at")
                (cell_leb_total _) (cell_leb_trans _)
                (List.filter (λ r, matches r ("checklist_id", cid))
                   (rows s "tasks"))) as Hs.
  fold (tasks_of s cid) in Hs.
  destruct (decide (j < k)%nat) as [|Hge]; [done|].
  destruct (decide (j = k)) as [-> |].
  - rewrite Hj in Hk. injection Hk as ->. rewrite Ha in Hb.
    injection Hb as ->. lia.
  - assert (k < j)%nat as Hlt by lia.
    pose proof (StronglySorted_lookup _ _ _ _ _ _ Hs Hk Hj Hlt) as Hle.
    unfold below, cell_leb in Hle. rewrite Ha, Hb in Hle.
    apply Z.leb_le in Hle. lia.
Qed.

(** ** The whole accept path *)

(** The store in which the cloner starts copying tasks. *)
Lemma rows_before_loop s id st row t :
  t ≠ "checklists" → t ≠ "share_requests" →
  rows (without_fault (with_copy (without_fault (with_mark s id st)) row)) t
  = rows s t.
Proof.
  intros H1 H2. unfold with_copy, with_mark.
  rewrite rows_without_fault, rows_ticked.
  rewrite rows_with_table_ne, !rows_without_fault by done.
  by rewrite rows_with_table_ne.
Qed.

Lemma faults_before_loop s id st row :
  faults (without_fault (with_copy (without_fault (with_mark s id st)) row))
  = drop 5 (faults s).
Proof. cbn. by destruct (faults s) as [| ? [| ? [| ? [| ? [| ? ?]]]]]. Qed.

Lemma respond_accept_memory s req r c :
  strict_eq_str (field "action" (body req)) "accept" = true →
  requests_with_id s (params_id req) = [r] →
  strict_eq_str (field "status" r) "pending" = true →
  checklists_with_id s (field "checklist_id" r) = [c] →
  calm 5 s = true →
  let new := copied_checklist s (field "receiver_id" r) (field "title" c) in
  let T := tasks_of s (field "checklist_id" r) in
  ∃ (res : list (option obj)) (s' : store) (tr : list (effect * settled)),
    run (post_share_request_respond req) s =
      (Returned (json 200 (message_body "Accepted and cloned checklist")),
       s', tr)
    ∧ length res = length T
    ∧ length tr = (5 + length T)%nat
    ∧ rows s' "tasks" = rows s "tasks" ++ omap id res
    ∧ rows s' "checklists" = rows s "checklists" ++ [new]
    ∧ (∀ k, res !! k = Some None
            ↔ (k < length T)%nat ∧ is_Some (mjoin (faults s !! (5 + k)%nat)))
    ∧ (∀ k tk nk,
         T !! k = Some tk → res !! k = Some (Some nk) →
         ∃ sk, nk = copied_task sk (field "id" new)
                      (record_ids ∅ (take k T) (take k res)) tk).
Proof.
  intros Hacc Hr Hst Hc Hcalm new T.
  rewrite (respond_accept_run s req r) by
    first [done | apply (calm_le 2 5); [lia | done]].
  set (s2 := with_mark s (params_id req) "accepted").
  rewrite (accept_branch_calm s2 r c);
    [ | apply calm_with_mark; apply (calm_le 4 5); [lia | done]
      | unfold s2; by rewrite checklists_with_mark ].
  cbv zeta. change (copied_checklist (without_fault s2) _ _) with new.
  set (s4 := with_copy (without_fault s2) new).
  rewrite (clone_tasks_calm s4 (VObj r) (VObj new)).
  2: { apply (calm_next 0), calm_with_copy, calm_without_fault.
       apply calm_with_mark. done. }
  cbv zeta. cbn [member].
  assert (tasks_of s4 (field "checklist_id" r) = T) as ->.
  { unfold tasks_of, T. f_equal. f_equal. unfold s4, with_copy, s2, with_mark.
    rewrite rows_ticked, rows_with_table_ne, !rows_without_fault by done.
    by rewrite rows_with_table_ne. }
  destruct (clone_loop_memory (VObj new) (field "id" new) eq_refl T ∅
              (without_fault s4))
    as (res & s' & tr & Hrun & Hlen & Hlen' & Hrows & Hfail & Hrow).
  rewrite Hrun. exists res, s'. eexists. split; [reflexivity|].
  split_and!; try done.
  - cbn. by rewrite Hlen'.
  - rewrite Hrows. unfold s4, s2. by rewrite rows_before_loop.
  - pose proof (run_frame (clone_loop (VObj new) (VObj <$> T) ∅)
                  (without_fault s4) "checklists") as Hf.
    unfold state_after in Hf. rewrite Hrun in Hf. cbn [fst snd] in Hf.
    rewrite Hf by (by apply calls_only_clone_loop; intros q ->).
    unfold s4, with_copy. rewrite rows_without_fault, rows_ticked.
    rewrite rows_with_table_eq. unfold s2, with_mark.
    by rewrite rows_without_fault, rows_with_table_ne.
  - intros k. rewrite Hfail. unfold s4, s2.
    by rewrite faults_before_loop, lookup_drop.
Qed.

Lemma wire_primitive v : primitive v = true → wire v = v.
Proof. by destruct v. Qed.

Lemma all_inserted (res : list (option obj)) :
  (∀ k, res !! k ≠ Some None) → res = Some <$> omap id res.
Proof.
  induction res as [| [row|] res IH]; intros Hall; [done | |].
  - cbn. f_equal. apply IH. intros k. apply (Hall (S k)).
  - by destruct (Hall 0%nat).
Qed.

(** C8: accepting a request for a checklist without tasks succeeds, stores
    the copy of the checklist and creates no task. *)
Theorem empty_checklist_is_cloned (s : store) (req : request) (r c : obj) :
  strict_eq_str (field "action" (body req)) "accept" = true →
  requests_with_id s (params_id req) = [r] →
  strict_eq_str (field "status" r) "pending" = true →
  checklists_with_id s (field "checklist_id" r) = [c] →
  calm 5 s = true →
  tasks_of s (field "checklist_id" r) = [] →
  let p := post_share_request_respond req in
  result_of p s
  = Returned (json 200 (message_body "Accepted and cloned checklist"))
  ∧ rows (state_after p s) "tasks" = rows s "tasks"
  ∧ rows (state_after p s) "checklists"
    = rows s "checklists"
      ++ [copied_checklist s (field "receiver_id" r) (field "title" c)]
  ∧ length (calls_of p s) = 5%nat.
Proof.
  intros Hacc Hr Hst Hc Hcalm Hempty p.
  destruct (respond_accept_memory s req r c Hacc Hr Hst Hc Hcalm)
    as (res & s' & tr & Hrun & Hlen & Hlen' & Hrows & Hcl & _).
  unfold result_of, state_after, calls_of, p. rewrite Hrun. cbn [fst snd].
  rewrite Hempty in Hlen, Hlen'. destruct res; [|done].
  cbn in Hrows. rewrite app_nil_r in Hrows.
  by rewrite length_fmap.
Qed.

Lemma empty_checklist_is_cloned_witness :
  result_of (post_share_request_respond accept_trip) bare_store
  = Returned (json 200 (message_body "Accepted and cloned checklist"))
  ∧ rows (state_after (post_share_request_respond accept_trip) bare_store)
      "tasks" = rows bare_store "tasks"
  ∧ rows (state_after (post_share_request_respond accept_trip) bare_store)
      "checklists"
    = rows bare_store "checklists"
      ++ [copied_checklist bare_store (VNum 11) (VStr "Trip")]
  ∧ length (calls_of (post_share_request_respond accept_trip) bare_store)
    = 5%nat.
Proof.
  apply (empty_checklist_is_cloned bare_store accept_trip trip_request
           trip_checklist); reflexivity.
Defined.

(** C5: the checklist the cloner stores is flagged as a shared copy, belongs
    to the receiver of the request and carries the title of the source. *)
Theorem copy_belongs_to_receiver (s : store) (req : request) (r c : obj) :
  strict_eq_str (field "action" (body req)) "accept" = true →
  requests_with_id s (params_id req) = [r] →
  strict_eq_str (field "status" r) "pending" = true →
  checklists_with_id s (field "checklist_id" r) = [c] →
  calm 4 s = true →
  primitive (field "receiver_id" r) = true →
  primitive (field "title" c) = true →
  ∃ new,
    rows (state_after (post_share_request_respond req) s) "checklists"
    = rows s "checklists" ++ [new]
    ∧ field "is_shared_copy" new = VBool true
    ∧ field "profile_id" new = field "receiver_id" r
    ∧ field "title" new = field "title" c.
Proof.
  intros Hacc Hr Hst Hc Hcalm Hrec Htitle.
  exists (copied_checklist s (field "receiver_id" r) (field "title" c)).
  split; [|by cbn; rewrite !wire_primitive].
  unfold state_after.
  rewrite (respond_accept_run s req r) by
    first [done | apply (calm_le 2 4); [lia | done]].
  set (s2 := with_mark s (params_id req) "accepted").
  rewrite (accept_branch_calm s2 r c);
    [ | by apply calm_with_mark
      | unfold s2; by rewrite checklists_with_mark ].
  cbv zeta.
  set (new := copied_checklist (without_fault s2) _ _).
  pose proof (run_frame (clone_tasks (VObj r) (VObj new))
                (with_copy (without_fault s2) new) "checklists") as Hf.
  unfold state_after in Hf.
  destruct (run (clone_tasks _ _) _) as [[o s'] tr]. cbn [fst snd] in *.
  rewrite Hf by (by apply calls_only_clone_tasks; intros q ->).
  unfold with_copy. rewrite rows_ticked, rows_with_table_eq.
  unfold s2, with_mark.
  by rewrite !rows_without_fault, rows_with_table_ne.
Qed.

Lemma copy_belongs_to_receiver_witness :
  ∃ new,
    rows (state_after (post_share_request_respond accept_trip) trip_store)
      "checklists"
    = rows trip_store "checklists" ++ [new]
    ∧ field "is_shared_copy" new = VBool true
    ∧ field "profile_id" new = VNum 11
    ∧ field "title" new = VStr "Trip".
Proof.
  apply (copy_belongs_to_receiver trip_store accept_trip trip_request
           trip_checklist); reflexivity.
Defined.

Lemma copied_task_fields sk cid m t f :
  f ∈ copied_fields → field f (copied_task sk cid m t) = wire (field f t).
Proof.
  unfold copied_fields. intros Hf.
  repeat (apply elem_of_cons in Hf as [-> | Hf]; [done|]).
  by apply elem_of_nil in Hf.
Qed.

(** C1: accepting a share request copies every task of the source checklist
    under the new checklist, with the fields of the source, and a copy whose
    source has a parent created before it points at the copy of that
    parent. *)
Theorem clone_preserves_parent_links (s : store) (req : request) (r c : obj) :
  let T := tasks_of s (field "checklist_id" r) in
  let p := post_share_request_respond req in
  strict_eq_str (field "action" (body req)) "accept" = true →
  requests_with_id s (params_id req) = [r] →
  strict_eq_str (field "status" r) "pending" = true →
  checklists_with_id s (field "checklist_id" r) = [c] →
  calm (5 + length T) s = true →
  NoDup (task_key <$> T) →
  forallb (λ t, truthy (field "id" t)) T = true →
  forallb (λ t, forallb (λ f, primitive (field f t)) copied_fields) T = true →
  result_of p s
  = Returned (json 200 (message_body "Accepted and cloned checklist"))
  ∧ ∃ news : list obj,
      rows (state_after p s) "tasks" = rows s "tasks" ++ news
      ∧ length news = length T
      ∧ ∀ k tk nk,
          T !! k = Some tk → news !! k = Some nk →
          field "checklist_id" nk = VNum (Z.pos (next_id s))
          ∧ (∀ f, f ∈ copied_fields → field f nk = field f tk)
          ∧ ∀ j tj nj a b,
              T !! j = Some tj → news !! j = Some nj →
              field "created_at" tj = VNum a →
              field "created_at" tk = VNum b →
              a < b →
              field "parent_id" tk = field "id" tj →
              field "parent_id" nk = field "id" nj.
Proof.
  intros T p Hacc Hr Hst Hc Hcalm Hnd Hids Hprim.
  destruct (respond_accept_memory s req r c Hacc Hr Hst Hc)
    as (res & s' & tr & Hrun & Hlen & Hlen' & Hrows & _ & Hfail & Hrow).
  { apply (calm_le 5 (5 + length T)); [lia | done]. }
  fold T in Hlen, Hlen', Hfail, Hrow.
  assert (res = Some <$> omap id res) as Hres.
  { apply all_inserted. intros k Hk. apply Hfail in Hk as [Hk Hf].
    rewrite (calm_lookup (5 + length T) s) in Hf by (done || lia).
    by destruct Hf. }
  set (news := omap id res) in *.
  assert (∀ k nk, news !! k = Some nk → res !! k = Some (Some nk)) as Hnews.
  { intros k nk Hk. by rewrite Hres, list_lookup_fmap, Hk. }
  unfold result_of, state_after, p. rewrite Hrun. cbn [fst snd].
  split; [done|]. exists news. split; [done|]. split.
  { rewrite <- Hlen, Hres. by rewrite length_fmap. }
  intros k tk nk Htk Hnk.
  destruct (Hrow k tk nk Htk (Hnews _ _ Hnk)) as [sk ->].
  split; [done|]. split.
  - intros f Hf. rewrite copied_task_fields by done.
    apply wire_primitive.
    rewrite forallb_forall in Hprim.
    assert (List.In tk T) as Hin
      by (apply list_elem_of_In; by eapply list_elem_of_lookup_2).
    specialize (Hprim tk Hin). rewrite forallb_forall in Hprim.
    apply Hprim. by apply list_elem_of_In.
  - intros j tj nj a b Htj Hnj Ha Hb Hab Hparent.
    pose proof (tasks_of_order s _ j k tj tk a b Htj Htk Ha Hb Hab) as Hjk.
    pose proof (record_ids_take_recorded T res j k tj nj Hnd Htj
                  (Hnews _ _ Hnj) Hjk) as Hrec.
    destruct (Hrow j tj nj Htj (Hnews _ _ Hnj)) as [sj Hsj].
    assert (truthy (field "id" tj) = true) as Hid.
    { rewrite forallb_forall in Hids. apply Hids.
      apply list_elem_of_In. by eapply list_elem_of_lookup_2. }
    cbn [copied_task field String.eqb Ascii.eqb Bool.eqb].
    unfold new_parent, idMap_get. rewrite Hparent, Hid.
    unfold task_key in Hrec. rewrite Hrec. by rewrite Hsj.
Qed.

Lemma clone_preserves_parent_links_witness :
  result_of (post_share_request_respond accept_trip) trip_store
  = Returned (json 200 (message_body "Accepted and cloned checklist"))
  ∧ ∃ news : list obj,
      rows (state_after (post_share_request_respond accept_trip) trip_store)
        "tasks" = rows trip_store "tasks" ++ news
      ∧ length news = length (tasks_of trip_store (VNum 1))
      ∧ ∀ k tk nk,
          tasks_of trip_store (VNum 1) !! k = Some tk →
          news !! k = Some nk →
          field "checklist_id" nk = VNum 5
          ∧ (∀ f, f ∈ copied_fields → field f nk = field f tk)
          ∧ ∀ j tj nj a b,
              tasks_of trip_store (VNum 1) !! j = Some tj →
              news !! j = Some nj →
              field "created_at" tj = VNum a →
              field "created_at" tk = VNum b →
              a < b →
              field "parent_id" tk = field "id" tj →
              field "parent_id" nk = field "id" nj.
Proof.
  apply (clone_preserves_parent_links trip_store accept_trip trip_request
           trip_checklist); try reflexivity.
  apply (bool_decide_unpack _). vm_compute. exact I.
Defined.



(** ** Scripted replies *)

Lemma get_prop_defined k v : nullish v = false → get_prop k v = inl (member k v).
Proof. by destruct v. Qed.

Lemma run_supabase_script {A} q (k : value * value → prog A) d e
    (rest : list settled) :
  run (supabase q ≫= k) (Resolved (reply d e) :: rest) =
    let '(o, s', t) := run (k (d, e)) rest in
    (o, s', (Db q, Resolved (reply d e)) :: t).
Proof.
  rewrite run_bind. unfold supabase, await. cbn.
  by destruct (run (k (d, e)) rest) as [[o s'] t].
Qed.

(** Whatever the database answers to the inserts, the loop attempts every
    task and ends normally. *)
Lemma clone_loop_script nc cid :
  get_prop "id" nc = inl cid →
  ∀ (tasks : list value) (ins : list (value * value)) (m : gmap string value)
    (rest : list settled),
  forallb (λ t, negb (nullish t)) tasks = true →
  length ins = length tasks →
  ∃ m' tr,
    run (clone_loop nc tasks m) ((uncurry answered <$> ins) ++ rest)
    = (Returned m', rest, tr)
    ∧ length tr = length tasks
    ∧ ∀ k task,
        tasks !! k = Some task →
        ∃ mk, tr.*1 !! k = Some (Db (insert_task (newTaskData cid mk task))).
Proof.
  intros Hid tasks. induction tasks as [| task tasks IH];
    intros ins m rest Hdef Hlen.
  - destruct ins; [|done]. exists m, []. by cbn.
  - destruct ins as [| [d e] ins]; [done|].
    cbn in Hdef. apply andb_prop in Hdef as [Htask Hdef].
    apply negb_true_iff in Htask.
    cbn [clone_loop]. rewrite Hid, (get_prop_defined _ task) by done.
    cbn [lift]. rewrite !bind_ret. cbn [fmap list_fmap app uncurry].
    unfold answered at 1.
    rewrite (run_supabase_script
               (insert_task (newTaskData cid m task))).
    destruct (IH ins
                (if negb (truthy e) && truthy d
                 then idMap_set m (member "id" task) (member "id" d) else m)
                rest Hdef) as (m' & tr & -> & Hlen' & Hcalls).
    { cbn in Hlen. lia. }
    eexists m', _. split; [reflexivity|]. cbn. split; [by rewrite Hlen'|].
    intros [| k] t; cbn.
    + intros [= <-]. by exists m.
    + apply Hcalls.
Qed.

(** C4: a failing fetch of the source checklist or of its tasks makes the
    accept answer 500 with the error of that fetch; insert replies, failed
    or not, never stop the loop: every task gets its insert and the caller
    is told that the checklist was cloned. *)
Theorem fetch_failures_are_fatal_insert_failures_are_not
    (req : request) (request cl title newCl : value) :
  let p := post_share_request_respond req in
  strict_eq_str (field "action" (body req)) "accept" = true →
  truthy request = true →
  strict_eq_str (member "status" request) "pending" = true →
  get_prop "title" cl = inl title →
  (∀ data e rest,
     truthy e = true →
     result_of p (ok request :: ok VNull :: answered data e :: rest)
     = Returned (json 500 (error_body (member "message" e))))
  ∧ (∀ data e rest,
       truthy e = true →
       result_of p (ok request :: ok VNull :: ok cl :: ok newCl
                    :: answered data e :: rest)
       = Returned (json 500 (error_body (member "message" e))))
  ∧ (∀ cid tasks ins rest,
       get_prop "id" newCl = inl cid →
       forallb (λ t, negb (nullish t)) tasks = true →
       length ins = length tasks →
       let script := ok request :: ok VNull :: ok cl :: ok newCl
                     :: ok (VArr tasks) :: (uncurry answered <$> ins) ++ rest in
       result_of p script
       = Returned (json 200 (message_body "Accepted and cloned checklist"))
       ∧ state_after p script = rest
       ∧ length (calls_of p script) = (5 + length tasks)%nat
       ∧ ∀ k task,
           tasks !! k = Some task →
           ∃ mk, calls_of p script !! (5 + k)%nat
                 = Some (Db (insert_task (newTaskData cid mk task)))).
Proof.
  intros p Hacc Hreq Hst Htitle.
  assert (includes ["accept"; "reject"] (field "action" (body req)) = true)
    as Hinc by (cbn; by rewrite Hacc).
  assert (∀ rest,
            run p (ok request :: ok VNull :: rest) =
            let '(o, s', t) := run (accept_branch request) rest in
            (o, s',
             (Db (lookup_request (params_id req)), ok request)
             :: (Db (mark_request (params_id req) "accepted"), ok VNull)
             :: t)) as Hprefix.
  { intros rest. unfold p, post_share_request_respond. rewrite Hinc.
    cbn [negb]. unfold ok.
    rewrite (run_supabase_script (lookup_request (params_id req))).
    cbn [truthy orb]. rewrite Hreq, Hst, Hacc. cbn [negb].
    rewrite (run_supabase_script (mark_request (params_id req) "accepted")).
    cbn [truthy]. by destruct (run (accept_branch request) rest) as [[o s'] t]. }
  assert (∀ rest,
            run (accept_branch request) (ok cl :: ok newCl :: rest) =
            let '(o, s', t) := run (clone_tasks request newCl) rest in
            (o, s',
             (Db (fetch_checklist (member "checklist_id" request)), ok cl)
             :: (Db (copy_checklist (member "receiver_id" request) title),
                 ok newCl)
             :: t)) as Hcopy.
  { intros rest. unfold accept_branch, ok.
    rewrite (run_supabase_script
               (fetch_checklist (member "checklist_id" request))).
    cbn [truthy]. rewrite Htitle. cbn [lift]. rewrite bind_ret.
    rewrite (run_supabase_script
               (copy_checklist (member "receiver_id" request) title)).
    cbn [truthy].
    by destruct (run (clone_tasks request newCl) rest) as [[o s'] t]. }
  split; [|split].
  - intros data e rest He. unfold result_of. rewrite Hprefix.
    unfold accept_branch, answered.
    rewrite (run_supabase_script
               (fetch_checklist (member "checklist_id" request))).
    by rewrite He.
  - intros data e rest He. unfold result_of. rewrite Hprefix, Hcopy.
    unfold clone_tasks, answered.
    rewrite (run_supabase_script
               (fetch_tasks (member "checklist_id" request))).
    by rewrite He.
  - intros cid tasks ins rest Hid Hdef Hlen script.
    destruct (clone_loop_script newCl cid Hid tasks ins ∅ rest Hdef Hlen)
      as (m' & tr & Hloop & Hlen' & Hcalls).
    assert (∃ c1 c2 c3 c4 c5,
              run p script =
              (Returned (json 200 (message_body "Accepted and cloned checklist")),
               rest, c1 :: c2 :: c3 :: c4 :: c5 :: tr)) as Hrun.
    { unfold script. rewrite Hprefix, Hcopy. unfold clone_tasks, ok at 1.
      rewrite (run_supabase_script
                 (fetch_tasks (member "checklist_id" request))).
      cbn [truthy iterate lift]. rewrite bind_ret, run_bind, Hloop.
      cbn. rewrite app_nil_r. eauto 10. }
    destruct Hrun as (c1 & c2 & c3 & c4 & c5 & Hrun).
    unfold result_of, state_after, calls_of. rewrite Hrun. cbn.
    rewrite length_fmap, Hlen'. split_and!; try done.
Qed.

Lemma fetch_failures_are_fatal_insert_failures_are_not_witness :
  result_of (post_share_request_respond accept_trip) partial_clone_script
  = Returned (json 200 (message_body "Accepted and cloned checklist"))
  ∧ state_after (post_share_request_respond accept_trip) partial_clone_script
    = []
  ∧ length (calls_of (post_share_request_respond accept_trip)
              partial_clone_script) = 7%nat
  ∧ ∀ k task,
      (VObj <$> trip_tasks) !! k = Some task →
      ∃ mk, calls_of (post_share_request_respond accept_trip)
              partial_clone_script !! (5 + k)%nat
            = Some (Db (insert_task (newTaskData (VNum 5) mk task))).
Proof.
  exact (proj2 (proj2 (fetch_failures_are_fatal_insert_failures_are_not
                         accept_trip (VObj trip_request) (VObj trip_checklist)
                         (VStr "Trip") new_trip
                         eq_refl eq_refl eq_refl eq_refl))
           (VNum 5) (VObj <$> trip_tasks)
           [(VNull, timeout_error);
            (VObj (example_task 7 VNull "Shoes"), VNull)] []
           eq_refl eq_refl eq_refl).
Defined.

(** ** Updating a task *)

Lemma field_set_field f k v o :
  field f (set_field k v o) = if String.eqb f k then v else field f o.
Proof.
  induction o as [| [k' v'] o IH]; cbn.
  - done.
  - destruct (String.eqb_spec k k') as [-> |]; cbn.
    + by destruct (String.eqb f k').
    + destruct (String.eqb_spec f k') as [-> |]; [|done].
      by destruct (String.eqb_spec k' k) as [-> |].
Qed.

Lemma field_assign_if_defined f k b o :
  field f (assign_if_defined k b o) =
    if String.eqb f k && negb (is_undefined (field k b)) then field k b
    else field f o.
Proof.
  unfold assign_if_defined. destruct (is_undefined (field k b)); cbn.
  - by rewrite andb_false_r.
  - by rewrite field_set_field, andb_true_r.
Qed.

(** The update object holds exactly the updatable fields the body defines,
    with the values of the body. *)
Lemma field_task_updates b f :
  field f (task_updates b) = if updated b f then field f b else VUndefined.
Proof.
  unfold task_updates, updated. rewrite !field_assign_if_defined.
  destruct (decide (f ∈ task_update_fields)) as [Hin | Hnin].
  - rewrite bool_decide_eq_true_2 by done. unfold task_update_fields in Hin.
    repeat (apply elem_of_cons in Hin as [-> | Hin];
            [cbn [String.eqb Ascii.eqb Bool.eqb andb];
             by destruct (is_undefined _) |]).
    by apply elem_of_nil in Hin.
  - rewrite bool_decide_eq_false_2 by done. cbn [andb].
    repeat match goal with
           | |- context [String.eqb f ?k] =>
               replace (String.eqb f k) with false;
               [cbn [andb] |
                symmetry; apply String.eqb_neq; intros ->; apply Hnin;
                unfold task_update_fields; set_solver]
           end.
    done.
Qed.

Lemma field_keep_defined f g o :
  (∀ v, v ≠ VUndefined → g v ≠ VUndefined) →
  Forall (λ kv, kv.2 ≠ VUndefined) o →
  field f (keep_defined g o) = if has_field f o then g (field f o) else VUndefined.
Proof.
  intros Hg Ho. unfold has_field. induction Ho as [| [k v] o Hv Ho IH]; [done|].
  cbn in *. destruct v; try done; cbn;
    by destruct (String.eqb f k).
Qed.

Lemma has_field_keep_defined f g o :
  Forall (λ kv, kv.2 ≠ VUndefined) o →
  has_field f (keep_defined g o) = has_field f o.
Proof.
  intros Ho. unfold has_field. induction Ho as [| [k v] o Hv Ho IH]; [done|].
  cbn in *. destruct v; try done; cbn; by rewrite IH.
Qed.

Lemma set_field_defined k v o :
  v ≠ VUndefined → Forall (λ kv, kv.2 ≠ VUndefined) o →
  Forall (λ kv, kv.2 ≠ VUndefined) (set_field k v o).
Proof.
  intros Hv Ho. induction Ho as [| [k' v'] o Hv' Ho IH]; cbn.
  - by repeat constructor.
  - destruct (String.eqb k k'); by constructor.
Qed.

Lemma assign_if_defined_defined k b o :
  Forall (λ kv, kv.2 ≠ VUndefined) o →
  Forall (λ kv, kv.2 ≠ VUndefined) (assign_if_defined k b o).
Proof.
  intros Ho. unfold assign_if_defined.
  destruct (field k b) eqn:Hk; cbn; try done; by apply set_field_defined.
Qed.

Lemma task_updates_defined b :
  Forall (λ kv, kv.2 ≠ VUndefined) (task_updates b).
Proof.
  unfold task_updates. repeat apply assign_if_defined_defined. constructor.
Qed.

Lemma has_field_task_updates b f :
  has_field f (task_updates b) = updated b f.
Proof.
  destruct (updated b f) eqn:Hu.
  - apply field_has_field. rewrite field_task_updates, Hu.
    unfold updated in Hu. apply andb_prop in Hu as [_ Hu].
    by destruct (field f b).
  - destruct (has_field f (task_updates b)) eqn:Hh; [|done].
    pose proof (task_updates_defined b) as Hd.
    pose proof (field_task_updates b f) as Hf. rewrite Hu in Hf.
    exfalso. revert Hh Hf Hd. generalize (task_updates b). intros o.
    unfold has_field. induction o as [| [k v] o IH]; [done|]. cbn.
    destruct (String.eqb f k); cbn.
    + intros _ -> Hd. by inversion Hd.
    + intros Hh Hf Hd. apply IH; [done | done | by inversion Hd].
Qed.

Lemma in_has_field k v (o : obj) : List.In (k, v) o → has_field k o = true.
Proof.
  unfold has_field. intros Hin. apply existsb_exists. exists (k, v).
  split; [done|]. apply String.eqb_refl.
Qed.

Lemma known_columns_task_updates b cols :
  assoc "tasks" schema = Some cols →
  known_columns cols (written (task_updates b)) = true.
Proof.
  intros [= <-]. unfold known_columns, written.
  apply forallb_forall. intros [k v] Hin. apply in_has_field in Hin.
  rewrite has_field_keep_defined in Hin by apply task_updates_defined.
  rewrite has_field_task_updates in Hin. unfold updated in Hin.
  apply andb_prop in Hin as [Hk _]. apply bool_decide_eq_true in Hk.
  unfold task_update_fields in Hk. cbn [fst].
  repeat (apply elem_of_cons in Hk as [-> | Hk]; [done|]).
  by apply elem_of_nil in Hk.
Qed.

Lemma filter_singleton {A} (f : A → bool) (l : list A) (x y : A) :
  List.filter f l = [x] → y ∈ l → f y = true → y = x.
Proof.
  intros Hf Hy Hfy.
  assert (List.In y (List.filter f l)) as Hin.
  { apply List.filter_In. split; [by apply list_elem_of_In | done]. }
  rewrite Hf in Hin. by destruct Hin as [-> | []].
Qed.

Lemma put_task_memory s req row :
  next_fault s = None →
  tasks_with_id s (params_id req) = [row] →
  let changes := written (task_updates (body req)) in
  let row' := apply_changes changes row in
  result_of (put_task req) s = Returned (json 200 (VObj row'))
  ∧ rows (state_after (put_task req) s) "tasks"
    = (λ r, if matches r ("id", VStr (params_id req)) then row' else r)
      <$> rows s "tasks".
Proof.
  intros Hnf Hrow changes row'. unfold result_of, state_after, put_task.
  match goal with
  | |- context [supabase ?q ≫= _] => rewrite (run_supabase_memory q)
  end.
  unfold db_step. rewrite Hnf. unfold execute.
  cbn [table action from update eq_filter select single assoc schema
         String.eqb Ascii.eqb Bool.eqb].
  rewrite (known_columns_task_updates _ _ eq_refl). cbv zeta.
  rewrite shaped_single_star by done.
  rewrite (hits_one_filter _ _ "id" (VStr (params_id req))) by done.
  cbn [table from update eq_filter select single filters].
  rewrite rows_without_fault. fold (tasks_with_id s (params_id req)).
  rewrite Hrow. cbn [fmap list_fmap forallb app].
  rewrite andb_true_r.
  assert (matches row ("id", VStr (params_id req)) = true) as Hm.
  { assert (List.In row (tasks_with_id s (params_id req))) as Hin
      by (rewrite Hrow; by left).
    by apply List.filter_In in Hin as [_ ?]. }
  rewrite Hm. cbn. split; [done|].
  rewrite rows_with_table_eq. apply list_fmap_ext. intros i r Hr. cbn.
  rewrite andb_true_r.
  destruct (matches r ("id", VStr (params_id req))) eqn:Hmr; [|done].
  f_equal. apply (filter_singleton _ _ _ _ Hrow); [|done].
  by eapply list_elem_of_lookup_2.
Qed.

(** C9, as the code has it: of the fields a request body carries, the task
    update writes those on its list (title, description, is_completed,
    order_num, start_time, end_time, allocated_time) and no other; every
    other field of the task, and every other task, stays as it was. *)
Theorem task_update_writes_listed_fields (s : store) (req : request)
    (row : obj) :
  next_fault s = None →
  tasks_with_id s (params_id req) = [row] →
  (∀ f, field f (task_updates (body req))
        = if updated (body req) f then field f (body req) else VUndefined)
  ∧ ∃ row',
      result_of (put_task req) s = Returned (json 200 (VObj row'))
      ∧ rows (state_after (put_task req) s) "tasks"
        = (λ r, if matches r ("id", VStr (params_id req)) then row' else r)
          <$> rows s "tasks"
      ∧ ∀ f,
          has_field f row = true →
          field f row' = if updated (body req) f
                         then wire (field f (body req)) else field f row.
Proof.
  intros Hnf Hrow. split; [intros f; apply field_task_updates|].
  destruct (put_task_memory s req row Hnf Hrow) as [Hres Hrows].
  eexists. split; [exact Hres|]. split; [exact Hrows|].
  intros f Hf. rewrite field_apply_changes, Hf. unfold written.
  rewrite has_field_keep_defined by apply task_updates_defined.
  rewrite has_field_task_updates.
  destruct (updated (body req) f) eqn:Hu; [|done].
  rewrite field_keep_defined.
  - by rewrite has_field_task_updates, Hu, field_task_updates, Hu.
  - by intros [].
  - apply task_updates_defined.
Qed.

Lemma task_update_writes_listed_fields_witness :
  (∀ f, field f (task_updates [("title", VStr "Boots")])
        = if updated [("title", VStr "Boots")] f
          then field f [("title", VStr "Boots")] else VUndefined)
  ∧ ∃ row',
      result_of (put_task (Request "3" [] [("title", VStr "Boots")]))
        trip_store = Returned (json 200 (VObj row'))
      ∧ rows (state_after (put_task (Request "3" [] [("title", VStr "Boots")]))
                trip_store) "tasks"
        = (λ r, if matches r ("id", VStr "3") then row' else r)
          <$> rows trip_store "tasks"
      ∧ ∀ f,
          has_field f (example_task 3 (VNum 2) "Shoes") = true →
          field f row' = if updated [("title", VStr "Boots")] f
                         then wire (field f [("title", VStr "Boots")])
                         else field f (example_task 3 (VNum 2) "Shoes").
Proof.
  apply (task_update_writes_listed_fields trip_store
           (Request "3" [] [("title", VStr "Boots")])
           (example_task 3 (VNum 2) "Shoes")); reflexivity.
Defined.

(** C9 as stated fails: a [parent_id] carried by the body is present in the
    request and is not written; the task keeps its parent. *)
Lemma parent_in_body_is_not_written :
  field "parent_id" (body detach_shoes) = VNull
  ∧ has_field "parent_id" (task_updates (body detach_shoes)) = false
  ∧ rows (state_after (put_task detach_shoes) trip_store) "tasks"
    = rows trip_store "tasks"
  ∧ field "parent_id" <$> tasks_with_id
                            (state_after (put_task detach_shoes) trip_store)
                            "3"
    = [VNum 2].
Proof. repeat split. Qed.

(** ** The password hash never leaves the server *)

Lemma never_leaks_run {W} `{World W} (p : prog response) (s : W) resp :
  never_leaks p →
  forallb (uncurry discreet) (run p s).2 = true →
  result_of p s = Returned resp →
  hash_free resp = true.
Proof.
  unfold result_of. revert s. induction p as [a | e | eff k IH]; intros s; cbn.
  - by intros ? _ [= <-].
  - done.
  - intros Hp. destruct (answer eff s) as [ans s1].
    specialize (IH ans s1). destruct (run (k ans) s1) as [[o s2] tr].
    cbn in *. intros [Hans Htr]%andb_prop Ho. by apply IH; [apply Hp | |].
Qed.

Lemma hides_hash_error_body m :
  hides_hash (error_body m) = hides_hash m.
Proof. unfold hides_hash, error_body. cbn. by rewrite orb_false_r. Qed.

Lemma hides_hash_omit v :
  forallb (λ kv, hides_hash kv.2) (own_entries v) = true →
  hides_hash (omit "password_hash" v) = true.
Proof.
  unfold omit, hides_hash. generalize (own_entries v). unfold obj.
  intros o Ho. apply negb_true_iff. cbn [mentions].
  induction o as [| [k x] o IH]; [done|].
  cbn [forallb snd] in Ho. apply andb_prop in Ho as [Hx Ho].
  apply negb_true_iff in Hx.
  destruct (decide (k = "password_hash")) as [-> | Hk].
  - rewrite filter_cons_False by (cbn; by intros []). by apply IH.
  - rewrite filter_cons_True by done.
    cbn [any_field]. rewrite Hx, IH by done.
    by destruct (String.eqb_spec "password_hash" k) as [<- |].
Qed.

Lemma never_leaks_supabase q (k : value * value → prog response) :
  (∀ data error,
     hides_hash (member "message" error) = true →
     discreet_data q data = true →
     never_leaks (k (data, error))) →
  never_leaks (supabase q ≫= k).
Proof.
  intros Hk. unfold supabase, await.
  change (∀ ans, discreet (Db q) ans = true →
                 never_leaks
                   ((match ans with
                     | Resolved v => Ret v
                     | Rejected e => Throw e
                     end ≫= λ r,
                       data ← lift (get_prop "data" r);
                       error ← lift (get_prop "error" r);
                       mret (data, error)) ≫= k)).
  intros [r | e] Hd; [|done].
  destruct (nullish r) eqn:Hr; [by destruct r|].
  rewrite bind_ret, !(get_prop_defined _ r) by done.
  cbn [lift]. rewrite !bind_ret.
  cbn [discreet] in Hd. apply andb_prop in Hd as [He Hdata].
  by apply Hk.
Qed.

Lemma throws_discreetly_supabase q (k : value * value → prog response) :
  (∀ data error,
     hides_hash (member "message" error) = true →
     discreet_data q data = true →
     throws_discreetly (k (data, error))) →
  throws_discreetly (supabase q ≫= k).
Proof.
  intros Hk. unfold supabase, await.
  change (∀ ans, discreet (Db q) ans = true →
                 throws_discreetly
                   ((match ans with
                     | Resolved v => Ret v
                     | Rejected e => Throw e
                     end ≫= λ r,
                       data ← lift (get_prop "data" r);
                       error ← lift (get_prop "error" r);
                       mret (data, error)) ≫= k)).
  intros [r | e] Hd; [|exact Hd].
  destruct (nullish r) eqn:Hr; [by destruct r|].
  rewrite bind_ret, !(get_prop_defined _ r) by done.
  cbn [lift]. rewrite !bind_ret.
  cbn [discreet] in Hd. apply andb_prop in Hd as [He Hdata].
  by apply Hk.
Qed.

Lemma never_leaks_await eff (k : value → prog response) :
  (∀ v, never_leaks (k v)) → never_leaks (await eff ≫= k).
Proof.
  intros Hk. unfold await.
  change (∀ ans, discreet eff ans = true →
                 never_leaks (match ans with
                              | Resolved v => Ret v
                              | Rejected e => Throw e
                              end ≫= k)).
  intros [v | e] _; [apply Hk | done].
Qed.

Lemma throws_discreetly_await eff (k : value → prog response) :
  (∀ v, throws_discreetly (k v)) → throws_discreetly (await eff ≫= k).
Proof.
  intros Hk. unfold await.
  change (∀ ans, discreet eff ans = true →
                 throws_discreetly (match ans with
                                    | Resolved v => Ret v
                                    | Rejected e => Throw e
                                    end ≫= k)).
  intros [v | e] Hd; [apply Hk | exact Hd].
Qed.

Lemma never_leaks_try_catch p h :
  throws_discreetly p →
  (∀ e, hides_hash (member "message" e) = true → never_leaks (h e)) →
  never_leaks (try_catch p h).
Proof.
  intros Hp Hh. induction p as [resp | e | eff k IH]; cbn in *; auto.
Qed.

Lemma hash_free_error code m :
  hides_hash m = true → hash_free (json code (error_body m)) = true.
Proof. intros Hm. unfold hash_free. cbn. by rewrite hides_hash_error_body. Qed.

(** A continuation that never leaks can follow any program. *)
Lemma never_leaks_bind {A} (p : prog A) (k : A → prog response) :
  (∀ a, never_leaks (k a)) → never_leaks (p ≫= k).
Proof.
  intros Hk. induction p as [a | e | eff c IH]; [apply Hk | done |].
  intros ans _. apply IH.
Qed.

Ltac leak_step :=
  lazymatch goal with
  | |- never_leaks (supabase _ ≫= _) =>
      apply never_leaks_supabase; intros ? ? ? ?
  | |- never_leaks (await _ ≫= _) => apply never_leaks_await; intros ?
  | |- never_leaks (clone_loop _ _ _ ≫= _) =>
      apply never_leaks_bind; intros ?
  | |- never_leaks (lift _ ≫= _) => apply never_leaks_bind; intros ?
  | |- never_leaks ((if _ then _ else _) ≫= _) =>
      apply never_leaks_bind; intros ?
  | |- never_leaks (if ?b then _ else _) => destruct b eqn:?
  | |- never_leaks (accept_branch _) => unfold accept_branch
  | |- never_leaks (clone_tasks _ _) => unfold clone_tasks
  | |- never_leaks (mret (json _ (error_body (member "message" _)))) =>
      by apply hash_free_error
  | |- never_leaks (mret (json _ (omit "password_hash" _))) =>
      by apply hides_hash_omit
  | |- never_leaks (mret _) => first [reflexivity | assumption]
  | |- throws_discreetly (supabase _ ≫= _) =>
      apply throws_discreetly_supabase; intros ? ? ? ?
  | |- throws_discreetly (await _ ≫= _) =>
      apply throws_discreetly_await; intros ?
  | |- throws_discreetly (if ?b then _ else _) => destruct b eqn:?
  | |- throws_discreetly (Throw _) => assumption
  | |- throws_discreetly (mret _) => first [reflexivity | assumption]
  end.

(** No handler answers with the password hash, as long as the outside world
    is discreet. *)
Lemma never_leaks_handler (e : endpoint) (req : request) :
  never_leaks (handler e req).
Proof.
  destruct e; unfold_handler.
  all: repeat leak_step.
  apply never_leaks_try_catch.
  - repeat leak_step.
  - intros err Herr. repeat leak_step.
Qed.

(** C6, as the code has it: a login with a known profile and a password
    that bcrypt compares with the hash and does not accept is answered 401;
    and no endpoint ever answers with a [password_hash] property, provided
    the database returns the hash only to the queries that ask for it and
    error messages do not carry it. *)
Theorem wrong_password_is_401_and_hash_stays_inside :
  (∀ (req : request) (profile isMatch : value) (rest : list settled),
     truthy (field "profile_id" (body req)) = true →
     truthy (field "password" (body req)) = true →
     truthy profile = true →
     truthy isMatch = false →
     result_of (post_profiles_login req)
       (ok profile :: Resolved isMatch :: rest)
     = Returned (json 401 (error_body (VStr "Invalid password"))))
  ∧ (∀ (W : Type) (world : World W) (e : endpoint) (req : request) (s : W)
       (resp : response),
       forallb (uncurry discreet) (run (handler e req) s).2 = true →
       result_of (handler e req) s = Returned resp →
       hash_free resp = true).
Proof.
  split.
  - intros req profile isMatch rest Hid Hpw Hprofile Hmatch.
    unfold result_of, post_profiles_login. rewrite Hid, Hpw. cbn [negb orb].
    unfold ok.
    match goal with
    | |- context [supabase ?q ≫= _] => rewrite (run_supabase_script q)
    end.
    cbn [truthy orb]. rewrite Hprofile. cbn [negb].
    rewrite run_bind. cbn. by rewrite Hmatch.
  - intros W world e req s resp Htrace Hres.
    by apply (never_leaks_run (handler e req) s resp (never_leaks_handler e req)).
Qed.

Lemma wrong_password_is_401_and_hash_stays_inside_witness :
  result_of (post_profiles_login bad_login)
    [ok stored_profile; Resolved (VBool false)]
  = Returned (json 401 (error_body (VStr "Invalid password")))
  ∧ hash_free (json 401 (error_body (VStr "Invalid password"))) = true.
Proof.
  split.
  - apply (proj1 wrong_password_is_401_and_hash_stays_inside bad_login
             stored_profile (VBool false) []); reflexivity.
  - apply (proj2 wrong_password_is_401_and_hash_stays_inside
             (list settled) script_world PostProfilesLogin bad_login
             [ok stored_profile; Resolved (VBool false)]); reflexivity.
Defined.

(** C6 as stated fails for a wrong password that is not a string: the number
    12345 passes the guard, the profile is found, [bcrypt.compare] rejects
    instead of resolving, and the handler, which awaits it outside any
    [try], dies without answering: no 401. *)
Lemma numeric_password_is_not_answered :
  truthy (field "password" (body numeric_login)) = true
  ∧ profiles_with_id (Store tables_with_ann 5 5 [] typed_bcrypt)
      (field "profile_id" (body numeric_login)) = [ann]
  ∧ result_of (post_profiles_login numeric_login)
      (Store tables_with_ann 5 5 [] typed_bcrypt)
    = Uncaught (illegal_arguments (VNum 12345) (VStr "$2a$10$x"))
  ∧ ¬ ∃ resp,
        result_of (post_profiles_login numeric_login)
          (Store tables_with_ann 5 5 [] typed_bcrypt) = Returned resp
        ∧ status resp = 401.
Proof.
  split; [reflexivity|]. split; [reflexivity|]. split; [reflexivity|].
  by intros (resp & Hres & _).
Qed.

(** ** Properties that hold for every answer of the outside world *)

Lemma ensures_run {W} `{World W} {A} fair (P : A → Prop) (E : value → Prop)
    (p : prog A) (s : W) :
  ensures fair P E p →
  forallb (uncurry fair) (run p s).2 = true →
  match result_of p s with
  | Returned a => P a
  | Uncaught e => E e
  end.
Proof.
  unfold result_of. revert s. induction p as [a | e | eff k IH]; intros s;
    cbn; [done | done |].
  intros Hp. destruct (answer eff s) as [ans s1].
  specialize (IH ans s1). destruct (run (k ans) s1) as [[o s2] tr].
  cbn in *. intros [Hans Htr]%andb_prop. by apply IH; [apply Hp |].
Qed.

Lemma ensures_bind {A B} fair (Q : A → Prop) (P : B → Prop) (E : value → Prop)
    (p : prog A) (k : A → prog B) :
  ensures fair Q E p →
  (∀ a, Q a → ensures fair P E (k a)) →
  ensures fair P E (p ≫= k).
Proof.
  intros Hp Hk. induction p as [a | e | eff c IH]; cbn in *; auto.
Qed.

Lemma ensures_weaken {A} fair (P Q : A → Prop) (E F : value → Prop)
    (p : prog A) :
  (∀ a, P a → Q a) → (∀ e, E e → F e) →
  ensures fair P E p → ensures fair Q F p.
Proof.
  intros HP HE. induction p as [a | e | eff c IH]; cbn; auto.
Qed.

Lemma ensures_try_catch fair (P : response → Prop) (E F : value → Prop)
    (p : prog response) (h : value → prog response) :
  ensures fair P F p →
  (∀ e, F e → ensures fair P E (h e)) →
  ensures fair P E (try_catch p h).
Proof.
  intros Hp Hh. induction p as [a | e | eff c IH]; cbn in *; auto.
Qed.

Lemma ensures_any {A} fair (E : value → Prop) (p : prog A) :
  (∀ e, E e) → ensures fair (λ _, True) E p.
Proof. intros HE. induction p as [a | e | eff c IH]; cbn; auto. Qed.

Lemma ensures_bind_any {A B} fair (P : B → Prop) (p : prog A) (k : A → prog B) :
  (∀ a, ensures fair P (λ _, True) (k a)) →
  ensures fair P (λ _, True) (p ≫= k).
Proof.
  intros Hk. apply (ensures_bind fair (λ _, True)); [by apply ensures_any | auto].
Qed.

Ltac by_decision := apply (bool_decide_unpack _); vm_compute; exact I.

Lemma conventional_error c m :
  c ∈ [400; 401; 404; 409; 500] → conventional (json c (error_body m)).
Proof.
  intros Hc. unfold conventional. cbn. split_and!.
  - unfold status_codes.
    repeat (apply elem_of_cons in Hc as [-> | Hc]; [by_decision|]).
    by apply elem_of_nil in Hc.
  - eauto.
  - split; [|done]. intros ->.
    repeat (apply elem_of_cons in Hc as [Hc | Hc]; [done|]).
    by apply elem_of_nil in Hc.
Qed.

Lemma conventional_ok c b : c ∈ [200; 201] → conventional (json c b).
Proof.
  intros Hc. unfold conventional. cbn. split_and!.
  - unfold status_codes.
    repeat (apply elem_of_cons in Hc as [-> | Hc]; [by_decision|]).
    by apply elem_of_nil in Hc.
  - intros Hge. exfalso.
    repeat (apply elem_of_cons in Hc as [-> | Hc]; [lia|]).
    by apply elem_of_nil in Hc.
  - split; [|done]. intros ->.
    repeat (apply elem_of_cons in Hc as [Hc | Hc]; [done|]).
    by apply elem_of_nil in Hc.
Qed.

Lemma conventional_send : conventional (send 204).
Proof.
  unfold conventional. cbn. split_and!; [by_decision | lia | done].
Qed.

Ltac conventional_step :=
  lazymatch goal with
  | |- ensures _ _ _ (try_catch _ _) =>
      apply (ensures_try_catch _ _ _ (λ _, True)); [| intros ? _]
  | |- ensures _ _ _ (@mbind _ _ (?A * ?B)%type _ _ _) =>
      apply ensures_bind_any; intros [? ?]
  | |- ensures _ _ _ (_ ≫= _) => apply ensures_bind_any; intros ?
  | |- ensures _ _ _ (if ?b then _ else _) => destruct b
  | |- ensures _ _ _ (accept_branch _) => unfold accept_branch
  | |- ensures _ _ _ (clone_tasks _ _) => unfold clone_tasks
  | |- ensures _ _ _ (Throw _) => exact I
  | |- ensures _ _ _ (mret (json _ (error_body _))) =>
      apply conventional_error; by_decision
  | |- ensures _ _ _ (mret (json _ _)) => apply conventional_ok; by_decision
  | |- ensures _ _ _ (mret (send 204)) => apply conventional_send
  end.

Lemma conventional_handler (e : endpoint) (req : request) :
  ensures any_answer conventional (λ _, True) (handler e req).
Proof.
  destruct e; unfold_handler; repeat conventional_step.
Qed.

(** Whatever the database and bcrypt answer, a handler that responds uses
    one of eight status codes, puts [{ error }] in the body of every status
    from 400 up, and sends an empty body exactly with 204. *)
Theorem responses_are_conventional {W} `{World W} (e : endpoint)
    (req : request) (s : W) (resp : response) :
  result_of (handler e req) s = Returned resp → conventional resp.
Proof.
  intros Hres.
  pose proof (ensures_run any_answer conventional (λ _, True)
                (handler e req) s (conventional_handler e req)) as Hrun.
  rewrite Hres in Hrun. apply Hrun.
  apply forallb_forall. by intros [].
Qed.

Lemma responses_are_conventional_witness :
  conventional (json 401 (error_body (VStr "Invalid password"))).
Proof.
  apply (responses_are_conventional PostProfilesLogin bad_login
           [ok stored_profile; Resolved (VBool false)]).
  reflexivity.
Defined.

(** ** No unhandled exception *)

Lemma truthy_not_nullish v : truthy v = true → nullish v = false.
Proof. by destruct v. Qed.

Lemma answers_supabase {A} q (P : A → Prop) (E : value → Prop)
    (k : value * value → prog A) :
  (∀ data error,
     truthy error || expected_data q data = true →
     ensures orderly P E (k (data, error))) →
  ensures orderly P E (supabase q ≫= k).
Proof.
  intros Hk. unfold supabase, await.
  change (∀ ans, orderly (Db q) ans = true →
                 ensures orderly P E
                   ((match ans with
                     | Resolved v => Ret v
                     | Rejected e => Throw e
                     end ≫= λ r,
                       data ← lift (get_prop "data" r);
                       error ← lift (get_prop "error" r);
                       mret (data, error)) ≫= k)).
  intros [r | e] Hd; [|done].
  cbn [orderly] in Hd. apply andb_prop in Hd as [Hr Hd].
  apply negb_true_iff in Hr.
  rewrite bind_ret, !(get_prop_defined _ r) by done.
  cbn [lift]. rewrite !bind_ret. by apply Hk.
Qed.

Lemma answers_await {A} eff (P : A → Prop) (E : value → Prop)
    (k : value → prog A) :
  (∀ v, ensures orderly P E (k v)) →
  ensures orderly P E (await eff ≫= k).
Proof.
  intros Hk. unfold await.
  change (∀ ans, orderly eff ans = true →
                 ensures orderly P E
                   (match ans with
                    | Resolved v => Ret v
                    | Rejected e => Throw e
                    end ≫= k)).
  intros [v | e] Hd; [apply Hk | done].
Qed.

Lemma answers_clone_loop nc tasks m :
  nullish nc = false →
  forallb (λ x, negb (nullish x)) tasks = true →
  ensures orderly (λ _, True) (λ _, False) (clone_loop nc tasks m).
Proof.
  intros Hnc. revert m. induction tasks as [| task rest IH]; intros m Htasks;
    [done|].
  cbn in Htasks. apply andb_prop in Htasks as [Htask Hrest].
  apply negb_true_iff in Htask.
  cbn [clone_loop]. rewrite !get_prop_defined by done. cbn [lift].
  rewrite !bind_ret. apply answers_supabase. intros d e _. by apply IH.
Qed.

Ltac answers_step :=
  lazymatch goal with
  | |- ensures _ _ _ (supabase _ ≫= _) =>
      apply answers_supabase; intros ? ? ?
  | |- ensures _ _ _ (await _ ≫= _) => apply answers_await; intros ?
  | |- ensures _ _ _ (if ?b then _ else _) => destruct b eqn:?
  | |- ensures _ _ _ (mret _) => exact I
  end.

Lemma answers_accept_branch request :
  ensures orderly (λ _, True) (λ _, False) (accept_branch request).
Proof.
  unfold accept_branch. apply answers_supabase. intros cl clError Hcl.
  destruct (truthy clError) eqn:HclE; [exact I|].
  cbn in Hcl. apply negb_true_iff in Hcl.
  rewrite get_prop_defined by done. cbn [lift]. rewrite bind_ret.
  apply answers_supabase. intros newCl newClError HnewCl.
  destruct (truthy newClError) eqn:HnewE; [exact I|].
  cbn in HnewCl. apply negb_true_iff in HnewCl.
  unfold clone_tasks. apply answers_supabase. intros tasks tasksError Htasks.
  destruct (truthy tasksError) eqn:HtasksE; [exact I|].
  cbn in Htasks. destruct tasks as [| | | | | l |]; try done.
  cbn [iterate lift]. rewrite bind_ret.
  apply (ensures_bind orderly (λ _, True)); [by apply answers_clone_loop|].
  intros _ _. exact I.
Qed.

Lemma answers_handler (e : endpoint) (req : request) :
  ensures orderly (λ _, True) (λ _, False) (handler e req).
Proof.
  destruct e; unfold_handler.
  all: repeat answers_step.
  - apply (ensures_try_catch _ _ _ (λ e, nullish e = false)).
    + repeat answers_step. by apply truthy_not_nullish.
    + intros err Herr. rewrite get_prop_defined by done. cbn [lift].
      rewrite bind_ret. repeat answers_step.
  - apply (ensures_bind orderly (λ _, True)).
    + repeat answers_step.
    + intros updates _. repeat answers_step.
  - apply answers_accept_branch.
Qed.

(** When every promise resolves and every database reply is an object that
    carries either an error or the data its query asked for, a route answers
    the request, nothing being thrown past its handler, exactly when the
    handler can destructure [req.body] or does not read it.  A handler that
    reads the body of a request that has none ([req.body] is [undefined])
    throws before any call, however orderly the outside world is. *)
Theorem handlers_always_answer {W} `{World W} (e : endpoint) (r : incoming)
    (s : W) :
  forallb (uncurry orderly) (run (serve e r) s).2 = true →
  (reads_body e && nullish (in_body r) = false →
   ∃ resp, result_of (serve e r) s = Returned resp)
  ∧ (reads_body e && nullish (in_body r) = true →
     (∃ err, result_of (serve e r) s = Uncaught err)
     ∧ calls_of (serve e r) s = []).
Proof.
  intros Htrace. split.
  - intros Hbody. rewrite serve_parsed in * by done.
    pose proof (ensures_run orderly (λ _, True) (λ _, False)
                  (handler e (parsed r)) s (answers_handler e (parsed r))
                  Htrace) as Hrun.
    destruct (result_of (handler e (parsed r)) s) as [resp | err];
      [eauto | done].
  - intros Hbody. destruct (serve_without_body e r Hbody) as [err ->].
    split; [by exists err | done].
Qed.

Lemma handlers_always_answer_witness :
  (∃ resp,
     result_of (serve PostShareRequestRespond accept_trip_as_sent)
       partial_clone_script = Returned resp)
  ∧ (∃ err,
       result_of (serve PostShareRequestRespond no_body)
         partial_clone_script = Uncaught err)
  ∧ calls_of (serve PostShareRequestRespond no_body) partial_clone_script
    = [].
Proof.
  split.
  - apply (handlers_always_answer PostShareRequestRespond
             accept_trip_as_sent partial_clone_script); reflexivity.
  - apply (handlers_always_answer PostShareRequestRespond
             no_body partial_clone_script); reflexivity.
Defined.

(** ** Guards: falsy is not the same as missing *)

Lemma guard_falsy_left (a b : value) :
  truthy a = false → negb (truthy a) || negb (truthy b) = true.
Proof. by intros ->. Qed.

Lemma guard_falsy_right (a b : value) :
  truthy b = false → negb (truthy a) || negb (truthy b) = true.
Proof. intros ->. by destruct (truthy a). Qed.

(** The guards written [!x] reject every falsy input, not only a missing
    one: an empty string, [0], [false] or [null] is answered 400 before any
    call.  The timer-log guard compares with [undefined] instead, so any
    value that is present, zero included, reaches the insert. *)
Theorem falsy_inputs_are_rejected_but_zero_seconds_is_logged :
  (∀ (e : endpoint) (req : request) (i : source * string),
     truthiness_guarded e = true →
     i ∈ guarded_inputs e →
     truthy (input req i) = false →
     ∃ msg, handler e req = Ret (json 400 (error_body (VStr msg))))
  ∧ (∀ req : request,
       is_undefined (field "elapsed_seconds" (body req)) = false →
       ∃ k, post_checklist_timer_logs req
            = Await (Db (insert_timer_log (params_id req)
                           (field "elapsed_seconds" (body req)))) k).
Proof.
  split.
  - intros e req [src f] Hg Hin Hfalsy.
    destruct e; try discriminate Hg; simpl in Hin;
      repeat (apply elem_of_cons in Hin as [Heq | Hin];
              [injection Heq as -> -> |]);
      try (by apply elem_of_nil in Hin);
      unfold input in Hfalsy; simpl in Hfalsy;
      unfold_handler; cbn -[truthy];
      try (rewrite guard_falsy_left by done);
      try (rewrite guard_falsy_right by done);
      try (rewrite Hfalsy; cbn [negb]);
      eauto.
  - intros req Hdef. unfold post_checklist_timer_logs. rewrite Hdef.
    unfold supabase, await. cbn. eauto.
Qed.

Lemma falsy_inputs_are_rejected_but_zero_seconds_is_logged_witness :
  (∃ msg, handler PostChecklists untitled_checklist
          = Ret (json 400 (error_body (VStr msg))))
  ∧ ∃ k, post_checklist_timer_logs zero_seconds
         = Await (Db (insert_timer_log "1" (VNum 0))) k.
Proof.
  split.
  - apply (proj1 falsy_inputs_are_rejected_but_zero_seconds_is_logged
             PostChecklists untitled_checklist (InBody, "title")).
    + reflexivity.
    + simpl. right. left.
    + reflexivity.
  - apply (proj2 falsy_inputs_are_rejected_but_zero_seconds_is_logged
             zero_seconds).
    reflexivity.
Defined.

(** ** Which tables a handler can change *)

Lemma execute_read q s : action q = Read → (execute q s).2 = s.
Proof.
  intros Hq. unfold execute. rewrite Hq.
  by destruct (assoc (table q) schema).
Qed.

Lemma answer_untouched eff s t :
  (∀ q, eff = Db q → action q = Read ∨ table q ≠ t) →
  rows (answer eff s).2 t = rows s t.
Proof.
  intros Hq. destruct eff as [q | | |]; try done. cbn.
  destruct (next_fault s) as [[c m]|]; [done|].
  destruct (Hq q eq_refl) as [Hread | Hne].
  - pose proof (execute_read q (without_fault s) Hread) as Hs.
    destruct (execute q (without_fault s)) as [r s1]. cbn in *. by subst.
  - pose proof (execute_frame q (without_fault s) t Hne) as Hf.
    destruct (execute q (without_fault s)) as [r s1]. by cbn in *.
Qed.

Lemma run_untouched {A} (p : prog A) (s : store) (t : string) :
  calls_only (λ q, action q = Read ∨ table q ≠ t) p →
  rows (state_after p s) t = rows s t.
Proof.
  intros Hp. revert s. unfold state_after.
  induction Hp as [a | e | q k Hq Hk IH | r k Hk IH | x y k Hk IH | x y k Hk IH];
    intros s; cbn [run]; try done.
  all: match goal with
       | |- context [answer ?eff ?s0] =>
           pose proof (answer_untouched eff s0 t) as Hf;
           destruct (answer eff s0) as [r1 s1] eqn:Ha;
           specialize (IH r1 s1); destruct (run (k r1) s1) as [[o s2] tr];
           cbn in *; rewrite IH; apply Hf
       end.
  all: try (intros q' [= <-]; done); intros q' [=].
Qed.

Lemma calls_only_weaken (P Q : query → Prop) {A} (p : prog A) :
  (∀ q, P q → Q q) → calls_only P p → calls_only Q p.
Proof. intros HPQ Hp. induction Hp; constructor; auto. Qed.

Lemma calls_only_await (P : query → Prop) eff :
  (∀ q, eff ≠ Db q) → calls_only P (await eff).
Proof.
  intros Heff. unfold await.
  destruct eff as [q | | |]; [by destruct (Heff q) | | |];
    constructor; intros [v | e]; constructor.
Qed.

Ltac calls_step :=
  lazymatch goal with
  | |- calls_only _ (try_catch _ _) => idtac
  | |- calls_only _ (supabase _) =>
      apply calls_only_supabase; unfold reads_or_writes;
      first [by left | right; by_decision]
  | |- calls_only _ (await _) => by apply calls_only_await
  | |- calls_only _ (lift _) => apply calls_only_lift
  | |- calls_only _ (@mbind _ _ (?A * ?B)%type _ _ _) =>
      apply calls_only_bind; [| intros [? ?]]
  | |- calls_only _ (_ ≫= _) => apply calls_only_bind; [| intros ?]
  | |- calls_only _ (if ?b then _ else _) => destruct b
  | |- calls_only _ (mret _) => constructor
  | |- calls_only _ (Throw _) => constructor
  end.

Lemma calls_only_try_catch (P : query → Prop) {A} (p : prog A) h :
  calls_only P p → (∀ e, calls_only P (h e)) → calls_only P (try_catch p h).
Proof. intros Hp Hh. induction Hp; cbn; try done; constructor; auto. Qed.

Lemma handler_calls (e : endpoint) (req : request) :
  calls_only (reads_or_writes (written_tables e)) (handler e req).
Proof.
  destruct e; unfold_handler; cbn [written_tables].
  all: repeat calls_step.
  - apply calls_only_try_catch; [|intros err]; repeat calls_step.
  - apply calls_only_accept_branch. unfold reads_or_writes.
    intros q [-> | ->]; right; by_decision.
Qed.

(** A handler changes no table but its own: reads change nothing, profile
    handlers write [profiles] only, task handlers [tasks] only, and so on;
    the respond handler writes [share_requests], [checklists] and [tasks]
    and never [profiles] or [timer_logs]. *)
Theorem handlers_write_their_tables_only (e : endpoint) (req : request)
    (s : store) (t : string) :
  t ∉ written_tables e →
  rows (state_after (handler e req) s) t = rows s t.
Proof.
  intros Ht. apply run_untouched.
  apply (calls_only_weaken (reads_or_writes (written_tables e)));
    [|apply handler_calls].
  intros q [Hread | Hin]; [by left|]. right. intros Heq. apply Ht.
  by rewrite <- Heq.
Qed.

Lemma handlers_write_their_tables_only_witness :
  rows (state_after (handler PostShareRequestRespond accept_trip) trip_store)
    "profiles" = rows trip_store "profiles".
Proof.
  apply (handlers_write_their_tables_only PostShareRequestRespond accept_trip
           trip_store "profiles").
  by_decision.
Defined.

(** ** Other paths of the respond handler *)

Lemma strict_eq_str_eq v lit : strict_eq_str v lit = true → v = VStr lit.
Proof.
  destruct v; try done. cbn. by intros ->%String.eqb_eq.
Qed.

(** Rejecting a pending request marks it rejected with two calls, answers
    200, and copies nothing. *)
Theorem reject_marks_and_copies_nothing (s : store) (req : request) (r : obj) :
  strict_eq_str (field "action" (body req)) "reject" = true →
  calm 2 s = true →
  requests_with_id s (params_id req) = [r] →
  strict_eq_str (field "status" r) "pending" = true →
  let p := post_share_request_respond req in
  result_of p s = Returned (json 200 (message_body "Rejected share request"))
  ∧ calls_of p s = [Db (lookup_request (params_id req));
                    Db (mark_request (params_id req) "rejected")]
  ∧ rows (state_after p s) "share_requests"
    = marked (params_id req) "rejected" (rows s "share_requests")
  ∧ rows (state_after p s) "checklists" = rows s "checklists"
  ∧ rows (state_after p s) "tasks" = rows s "tasks".
Proof.
  intros Hrej Hcalm Hr Hst p.
  pose proof (calm_next _ _ Hcalm) as Hnf.
  pose proof (calm_next _ _ (calm_without_fault _ _ Hcalm)) as Hnf'.
  apply strict_eq_str_eq in Hrej as Haction.
  unfold result_of, calls_of, state_after, p, post_share_request_respond.
  rewrite Haction. cbn [includes existsb strict_eq_str String.eqb Ascii.eqb
                          Bool.eqb orb negb].
  rewrite (run_supabase_memory (lookup_request (params_id req))).
  rewrite lookup_request_step. cbn [fst snd]. rewrite Hnf, Hr.
  cbn [destructured truthy orb negb member]. rewrite Hst. cbn [negb].
  rewrite (run_supabase_memory (mark_request (params_id req) "rejected")).
  rewrite mark_request_step by done.
  cbn -[rows with_table marked lookup_request mark_request].
  rewrite rows_with_table_eq, !rows_with_table_ne by done. done.
Qed.

Lemma reject_marks_and_copies_nothing_witness :
  result_of (post_share_request_respond reject_trip) trip_store
  = Returned (json 200 (message_body "Rejected share request"))
  ∧ calls_of (post_share_request_respond reject_trip) trip_store
    = [Db (lookup_request "4"); Db (mark_request "4" "rejected")]
  ∧ rows (state_after (post_share_request_respond reject_trip) trip_store)
      "share_requests"
    = marked "4" "rejected" (rows trip_store "share_requests")
  ∧ rows (state_after (post_share_request_respond reject_trip) trip_store)
      "checklists" = rows trip_store "checklists"
  ∧ rows (state_after (post_share_request_respond reject_trip) trip_store)
      "tasks" = rows trip_store "tasks".
Proof.
  apply (reject_marks_and_copies_nothing trip_store reject_trip trip_request);
    reflexivity.
Defined.

(** When the status update itself fails, the caller gets a 500 with the
    error of the update, no table has changed (the request is still pending)
    and the cloner is never entered. *)
Theorem failed_status_update_changes_nothing (s : store) (req : request)
    (r : obj) (code msg : string) :
  includes ["accept"; "reject"] (field "action" (body req)) = true →
  next_fault s = None →
  requests_with_id s (params_id req) = [r] →
  strict_eq_str (field "status" r) "pending" = true →
  faults s !! 1%nat = Some (Some (code, msg)) →
  let p := post_share_request_respond req in
  result_of p s = Returned (json 500 (error_body (VStr msg)))
  ∧ tables (state_after p s) = tables s
  ∧ length (calls_of p s) = 2%nat.
Proof.
  intros Hinc Hnf Hr Hst Hfault p.
  assert (next_fault (without_fault s) = Some (code, msg)) as Hnf'.
  { rewrite next_fault_lookup. cbn [faults without_fault].
    by rewrite fault_lookup_tail, Hfault. }
  unfold result_of, calls_of, state_after, p, post_share_request_respond.
  rewrite Hinc. cbn [negb].
  rewrite (run_supabase_memory (lookup_request (params_id req))).
  rewrite lookup_request_step. cbn [fst snd]. rewrite Hnf, Hr.
  cbn [destructured truthy orb negb member]. rewrite Hst. cbn [negb].
  match goal with
  | |- context [supabase ?q ≫= _] => rewrite (run_supabase_memory q)
  end.
  unfold db_step. rewrite Hnf'. done.
Qed.

Lemma failed_status_update_changes_nothing_witness :
  result_of (post_share_request_respond accept_trip) trip_store_update_fails
  = Returned (json 500 (error_body (VStr "connection failure")))
  ∧ tables (state_after (post_share_request_respond accept_trip)
              trip_store_update_fails)
    = tables trip_store_update_fails
  ∧ length (calls_of (post_share_request_respond accept_trip)
              trip_store_update_fails) = 2%nat.
Proof.
  apply (failed_status_update_changes_nothing trip_store_update_fails
           accept_trip trip_request "08006" "connection failure");
    reflexivity.
Defined.

(** The clone is not transactional: when the fetch of the tasks fails after
    the checklist has been copied, the caller gets a 500 while the copy of
    the checklist stays in the database, without any task. *)
Theorem failed_task_fetch_leaves_the_copy (s : store) (req : request)
    (r c : obj) (code msg : string) :
  strict_eq_str (field "action" (body req)) "accept" = true →
  requests_with_id s (params_id req) = [r] →
  strict_eq_str (field "status" r) "pending" = true →
  checklists_with_id s (field "checklist_id" r) = [c] →
  calm 4 s = true →
  faults s !! 4%nat = Some (Some (code, msg)) →
  let p := post_share_request_respond req in
  result_of p s = Returned (json 500 (error_body (VStr msg)))
  ∧ rows (state_after p s) "checklists"
    = rows s "checklists"
      ++ [copied_checklist s (field "receiver_id" r) (field "title" c)]
  ∧ rows (state_after p s) "tasks" = rows s "tasks".
Proof.
  intros Hacc Hr Hst Hc Hcalm Hfault p.
  unfold result_of, state_after, p.
  rewrite (respond_accept_run s req r) by
    first [done | apply (calm_le 2 4); [lia | done]].
  set (s2 := with_mark s (params_id req) "accepted").
  rewrite (accept_branch_calm s2 r c);
    [ | by apply calm_with_mark
      | unfold s2; by rewrite checklists_with_mark ].
  cbv zeta. change (copied_checklist (without_fault s2) _ _)
    with (copied_checklist s (field "receiver_id" r) (field "title" c)).
  set (new := copied_checklist s _ _).
  rewrite (clone_tasks_fault _ _ _ code msg).
  2: { rewrite next_fault_lookup, faults_with_copy. cbn [faults without_fault].
       unfold s2. rewrite faults_with_mark.
       destruct (faults s) as [| f0 [| f1 [| f2 [| f3 l]]]]; try done.
       change (l !! 0%nat = Some (Some (code, msg))) in Hfault.
       change (drop 1 (tail (drop 2 (f0 :: f1 :: f2 :: f3 :: l)))) with l.
       by rewrite Hfault. }
  cbn [fst snd]. split; [done|]. split.
  - unfold with_copy.
    rewrite rows_without_fault, rows_ticked, rows_with_table_eq.
    unfold s2, with_mark.
    by rewrite !rows_without_fault, rows_with_table_ne.
  - unfold s2. by rewrite rows_before_loop.
Qed.

Lemma failed_task_fetch_leaves_the_copy_witness :
  result_of (post_share_request_respond accept_trip) trip_store_tasks_fail
  = Returned (json 500 (error_body (VStr "connection failure")))
  ∧ rows (state_after (post_share_request_respond accept_trip)
            trip_store_tasks_fail) "checklists"
    = rows trip_store_tasks_fail "checklists"
      ++ [copied_checklist trip_store_tasks_fail (VNum 11) (VStr "Trip")]
  ∧ rows (state_after (post_share_request_respond accept_trip)
            trip_store_tasks_fail) "tasks"
    = rows trip_store_tasks_fail "tasks".
Proof.
  apply (failed_task_fetch_leaves_the_copy trip_store_tasks_fail accept_trip
           trip_request trip_checklist "08006" "connection failure");
    reflexivity.
Defined.

(** ** Profiles *)

Lemma run_await_resolved {A} eff (k : value → prog A) v (rest : list settled) :
  run (await eff ≫= k) (Resolved v :: rest) =
    let '(o, s', t) := run (k v) rest in (o, s', (eff, Resolved v) :: t).
Proof.
  rewrite run_bind. unfold await. cbn.
  by destruct (run (k v) rest) as [[o s'] t].
Qed.

Lemma run_await_rejected {A} eff (k : value → prog A) e (rest : list settled) :
  run (await eff ≫= k) (Rejected e :: rest)
  = (Uncaught e, rest, [(eff, Rejected e)]).
Proof. rewrite run_bind. unfold await. by cbn. Qed.

Lemma run_try_catch {W} `{World W} {A} (p : prog A) (h : value → prog A) (s : W) :
  run (try_catch p h) s =
    match run p s with
    | (Returned a, s1, t1) => (Returned a, s1, t1)
    | (Uncaught e, s1, t1) =>
        let '(o, s2, t2) := run (h e) s1 in (o, s2, t1 ++ t2)
    end.
Proof.
  revert s. induction p as [a | e | eff k IH]; intros s; cbn.
  - done.
  - by destruct (run (h e) s) as [[o s2] t2].
  - destruct (answer eff s) as [r s1]. rewrite IH.
    destruct (run (k r) s1) as [[[a | e] s2] t]; [done|].
    by destruct (run (h e) s2) as [[o s3] t2].
Qed.

(** Creating a profile: the password goes through bcrypt and only its hash
    is sent to the database; the reply decides between 201, 409 for the
    unique-violation code and 500 for any other error; a failure of bcrypt
    itself is caught and answered the same way. *)
Theorem profile_creation_outcomes (req : request) :
  truthy (field "name" (body req)) = true →
  truthy (field "password" (body req)) = true →
  let name := field "name" (body req) in
  let password := field "password" (body req) in
  let avatar := field "avatar_url" (body req) in
  (∀ salt h data error rest,
     let script := [Resolved salt; Resolved h; answered data error] ++ rest in
     calls_of (post_profiles req) script
     = [GenSalt (VNum 10); Hash password salt; Db (insert_profile name h avatar)]
     ∧ result_of (post_profiles req) script
       = Returned
           (if truthy error
            then if strict_eq_str (member "code" error) "23505"
                 then json 409 (error_body (VStr "Profile name already exists"))
                 else json 500 (error_body (member "message" error))
            else json 201 data))
  ∧ (∀ e rest,
       nullish e = false →
       result_of (post_profiles req) (Rejected e :: rest)
       = Returned
           (if strict_eq_str (member "code" e) "23505"
            then json 409 (error_body (VStr "Profile name already exists"))
            else json 500 (error_body (member "message" e)))
       ∧ calls_of (post_profiles req) (Rejected e :: rest)
         = [GenSalt (VNum 10)]).
Proof.
  intros Hname Hpw name password avatar. subst name password avatar.
  assert (∀ e (rest : list settled),
            nullish e = false →
            run (lift (get_prop "code" e) ≫= λ code,
                   if strict_eq_str code "23505"
                   then mret (json 409
                                (error_body (VStr "Profile name already exists")))
                   else mret (json 500 (error_body (member "message" e))))
              rest
            = (Returned
                 (if strict_eq_str (member "code" e) "23505"
                  then json 409 (error_body (VStr "Profile name already exists"))
                  else json 500 (error_body (member "message" e))),
               rest, [])) as Hcatch.
  { intros e rest He. rewrite get_prop_defined by done. cbn [lift].
    rewrite bind_ret. by destruct (strict_eq_str _ _). }
  split.
  - intros salt h data error rest script.
    unfold result_of, calls_of, post_profiles.
    rewrite Hname, Hpw. cbn [negb orb]. rewrite run_try_catch.
    unfold script. cbn [app]. rewrite run_await_resolved, run_await_resolved.
    unfold answered.
    rewrite (run_supabase_script
               (insert_profile (field "name" (body req)) h
                  (field "avatar_url" (body req)))).
    destruct (truthy error) eqn:He; [|done].
    cbn [run]. rewrite Hcatch by (by apply truthy_not_nullish).
    by destruct (strict_eq_str _ _).
  - intros e rest He.
    unfold result_of, calls_of, post_profiles. rewrite Hname, Hpw.
    cbn [negb orb]. rewrite run_try_catch, run_await_rejected.
    rewrite Hcatch by done. by destruct (strict_eq_str _ _).
Qed.

Lemma profile_creation_outcomes_witness :
  calls_of (post_profiles sign_up)
    ([Resolved (VStr "salt"); Resolved (VStr "$2a$hash");
      answered VNull duplicate_name] ++ [])
  = [GenSalt (VNum 10); Hash (VStr "secret") (VStr "salt");
     Db (insert_profile (VStr "Ann") (VStr "$2a$hash") VUndefined)]
  ∧ result_of (post_profiles sign_up)
      ([Resolved (VStr "salt"); Resolved (VStr "$2a$hash");
        answered VNull duplicate_name] ++ [])
    = Returned (json 409 (error_body (VStr "Profile name already exists"))).
Proof.
  apply (proj1 (profile_creation_outcomes sign_up eq_refl eq_refl)
           (VStr "salt") (VStr "$2a$hash") VNull duplicate_name []).
Defined.

Lemma field_without k h (o : list (string * value)) :
  field k (filter (λ kv : string * value, kv.1 ≠ h) o)
  = if String.eqb k h then VUndefined else field k o.
Proof.
  induction o as [| [k' v] o IH].
  - by destruct (String.eqb k h).
  - destruct (decide (k' = h)) as [-> | Hk'].
    + rewrite filter_cons_False by (cbn; by intros []). rewrite IH. cbn.
      by destruct (String.eqb_spec k h).
    + rewrite filter_cons_True by done. cbn. rewrite IH.
      destruct (String.eqb_spec k k') as [-> |]; [|done].
      by destruct (String.eqb_spec k' h).
Qed.

(** Logging in: an unknown profile is answered 404 without calling bcrypt;
    with the right password the answer is the stored profile with every
    property but [password_hash]. *)
Theorem login_outcomes (req : request) :
  truthy (field "profile_id" (body req)) = true →
  truthy (field "password" (body req)) = true →
  let id := field "profile_id" (body req) in
  let password := field "password" (body req) in
  (∀ profile error rest,
     truthy error || negb (truthy profile) = true →
     result_of (post_profiles_login req) (answered profile error :: rest)
     = Returned (json 404 (error_body (VStr "Profile not found")))
     ∧ calls_of (post_profiles_login req) (answered profile error :: rest)
       = [Db (lookup_profile id)])
  ∧ (∀ (profile : obj) isMatch rest,
       truthy isMatch = true →
       ∃ safe : obj,
         result_of (post_profiles_login req)
           (ok (VObj profile) :: Resolved isMatch :: rest)
         = Returned (json 200 (VObj safe))
         ∧ calls_of (post_profiles_login req)
             (ok (VObj profile) :: Resolved isMatch :: rest)
           = [Db (lookup_profile id);
              Compare password (field "password_hash" profile)]
         ∧ ∀ k, field k safe
                = if String.eqb k "password_hash" then VUndefined
                  else field k profile).
Proof.
  intros Hid Hpw id password. subst id password. split.
  - intros profile error rest Hmissing.
    unfold result_of, calls_of, post_profiles_login. rewrite Hid, Hpw.
    cbn [negb orb]. unfold answered.
    rewrite (run_supabase_script
               (lookup_profile (field "profile_id" (body req)))).
    by rewrite Hmissing.
  - intros profile isMatch rest Hmatch.
    exists (filter (λ kv : string * value, kv.1 ≠ "password_hash") profile).
    unfold result_of, calls_of, post_profiles_login. rewrite Hid, Hpw.
    cbn [negb orb]. unfold ok.
    rewrite (run_supabase_script
               (lookup_profile (field "profile_id" (body req)))).
    cbn [truthy orb negb member]. rewrite run_await_resolved, Hmatch.
    split; [done|]. split; [done|]. intros k. apply field_without.
Qed.

Lemma login_outcomes_witness :
  ∃ safe : obj,
    result_of (post_profiles_login good_login)
      (ok stored_profile :: Resolved (VBool true) :: [])
    = Returned (json 200 (VObj safe))
    ∧ calls_of (post_profiles_login good_login)
        (ok stored_profile :: Resolved (VBool true) :: [])
      = [Db (lookup_profile (VNum 10));
         Compare (VStr "secret") (VStr "$2a$10$x")]
    ∧ ∀ k, field k safe
           = if String.eqb k "password_hash" then VUndefined
             else member k stored_profile.
Proof.
  apply (proj2 (login_outcomes good_login eq_refl eq_refl)
           [("id", VNum 10); ("name", VStr "Ann");
            ("password_hash", VStr "$2a$10$x");
            ("avatar_url", VNull); ("created_at", VNum 1)]
           (VBool true) []).
  reflexivity.
Defined.

(** Updating a profile: the name is written only when it is truthy, the
    avatar whenever the body defines it ([null] clears it), and a password
    hash only when a password is given, in which case the hash and never the
    password is sent.  A failure of bcrypt is not caught here: the handler
    dies without answering. *)
Theorem profile_update_fields (req : request) :
  let name := field "name" (body req) in
  let password := field "password" (body req) in
  let avatar := field "avatar_url" (body req) in
  let shared (u : obj) :=
    field "name" u = (if truthy name then name else VUndefined)
    ∧ field "avatar_url" u = avatar
    ∧ has_field "avatar_url" u = negb (is_undefined avatar)
    ∧ field "password" u = VUndefined in
  (truthy password = false →
   ∀ data error rest,
     ∃ u, calls_of (put_profile req) (answered data error :: rest)
          = [Db (update_profile (params_id req) u)]
          ∧ shared u ∧ has_field "password_hash" u = false)
  ∧ (truthy password = true →
     ∀ salt h data error rest,
       ∃ u, calls_of (put_profile req)
              (Resolved salt :: Resolved h :: answered data error :: rest)
            = [GenSalt (VNum 10); Hash password salt;
               Db (update_profile (params_id req) u)]
            ∧ shared u ∧ field "password_hash" u = h)
  ∧ (truthy password = true →
     ∀ e rest,
       result_of (put_profile req) (Rejected e :: rest) = Uncaught e).
Proof.
  intros name password avatar shared. subst name password avatar shared.
  cbv beta. split; [|split]; intros Hpw.
  - intros data error rest. unfold calls_of, put_profile. rewrite Hpw.
    cbv iota. change (mret ?u ≫= ?k) with (k u). cbv beta. unfold answered.
    eexists. match goal with
    | |- context [supabase ?q ≫= _] => rewrite (run_supabase_script q)
    end.
    split.
    { by destruct (truthy error). }
    destruct (truthy (field "name" (body req))),
      (field "avatar_url" (body req)); by cbn.
  - intros salt h data error rest. unfold calls_of, put_profile. rewrite Hpw.
    cbv iota. eexists.
    rewrite run_bind, run_await_resolved, run_await_resolved.
    cbn [run mret prog_mret]. unfold answered.
    match goal with
    | |- context [supabase ?q ≫= _] => rewrite (run_supabase_script q)
    end.
    split.
    { by destruct (truthy error). }
    destruct (truthy (field "name" (body req))),
      (field "avatar_url" (body req)); by cbn.
  - intros e rest. unfold result_of, put_profile. rewrite Hpw. cbv iota.
    by rewrite run_bind, run_await_rejected.
Qed.

Lemma profile_update_fields_witness :
  ∃ u, calls_of (put_profile rename_profile) (answered VNull VNull :: [])
       = [Db (update_profile "10" u)]
       ∧ (field "name" u = VStr "Anna"
          ∧ field "avatar_url" u = VNull
          ∧ has_field "avatar_url" u = true
          ∧ field "password" u = VUndefined)
       ∧ has_field "password_hash" u = false.
Proof.
  apply (proj1 (profile_update_fields rename_profile) eq_refl VNull VNull []).
Defined.

(** ** Deleting rows *)

Lemma delete_step s t cols id :
  assoc t schema = Some cols →
  next_fault s = None →
  db_step (delete_by_id t id) s
  = (inl VNull, with_table (without_fault s) t (without_id id (rows s t))).
Proof.
  intros Ht Hnf. unfold db_step. rewrite Hnf. unfold execute.
  cbn [table action delete_by_id from delete_rows eq_filter]. rewrite Ht.
  unfold shaped. cbn. f_equal. f_equal. unfold without_id.
  apply List.filter_ext. intros r. cbn. by rewrite andb_true_r.
Qed.

Lemma without_id_absent id (l : list obj) :
  List.filter (λ r, matches r ("id", VStr id)) l = [] → without_id id l = l.
Proof.
  unfold without_id. induction l as [| r l IH]; [done|]. cbn.
  destruct (matches r ("id", VStr id)); [done|]. cbn. intros H.
  by rewrite IH.
Qed.

(** Deleting a task removes the rows carrying that id and nothing else:
    sub-tasks that point at it stay, and an id that matches no row is
    answered 204 all the same, with the table unchanged.  A database failure
    is answered 500 and removes nothing. *)
Theorem task_deletion (s : store) (req : request) :
  (next_fault s = None →
   result_of (delete_task req) s = Returned (send 204)
   ∧ rows (state_after (delete_task req) s) "tasks"
     = without_id (params_id req) (rows s "tasks")
   ∧ (tasks_with_id s (params_id req) = [] →
      rows (state_after (delete_task req) s) "tasks" = rows s "tasks"))
  ∧ (∀ code msg,
       next_fault s = Some (code, msg) →
       result_of (delete_task req) s
       = Returned (json 500 (error_body (VStr msg)))
       ∧ tables (state_after (delete_task req) s) = tables s).
Proof.
  split.
  - intros Hnf. unfold result_of, state_after, delete_task.
    rewrite (run_supabase_memory (delete_by_id "tasks" (params_id req))).
    rewrite (delete_step s "tasks" _ _ eq_refl Hnf).
    cbn -[rows with_table without_id]. rewrite rows_with_table_eq.
    split; [done|]. split; [done|]. intros Hnone.
    by apply without_id_absent.
  - intros code msg Hnf. unfold result_of, state_after, delete_task.
    rewrite (run_supabase_memory (delete_by_id "tasks" (params_id req))).
    unfold db_step. rewrite Hnf. done.
Qed.

Lemma task_deletion_witness :
  result_of (delete_task delete_nothing) trip_store = Returned (send 204)
  ∧ rows (state_after (delete_task delete_nothing) trip_store) "tasks"
    = without_id "99" (rows trip_store "tasks")
  ∧ (tasks_with_id trip_store "99" = [] →
     rows (state_after (delete_task delete_nothing) trip_store) "tasks"
     = rows trip_store "tasks").
Proof.
  apply (proj1 (task_deletion trip_store delete_nothing)). reflexivity.
Defined.

Lemma db_step_read q s :
  action q = Read → tables (db_step q s).2 = tables s.
Proof.
  intros Hq. unfold db_step. destruct (next_fault s) as [[c m]|]; [done|].
  by rewrite execute_read.
Qed.

Lemma bcrypt_db_step q s : bcrypt (db_step q s).2 = bcrypt s.
Proof.
  unfold db_step. destruct (next_fault s) as [[c m]|]; [done|].
  unfold execute. destruct (assoc (table q) schema) as [cols|]; [|done].
  destruct (action q) as [| l | c |]; cbn; try done.
  - destruct l as [| [] [|]]; try done.
    destruct (known_columns cols fields); [|done].
    match goal with
    | |- context [shaped ?a ?b ?c] => destruct (shaped a b c)
    end; done.
  - destruct c; try done.
    destruct (known_columns cols (written fields)); [|done].
    match goal with
    | |- context [shaped ?a ?b ?c] => destruct (shaped a b c)
    end; done.
  - match goal with
    | |- context [shaped ?a ?b ?c] => destruct (shaped a b c)
    end; done.
Qed.

Lemma run_await_memory {A} eff (k : value → prog A) (s : store) :
  (∀ q, eff ≠ Db q) →
  run (await eff ≫= k) s =
    match bcrypt s eff with
    | Resolved v =>
        let '(o, s', t) := run (k v) s in (o, s', (eff, Resolved v) :: t)
    | Rejected e => (Uncaught e, s, [(eff, Rejected e)])
    end.
Proof.
  intros Heff. rewrite run_bind. unfold await.
  destruct eff as [q | | |]; [by destruct (Heff q) | | |]; cbn;
    match goal with
    | |- context [bcrypt s ?eff] => destruct (bcrypt s eff) as [v | e]
    end; cbn; try done;
    by destruct (run (k v) s) as [[o s'] t].
Qed.

Lemma mapM_project_hash s t l :
  mapM (project s t (Cols [Col "password_hash"])) l
  = Some ((λ r, [("password_hash", wire (field "password_hash" r))]) <$> l).
Proof. induction l as [| r l IH]; [done|]. cbn. by rewrite IH. Qed.

Lemma lookup_hash_step s id :
  next_fault s = None →
  db_step (lookup_hash id) s
  = (match profiles_with_id s id with
     | [p] => inl (VObj [("password_hash", wire (field "password_hash" p))])
     | _ => inr not_single
     end,
     without_fault s).
Proof.
  intros Hnf. unfold db_step. rewrite Hnf. unfold execute. cbn.
  rewrite (hits_one_filter _ _ "id" id) by done. cbn [table].
  rewrite rows_without_fault.
  unfold shaped. cbn. rewrite mapM_project_hash. unfold ordered.
  change (List.filter _ (rows s "profiles")) with (profiles_with_id s id).
  by destruct (profiles_with_id s id) as [| p [| p' l]].
Qed.

(** Deleting a checklist is guarded by the password of the profile named in
    the body.  Unless the database finds exactly one profile under that id
    and bcrypt accepts the password for the hash of that profile, nothing is
    deleted and the answer is never 204; what bcrypt says of any other hash
    does not matter.  With the profile found and the password accepted for
    its hash, the rows with the id of the path are removed and the answer is
    204. *)
Theorem checklist_deletion_needs_the_password (s : store) (req : request) :
  let password := field "password" (body req) in
  let id := field "profile_id" (body req) in
  ((∀ p v,
      profiles_with_id s id = [p] →
      bcrypt s (Compare password (wire (field "password_hash" p)))
      = Resolved v →
      truthy v = false) →
   tables (state_after (delete_checklist req) s) = tables s
   ∧ result_of (delete_checklist req) s ≠ Returned (send 204))
  ∧ (∀ p v,
       truthy id = true → truthy password = true →
       calm 2 s = true →
       profiles_with_id s id = [p] →
       bcrypt s (Compare password (wire (field "password_hash" p)))
       = Resolved v →
       truthy v = true →
       result_of (delete_checklist req) s = Returned (send 204)
       ∧ rows (state_after (delete_checklist req) s) "checklists"
         = without_id (params_id req) (rows s "checklists")).
Proof.
  intros password id. subst password id. split.
  - intros Hstrict. unfold result_of, state_after, delete_checklist.
    destruct (negb (truthy (field "profile_id" (body req)))
              || negb (truthy (field "password" (body req)))); [done|].
    rewrite (run_supabase_memory
               (lookup_hash (field "profile_id" (body req)))).
    destruct (next_fault s) as [[code msg]|] eqn:Hnf.
    { unfold db_step. by rewrite Hnf. }
    rewrite (lookup_hash_step _ _ Hnf). cbn [fst snd].
    destruct (profiles_with_id s (field "profile_id" (body req)))
      as [| p [| p' l]] eqn:Hp; [done | | done].
    cbn [destructured truthy orb negb member field String.eqb Ascii.eqb
           Bool.eqb].
    rewrite run_await_memory by done.
    change (bcrypt (without_fault s)) with (bcrypt s).
    destruct (bcrypt s _) as [v | e] eqn:Hv; [|done].
    by rewrite (Hstrict p v eq_refl Hv).
  - intros p v Hid Hpw Hcalm Hp Hv Hmatch.
    pose proof (calm_next _ _ Hcalm) as Hnf.
    pose proof (calm_next _ _ (calm_without_fault _ _ Hcalm)) as Hnf'.
    unfold result_of, state_after, delete_checklist. rewrite Hid, Hpw.
    cbn [negb orb].
    rewrite (run_supabase_memory
               (lookup_hash (field "profile_id" (body req)))).
    rewrite (lookup_hash_step _ _ Hnf), Hp. cbn [fst snd].
    cbn [destructured truthy orb negb member field String.eqb Ascii.eqb
           Bool.eqb].
    rewrite run_await_memory by done.
    change (bcrypt (without_fault s)) with (bcrypt s). rewrite Hv, Hmatch.
    cbn [negb].
    rewrite (run_supabase_memory (delete_by_id "checklists" (params_id req))).
    rewrite (delete_step _ "checklists" _ _ eq_refl Hnf').
    cbn -[rows with_table without_id]. by rewrite rows_with_table_eq.
Qed.

Lemma checklist_deletion_needs_the_password_witness :
  (tables (state_after (delete_checklist delete_trip)
             (Store tables_with_ann 5 5 [] picky_bcrypt))
   = tables_with_ann
   ∧ result_of (delete_checklist delete_trip)
       (Store tables_with_ann 5 5 [] picky_bcrypt)
     ≠ Returned (send 204))
  ∧ (result_of (delete_checklist delete_trip)
       (Store tables_with_ann 5 5 [] lenient_bcrypt)
     = Returned (send 204)
     ∧ rows (state_after (delete_checklist delete_trip)
               (Store tables_with_ann 5 5 [] lenient_bcrypt)) "checklists"
       = without_id "1" (rows (Store tables_with_ann 5 5 [] lenient_bcrypt)
                           "checklists")).
Proof.
  split.
  - apply (proj1 (checklist_deletion_needs_the_password
                    (Store tables_with_ann 5 5 [] picky_bcrypt) delete_trip)).
    intros p v [= <-] [= <-]. reflexivity.
  - apply (proj2 (checklist_deletion_needs_the_password
                    (Store tables_with_ann 5 5 [] lenient_bcrypt) delete_trip)
             ann (VBool true)); reflexivity.
Defined.

(** ** The list endpoints *)

Lemma mapM_Some_id {A} (l : list A) : mapM (λ x, Some x) l = Some l.
Proof. induction l as [| x l IH]; [done|]. cbn. by rewrite IH. Qed.

Lemma insert_by_Permutation {A} (leb : A → A → bool) x l :
  insert_by leb x l ≡ₚ x :: l.
Proof.
  induction l as [| y l IH]; cbn; [done|].
  destruct (leb x y); [done|]. rewrite IH. apply Permutation_swap.
Qed.

Lemma sort_by_Permutation {A} (leb : A → A → bool) l : sort_by leb l ≡ₚ l.
Proof.
  induction l as [| x l IH]; cbn; [done|].
  rewrite insert_by_Permutation. by rewrite IH.
Qed.

Lemma sort_by_ascending c l : ascending_in c (sort_by (cell_leb c) l).
Proof.
  intros j k rj rk a b Hj Hk Ha Hb Hab.
  pose proof (sort_by_StronglySorted (cell_leb c)
                (cell_leb_total _) (cell_leb_trans _) l) as Hs.
  destruct (decide (j < k)%nat) as [|Hge]; [done|].
  destruct (decide (j = k)) as [-> |].
  - rewrite Hj in Hk. injection Hk as ->. rewrite Ha in Hb.
    injection Hb as ->. lia.
  - assert (k < j)%nat as Hlt by lia.
    pose proof (StronglySorted_lookup _ _ _ _ _ _ Hs Hk Hj Hlt) as Hle.
    unfold below, cell_leb in Hle. rewrite Ha, Hb in Hle.
    apply Z.leb_le in Hle. lia.
Qed.

Lemma sort_by_descending c l :
  descending_in c (sort_by (λ x y, cell_leb c y x) l).
Proof.
  intros j k rj rk a b Hj Hk Ha Hb Hab.
  pose proof (sort_by_StronglySorted (λ x y, cell_leb c y x)
                (λ x y, cell_leb_total c y x)
                (λ x y z H1 H2, cell_leb_trans c z y x H2 H1) l) as Hs.
  destruct (decide (k < j)%nat) as [|Hge]; [done|].
  destruct (decide (j = k)) as [-> |].
  - rewrite Hj in Hk. injection Hk as ->. rewrite Ha in Hb.
    injection Hb as ->. lia.
  - assert (j < k)%nat as Hlt by lia.
    pose proof (StronglySorted_lookup _ _ _ _ _ _ Hs Hj Hk Hlt) as Hle.
    unfold below, cell_leb in Hle. rewrite Ha, Hb in Hle.
    apply Z.leb_le in Hle. lia.
Qed.

Lemma listing_step s t cols c v by_column ascending :
  assoc t schema = Some cols →
  next_fault s = None →
  db_step (listing t c v by_column ascending) s
  = (inl (VArr (VObj <$> ordered (Some (by_column, ascending))
                           (selected s t c v))),
     without_fault s).
Proof.
  intros Ht Hnf. unfold db_step. rewrite Hnf. unfold execute.
  cbn [table action listing from select eq_filter order]. rewrite Ht.
  rewrite (hits_one_filter _ _ c v) by done. cbn [table].
  rewrite rows_without_fault. fold (selected s t c v).
  unfold shaped. cbn. unfold project. by rewrite mapM_Some_id.
Qed.

Lemma listing_fault s q code msg :
  next_fault s = Some (code, msg) →
  db_step q s = (inr (pg_error code msg), without_fault s).
Proof. intros Hnf. unfold db_step. by rewrite Hnf. Qed.

(** [GET /api/checklists/:id/tasks] answers 200 with exactly the tasks
    whose checklist is the one of the path, each once, by ascending order
    number; it changes nothing.  When the database fails the answer is 500
    with the database's message. *)
Theorem task_list_is_complete_and_ordered (s : store) (req : request) :
  (next_fault s = None →
   ∃ l,
     result_of (get_checklist_tasks req) s
     = Returned (json 200 (VArr (VObj <$> l)))
     ∧ l ≡ₚ selected s "tasks" "checklist_id" (VStr (params_id req))
     ∧ ascending_in "order_num" l)
  ∧ (∀ code msg,
       next_fault s = Some (code, msg) →
       result_of (get_checklist_tasks req) s
       = Returned (json 500 (error_body (VStr msg))))
  ∧ tables (state_after (get_checklist_tasks req) s) = tables s.
Proof.
  unfold result_of, state_after, get_checklist_tasks.
  rewrite (run_supabase_memory
             (listing "tasks" "checklist_id" (VStr (params_id req))
                "order_num" true)).
  split; [|split].
  - intros Hnf. rewrite (listing_step s "tasks" _ _ _ _ _ eq_refl Hnf).
    eexists. split; [reflexivity|]. split.
    + apply sort_by_Permutation.
    + apply sort_by_ascending.
  - intros code msg Hnf. by rewrite (listing_fault _ _ _ _ Hnf).
  - pose proof (db_step_read
                  (listing "tasks" "checklist_id" (VStr (params_id req))
                     "order_num" true) s eq_refl) as Htables.
    destruct (db_step _ s) as [[d | e] s1]; cbn [fst snd destructured] in *.
    + done.
    + by destruct (truthy e).
Qed.

Lemma task_list_is_complete_and_ordered_witness :
  (∃ l,
     result_of (get_checklist_tasks list_trip) listed_store
     = Returned (json 200 (VArr (VObj <$> l)))
     ∧ l ≡ₚ selected listed_store "tasks" "checklist_id" (VStr "1")
     ∧ ascending_in "order_num" l)
  ∧ result_of (get_checklist_tasks list_trip)
      (Store listed_tables 8 8 [Some connection_lost] no_bcrypt)
    = Returned (json 500 (error_body (VStr connection_lost.2))).
Proof.
  split.
  - apply (proj1 (task_list_is_complete_and_ordered listed_store list_trip)).
    reflexivity.
  - apply (proj1 (proj2 (task_list_is_complete_and_ordered
                           (Store listed_tables 8 8 [Some connection_lost]
                              no_bcrypt) list_trip)) connection_lost.1).
    reflexivity.
Defined.

(** The timer logs of a checklist and the checklists of a profile are
    listed newest first: every row of the table that matches, each once, by
    descending creation time.  The checklists are listed only for a truthy
    [profile_id] in the query string. *)
Theorem logs_and_checklists_are_listed_newest_first (s : store)
    (req : request) :
  next_fault s = None →
  (∃ l,
     result_of (get_checklist_timer_logs req) s
     = Returned (json 200 (VArr (VObj <$> l)))
     ∧ l ≡ₚ selected s "timer_logs" "checklist_id" (VStr (params_id req))
     ∧ descending_in "created_at" l)
  ∧ (truthy (field "profile_id" (req_query req)) = true →
     ∃ l,
       result_of (get_checklists req) s
       = Returned (json 200 (VArr (VObj <$> l)))
       ∧ l ≡ₚ selected s "checklists" "profile_id"
                (field "profile_id" (req_query req))
       ∧ descending_in "created_at" l).
Proof.
  intros Hnf. split.
  - unfold result_of, get_checklist_timer_logs.
    rewrite (run_supabase_memory
               (listing "timer_logs" "checklist_id" (VStr (params_id req))
                  "created_at" false)).
    rewrite (listing_step s "timer_logs" _ _ _ _ _ eq_refl Hnf).
    eexists. split; [reflexivity|]. split.
    + apply sort_by_Permutation.
    + apply sort_by_descending.
  - intros Hid. unfold result_of, get_checklists. rewrite Hid. cbn [negb].
    rewrite (run_supabase_memory
               (listing "checklists" "profile_id"
                  (field "profile_id" (req_query req)) "created_at" false)).
    rewrite (listing_step s "checklists" _ _ _ _ _ eq_refl Hnf).
    eexists. split; [reflexivity|]. split.
    + apply sort_by_Permutation.
    + apply sort_by_descending.
Qed.

Lemma logs_and_checklists_are_listed_newest_first_witness :
  (∃ l,
     result_of (get_checklist_timer_logs list_trip) listed_store
     = Returned (json 200 (VArr (VObj <$> l)))
     ∧ l ≡ₚ selected listed_store "timer_logs" "checklist_id" (VStr "1")
     ∧ descending_in "created_at" l)
  ∧ (∃ l,
       result_of (get_checklists list_trip) listed_store
       = Returned (json 200 (VArr (VObj <$> l)))
       ∧ l ≡ₚ selected listed_store "checklists" "profile_id" (VNum 10)
       ∧ descending_in "created_at" l).
Proof.
  destruct (logs_and_checklists_are_listed_newest_first listed_store
              list_trip eq_refl) as [Hlogs Hchecklists].
  split; [exact Hlogs | exact (Hchecklists eq_refl)].
Defined.

(** ** Sending a share request *)

Lemma wire_arr l : wire (VArr l) = VArr (map wire l).
Proof. reflexivity. Qed.

Lemma wire_obj o : wire (VObj o) = VObj (keep_defined wire o).
Proof. reflexivity. Qed.

Lemma wire_defined v : wire v ≠ VUndefined.
Proof. by destruct v. Qed.

Lemma keep_defined_cons f k x o :
  x ≠ VUndefined → keep_defined f ((k, x) :: o) = (k, f x) :: keep_defined f o.
Proof. by destruct x. Qed.

Lemma wire_idemp v : wire (wire v) = wire v.
Proof.
  revert v. fix IH 1. intros v. destruct v as [| | b | n | t | l | o];
    try reflexivity.
  - rewrite !wire_arr. f_equal.
    induction l as [| x l IHl]; [reflexivity|].
    cbn [map]. f_equal; [apply IH | apply IHl].
  - rewrite !wire_obj. f_equal.
    induction o as [| [k x] o IHo]; [reflexivity|].
    assert (x = VUndefined ∨ x ≠ VUndefined) as [-> | Hx]
      by (destruct x; (by left) || (by right)).
    { exact IHo. }
    rewrite (keep_defined_cons wire k x o Hx).
    rewrite (keep_defined_cons wire k (wire x) _ (wire_defined x)).
    f_equal; [f_equal; apply IH | apply IHo].
Qed.

Lemma mapM_project_id s t l :
  mapM (project s t (Cols [Col "id"])) l
  = Some ((λ r, [("id", wire (field "id" r))]) <$> l).
Proof. induction l as [| r l IH]; [done|]. cbn. by rewrite IH. Qed.

Lemma lookup_receiver_step s name :
  next_fault s = None →
  db_step (lookup_receiver name) s
  = (match selected s "profiles" "name" name with
     | [p] => inl (VObj [("id", wire (field "id" p))])
     | _ => inr not_single
     end,
     without_fault s).
Proof.
  intros Hnf. unfold db_step. rewrite Hnf. unfold execute. cbn.
  rewrite (hits_one_filter _ _ "name" name) by done. cbn [table].
  rewrite rows_without_fault.
  unfold shaped. cbn. rewrite mapM_project_id. unfold ordered.
  change (List.filter _ (rows s "profiles"))
    with (selected s "profiles" "name" name).
  by destruct (selected s "profiles" "name" name) as [| p [| p' l]].
Qed.

Lemma file_request_step s checklist_id sender receiver :
  next_fault s = None →
  db_step (file_request checklist_id sender receiver) s
  = (inl (VObj (filed_request s checklist_id sender receiver)),
     ticked (with_table (without_fault s) "share_requests"
               (rows s "share_requests"
                ++ [filed_request s checklist_id sender receiver]))).
Proof.
  intros Hnf. unfold db_step. rewrite Hnf. unfold execute. cbn.
  change (known_columns _ _) with true. cbn.
  by rewrite shaped_single_star by done.
Qed.

(** [POST /api/checklists/:id/share] finds the receiver by name.  With
    exactly one profile of that name it stores one new request, pending, for
    the checklist of the path, from the sender of the body to that profile,
    and answers 201 with the stored row.  With no such profile (or several)
    it answers 404 and stores nothing. *)
Theorem share_request_is_filed_for_the_named_profile (s : store)
    (req : request) :
  let sender := field "sender_id" (body req) in
  let name := field "receiver_name" (body req) in
  truthy sender = true → truthy name = true → calm 2 s = true →
  (∀ p,
     selected s "profiles" "name" name = [p] →
     let row := filed_request s (VStr (params_id req)) sender (field "id" p) in
     result_of (post_checklist_share req) s = Returned (json 201 (VObj row))
     ∧ rows (state_after (post_checklist_share req) s) "share_requests"
       = rows s "share_requests" ++ [row]
     ∧ next_id (state_after (post_checklist_share req) s)
       = Pos.succ (next_id s))
  ∧ (length (selected s "profiles" "name" name) ≠ 1%nat →
     result_of (post_checklist_share req) s
     = Returned (json 404 (error_body (VStr "Receiver profile not found")))
     ∧ tables (state_after (post_checklist_share req) s) = tables s).
Proof.
  intros sender name Hsender Hname Hcalm. subst sender name.
  pose proof (calm_next _ _ Hcalm) as Hnf.
  pose proof (calm_next _ _ (calm_without_fault _ _ Hcalm)) as Hnf'.
  unfold result_of, state_after, post_checklist_share.
  rewrite Hsender, Hname. cbn [negb orb].
  rewrite (run_supabase_memory
             (lookup_receiver (field "receiver_name" (body req)))).
  rewrite (lookup_receiver_step _ _ Hnf). cbn [fst snd].
  split.
  - intros p Hp. rewrite Hp.
    cbn [destructured truthy orb negb member field String.eqb Ascii.eqb
           Bool.eqb].
    rewrite (run_supabase_memory
               (file_request (VStr (params_id req))
                  (field "sender_id" (body req)) (wire (field "id" p)))).
    rewrite (file_request_step _ _ _ _ Hnf'). cbn [fst snd destructured truthy].
    unfold filed_request. rewrite wire_idemp.
    cbn -[rows with_table wire].
    rewrite rows_ticked, rows_with_table_eq, rows_without_fault.
    done.
  - intros Hlen.
    destruct (selected s "profiles" "name" (field "receiver_name" (body req)))
      as [| p [| p' l]]; [done | done |]. done.
Qed.

Lemma share_request_is_filed_for_the_named_profile_witness :
  (result_of (post_checklist_share (share_with "Bob"))
     (Store tables_with_profiles 5 5 [] no_bcrypt)
   = Returned (json 201
       (VObj (filed_request (Store tables_with_profiles 5 5 [] no_bcrypt)
                (VStr "1") (VNum 10) (VNum 20))))
   ∧ rows (state_after (post_checklist_share (share_with "Bob"))
             (Store tables_with_profiles 5 5 [] no_bcrypt)) "share_requests"
     = [trip_request;
        filed_request (Store tables_with_profiles 5 5 [] no_bcrypt)
          (VStr "1") (VNum 10) (VNum 20)]
   ∧ next_id (state_after (post_checklist_share (share_with "Bob"))
                (Store tables_with_profiles 5 5 [] no_bcrypt)) = 6%positive)
  ∧ (result_of (post_checklist_share (share_with "Carol"))
       (Store tables_with_profiles 5 5 [] no_bcrypt)
     = Returned (json 404 (error_body (VStr "Receiver profile not found")))
     ∧ tables (state_after (post_checklist_share (share_with "Carol"))
                 (Store tables_with_profiles 5 5 [] no_bcrypt))
       = tables_with_profiles).
Proof.
  split.
  - apply (proj1 (share_request_is_filed_for_the_named_profile
                    (Store tables_with_profiles 5 5 [] no_bcrypt)
                    (share_with "Bob") eq_refl eq_refl eq_refl) bob).
    reflexivity.
  - apply (proj2 (share_request_is_filed_for_the_named_profile
                    (Store tables_with_profiles 5 5 [] no_bcrypt)
                    (share_with "Carol") eq_refl eq_refl eq_refl)).
    vm_compute. lia.
Defined.

Lemma mapM_Some_fmap {A B} (g : A → B) (l : list A) :
  mapM (λ x, Some (g x)) l = Some (g <$> l).
Proof. induction l as [| x l IH]; [done|]. cbn. by rewrite IH. Qed.

Lemma hits_two_filters s q f g :
  filters q = [f; g] →
  hits s q = List.filter (λ r, matches r f && matches r g) (rows s (table q)).
Proof.
  intros Hf. unfold hits. rewrite Hf. apply List.filter_ext.
  intros r. cbn. by rewrite andb_true_r.
Qed.

Lemma pending_requests_step s receiver :
  next_fault s = None →
  db_step (pending_requests receiver) s
  = (inl (VArr (VObj <$> (shown_request s
                            <$> sort_by (λ x y, cell_leb "created_at" y x)
                                  (pending_for s receiver)))),
     without_fault s).
Proof.
  intros Hnf. unfold db_step. rewrite Hnf. unfold execute.
  cbn [table action pending_requests from select eq_filter order].
  change (assoc "share_requests" schema) with
    (Some [("id", VNull); ("checklist_id", VNull); ("sender_id", VNull);
           ("receiver_id", VNull); ("status", VStr "pending");
           ("created_at", VNull)]).
  cbv iota. f_equal.
  rewrite (hits_two_filters _ _ ("receiver_id", VStr receiver)
             ("status", VStr "pending")) by done.
  cbn [table]. rewrite rows_without_fault. fold (pending_for s receiver).
  unfold shaped.
  cbn [returning action is_single table ordering default ordered
         pending_requests from select eq_filter order].
  rewrite (mapM_ext _ (λ r, Some (shown_request s r)))
    by (intros r; reflexivity).
  by rewrite mapM_Some_fmap.
Qed.

(** [GET /api/profiles/:id/share-requests] lists the requests addressed
    to the profile of the path that are still pending, each once, newest
    first, and shows for each its checklist's title and its sender's name
    and avatar. *)
Theorem pending_list_shows_what_awaits_the_receiver (s : store)
    (req : request) :
  next_fault s = None →
  ∃ rs,
    result_of (get_profile_share_requests req) s
    = Returned (json 200 (VArr (VObj <$> (shown_request s <$> rs))))
    ∧ rs ≡ₚ pending_for s (params_id req)
    ∧ descending_in "created_at" rs.
Proof.
  intros Hnf. unfold result_of, get_profile_share_requests.
  rewrite (run_supabase_memory (pending_requests (params_id req))).
  rewrite (pending_requests_step _ _ Hnf).
  eexists. split; [reflexivity|]. split.
  - apply sort_by_Permutation.
  - apply sort_by_descending.
Qed.

Lemma pending_list_shows_what_awaits_the_receiver_witness :
  ∃ rs,
    result_of (get_profile_share_requests (pending_of "11")) trip_store
    = Returned (json 200 (VArr (VObj <$> (shown_request trip_store <$> rs))))
    ∧ rs ≡ₚ pending_for trip_store "11"
    ∧ descending_in "created_at" rs.
Proof.
  apply (pending_list_shows_what_awaits_the_receiver trip_store
           (pending_of "11")).
  reflexivity.
Defined.

Lemma share_state s req p :
  truthy (field "sender_id" (body req)) = true →
  truthy (field "receiver_name" (body req)) = true →
  calm 2 s = true →
  selected s "profiles" "name" (field "receiver_name" (body req)) = [p] →
  state_after (post_checklist_share req) s
  = ticked (with_table (without_fault (without_fault s)) "share_requests"
              (rows s "share_requests"
               ++ [filed_request s (VStr (params_id req))
                     (field "sender_id" (body req)) (field "id" p)])).
Proof.
  intros Hsender Hname Hcalm Hp.
  pose proof (calm_next _ _ Hcalm) as Hnf.
  pose proof (calm_next _ _ (calm_without_fault _ _ Hcalm)) as Hnf'.
  unfold state_after, post_checklist_share.
  rewrite Hsender, Hname. cbn [negb orb].
  rewrite (run_supabase_memory
             (lookup_receiver (field "receiver_name" (body req)))).
  rewrite (lookup_receiver_step _ _ Hnf). cbn [fst snd]. rewrite Hp.
  cbn [destructured truthy orb negb member field String.eqb Ascii.eqb
         Bool.eqb].
  rewrite (run_supabase_memory
             (file_request (VStr (params_id req))
                (field "sender_id" (body req)) (wire (field "id" p)))).
  rewrite (file_request_step _ _ _ _ Hnf'). cbn [fst snd destructured truthy].
  unfold filed_request. rewrite wire_idemp. reflexivity.
Qed.

(** A request that was sent shows up in the receiver's pending list:
    after [POST /api/checklists/:id/share] has found the receiver,
    [GET /api/profiles/:id/share-requests] for that receiver answers 200 with
    a list that contains the new request. *)
Theorem sent_request_reaches_the_pending_list (s : store) (req : request)
    (p : obj) (receiver : Z) :
  let sender := field "sender_id" (body req) in
  let name := field "receiver_name" (body req) in
  truthy sender = true → truthy name = true → calm 3 s = true →
  selected s "profiles" "name" name = [p] →
  field "id" p = VNum receiver →
  ∃ l,
    result_of (get_profile_share_requests (pending_of (pretty receiver)))
      (state_after (post_checklist_share req) s)
    = Returned (json 200 (VArr l))
    ∧ VObj (shown_request s
              (filed_request s (VStr (params_id req)) sender (VNum receiver)))
      ∈ l.
Proof.
  intros sender name Hsender Hname Hcalm Hp Hid. subst sender name.
  assert (calm 2 s = true) as Hcalm2 by (apply (calm_le 2 3); [lia | done]).
  rewrite (share_state s req p Hsender Hname Hcalm2 Hp).
  rewrite Hid.
  set (row := filed_request s (VStr (params_id req))
                (field "sender_id" (body req)) (VNum receiver)).
  set (s' := ticked _).
  assert (next_fault s' = None) as Hnf.
  { apply (calm_next 0).
    apply (calm_without_fault 1 (without_fault s)).
    by apply (calm_without_fault 2 s). }
  eexists. split.
  { unfold result_of, get_profile_share_requests.
    rewrite run_supabase_memory.
    pose proof (pending_requests_step s' (pretty receiver) Hnf) as Hstep.
    unfold pending_requests in Hstep. cbn [params_id pending_of].
    rewrite Hstep. reflexivity. }
  apply list_elem_of_fmap. exists (shown_request s row). split; [done|].
  apply list_elem_of_fmap. exists row. split.
  { unfold shown_request, selected, s'.
    by rewrite !rows_ticked, !rows_with_table_ne, !rows_without_fault. }
  rewrite sort_by_Permutation. unfold pending_for.
  apply list_elem_of_In, List.filter_In. split.
  - apply list_elem_of_In. unfold s'. rewrite rows_ticked, rows_with_table_eq.
    apply elem_of_app. right. by apply list_elem_of_singleton.
  - apply andb_true_intro. split; [|reflexivity].
    unfold matches. change (field _ row) with (VNum receiver).
    apply String.eqb_refl.
Qed.

Lemma sent_request_reaches_the_pending_list_witness :
  ∃ l,
    result_of (get_profile_share_requests (pending_of "20"))
      (state_after (post_checklist_share (share_with "Bob"))
         (Store tables_with_profiles 5 5 [] no_bcrypt))
    = Returned (json 200 (VArr l))
    ∧ VObj [("id", VNum 5); ("status", VStr "pending");
            ("created_at", VNum 5); ("checklist_id", VStr "1");
            ("checklists", VObj [("title", VStr "Trip")]);
            ("profiles", VObj [("name", VStr "Ann");
                               ("avatar_url", VNull)])]
      ∈ l.
Proof.
  apply (sent_request_reaches_the_pending_list
           (Store tables_with_profiles 5 5 [] no_bcrypt) (share_with "Bob")
           bob 20); reflexivity.
Defined.

(** ** The status codes of each endpoint *)

Ltac status_step :=
  lazymatch goal with
  | |- ensures _ _ _ (try_catch _ _) =>
      apply (ensures_try_catch _ _ _ (λ _, True)); [| intros ? _]
  | |- ensures _ _ _ (@mbind _ _ (?A * ?B)%type _ _ _) =>
      apply ensures_bind_any; intros [? ?]
  | |- ensures _ _ _ (_ ≫= _) => apply ensures_bind_any; intros ?
  | |- ensures _ _ _ (if ?b then _ else _) => destruct b
  | |- ensures _ _ _ (accept_branch _) => unfold accept_branch
  | |- ensures _ _ _ (clone_tasks _ _) => unfold clone_tasks
  | |- ensures _ _ _ (Throw _) => exact I
  | |- ensures _ (λ resp, status resp ∈ ?l) _ (mret ?r) =>
      change (status r ∈ l); by_decision
  end.

Lemma possible_status_handler (e : endpoint) (req : request) :
  ensures any_answer (λ resp, status resp ∈ possible_status e) (λ _, True)
    (handler e req).
Proof.
  destruct e; unfold_handler; repeat status_step.
Qed.

(** Each endpoint has its own status codes.  Whatever the database and
    bcrypt answer, an endpoint that responds uses one of its codes, and each
    of its codes is the answer to some request under some answers of the
    outside world.  So a checklist lookup never says 500 (a failing database
    reads as 404), creating a task never says 400, and a task update for an
    unknown id says 500, not 404. *)
Theorem each_endpoint_has_its_status_codes :
  (∀ W (world : World W) (e : endpoint) (req : request) (s : W)
     (resp : response),
     result_of (handler e req) s = Returned resp →
     status resp ∈ possible_status e)
  ∧ (∀ (e : endpoint) (c : Z),
       c ∈ possible_status e →
       ∃ resp,
         result_of (handler e (reaching e c).1) (reaching e c).2
         = Returned resp
         ∧ status resp = c).
Proof.
  split.
  - intros W world e req s resp Hres.
    pose proof (ensures_run any_answer _ (λ _, True) (handler e req) s
                  (possible_status_handler e req)) as Hrun.
    rewrite Hres in Hrun. apply Hrun.
    apply forallb_forall. by intros [].
  - intros e c Hc.
    destruct e; cbn [possible_status] in Hc;
      repeat (apply elem_of_cons in Hc as [-> | Hc];
              [eexists; split; vm_compute; reflexivity|]);
      by apply elem_of_nil in Hc.
Qed.

Lemma each_endpoint_has_its_status_codes_witness :
  status (json 404 (error_body (VStr "Checklist not found")))
    ∈ possible_status GetChecklist
  ∧ ∃ resp,
      result_of (handler PutTask (reaching PutTask 500).1)
        (reaching PutTask 500).2
      = Returned resp
      ∧ status resp = 500.
Proof.
  split.
  - apply (proj1 each_endpoint_has_its_status_codes (list settled)
             script_world GetChecklist full_request [failed timeout_error]).
    reflexivity.
  - apply (proj2 each_endpoint_has_its_status_codes PutTask 500).
    by_decision.
Defined.

(** ** Creating a task *)

Lemma insert_new_task_step s b :
  next_fault s = None →
  db_step (insert_new_task b) s
  = (inl (VObj (created_task s b)),
     ticked (with_table (without_fault s) "tasks"
               (rows s "tasks" ++ [created_task s b]))).
Proof.
  intros Hnf. unfold db_step. rewrite Hnf. unfold execute. cbn.
  change (known_columns _ _) with true. cbn.
  rewrite shaped_single_star by done.
  unfold created_task, stored_row. cbn.
  by destruct (truthy (field "parent_id" b)).
Qed.

(** [POST /api/tasks] stores whatever body it gets.  While the database
    works it answers 201 with the stored row and the table grows by exactly
    that row: the eight fields it reads from the body (absent ones as NULL),
    not completed; a falsy parent ([0], the empty string, [false]) is stored
    as NULL; nothing is required of the checklist, the parent or the title.
    When the database fails the answer is 500 and nothing is stored. *)
Theorem task_creation_stores_what_it_is_given (s : store) (req : request) :
  (next_fault s = None →
   result_of (post_tasks req) s
   = Returned (json 201 (VObj (created_task s (body req))))
   ∧ rows (state_after (post_tasks req) s) "tasks"
     = rows s "tasks" ++ [created_task s (body req)]
   ∧ (truthy (field "parent_id" (body req)) = false →
      field "parent_id" (created_task s (body req)) = VNull)
   ∧ field "is_completed" (created_task s (body req)) = VBool false)
  ∧ (∀ code msg,
       next_fault s = Some (code, msg) →
       result_of (post_tasks req) s
       = Returned (json 500 (error_body (VStr msg)))
       ∧ tables (state_after (post_tasks req) s) = tables s).
Proof.
  unfold result_of, state_after, post_tasks.
  rewrite (run_supabase_memory (insert_new_task (body req))).
  split.
  - intros Hnf. rewrite (insert_new_task_step _ _ Hnf).
    cbn [fst snd destructured truthy].
    split; [done|]. split; [|split].
    + cbn -[rows with_table created_task].
      by rewrite rows_ticked, rows_with_table_eq.
    + intros Hp. unfold created_task. cbn. by rewrite Hp.
    + done.
  - intros code msg Hnf. by rewrite (listing_fault _ _ _ _ Hnf).
Qed.

Lemma task_creation_stores_what_it_is_given_witness :
  (result_of (post_tasks stray_task) trip_store
   = Returned (json 201 (VObj (created_task trip_store (body stray_task))))
   ∧ rows (state_after (post_tasks stray_task) trip_store) "tasks"
     = rows trip_store "tasks" ++ [created_task trip_store (body stray_task)]
   ∧ field "parent_id" (created_task trip_store (body stray_task)) = VNull
   ∧ field "is_completed" (created_task trip_store (body stray_task))
     = VBool false)
  ∧ (result_of (post_tasks stray_task)
       (Store trip_tables 5 5 [Some connection_lost] no_bcrypt)
     = Returned (json 500 (error_body (VStr connection_lost.2)))
     ∧ tables (state_after (post_tasks stray_task)
                 (Store trip_tables 5 5 [Some connection_lost] no_bcrypt))
       = trip_tables).
Proof.
  split.
  - destruct (proj1 (task_creation_stores_what_it_is_given trip_store
                       stray_task) eq_refl) as (H1 & H2 & H3 & H4).
    exact (conj H1 (conj H2 (conj (H3 eq_refl) H4))).
  - apply (proj2 (task_creation_stores_what_it_is_given
                    (Store trip_tables 5 5 [Some connection_lost] no_bcrypt)
                    stray_task) connection_lost.1).
    reflexivity.
Defined.

(** ** Creating and fetching a checklist *)

Lemma insert_checklist_step s owner title :
  next_fault s = None →
  db_step (insert_checklist owner title) s
  = (inl (VObj (created_checklist s owner title)),
     ticked (with_table (without_fault s) "checklists"
               (rows s "checklists" ++ [created_checklist s owner title]))).
Proof.
  intros Hnf. unfold db_step. rewrite Hnf. unfold execute. cbn.
  change (known_columns _ _) with true. cbn.
  by rewrite shaped_single_star by done.
Qed.

(** [GET /api/checklists/:id] answers 200 with the checklist when exactly
    one row has the id of the path, and 404 "Checklist not found" otherwise:
    when no row has it, and also when the database fails, whose message is
    not passed on.  It changes nothing. *)
Theorem checklist_lookup_finds_one_or_says_missing (s : store)
    (req : request) :
  let missing := json 404 (error_body (VStr "Checklist not found")) in
  (∀ r,
     next_fault s = None →
     checklists_with_id s (VStr (params_id req)) = [r] →
     result_of (get_checklist req) s = Returned (json 200 (VObj r)))
  ∧ (next_fault s = None →
     length (checklists_with_id s (VStr (params_id req))) ≠ 1%nat →
     result_of (get_checklist req) s = Returned missing)
  ∧ (∀ fault,
       next_fault s = Some fault →
       result_of (get_checklist req) s = Returned missing)
  ∧ tables (state_after (get_checklist req) s) = tables s.
Proof.
  intros missing. subst missing.
  unfold result_of, state_after, get_checklist.
  rewrite (run_supabase_memory (fetch_checklist (VStr (params_id req)))).
  rewrite fetch_checklist_step. cbn [fst snd].
  split; [|split; [|split]].
  - intros r Hnf Hr. by rewrite Hnf, Hr.
  - intros Hnf Hlen. rewrite Hnf.
    by destruct (checklists_with_id s (VStr (params_id req)))
      as [| r [| r' l]].
  - intros [code msg] Hnf. by rewrite Hnf.
  - destruct (next_fault s) as [[code msg]|]; [done|].
    by destruct (checklists_with_id s (VStr (params_id req)))
      as [| r [| r' l]].
Qed.

Lemma checklist_lookup_finds_one_or_says_missing_witness :
  result_of (get_checklist (checklist_at 1)) trip_store
  = Returned (json 200 (VObj trip_checklist))
  ∧ result_of (get_checklist (checklist_at 2)) trip_store
    = Returned (json 404 (error_body (VStr "Checklist not found")))
  ∧ result_of (get_checklist (checklist_at 1))
      (Store trip_tables 5 5 [Some connection_lost] no_bcrypt)
    = Returned (json 404 (error_body (VStr "Checklist not found"))).
Proof.
  split; [|split].
  - apply (proj1 (checklist_lookup_finds_one_or_says_missing trip_store
                    (checklist_at 1)) trip_checklist); reflexivity.
  - apply (proj1 (proj2 (checklist_lookup_finds_one_or_says_missing
                           trip_store (checklist_at 2)))); [reflexivity|].
    vm_compute. lia.
  - apply (proj1 (proj2 (proj2 (checklist_lookup_finds_one_or_says_missing
                                  (Store trip_tables 5 5
                                     [Some connection_lost] no_bcrypt)
                                  (checklist_at 1)))) connection_lost).
    reflexivity.
Defined.

(** A checklist that was created can be fetched.  When the id the database
    is about to give is not in use, [POST /api/checklists] answers 201 with a
    row owned by the profile of the body, titled as the body says and not a
    shared copy, and [GET /api/checklists/:id] with the id of that row then
    answers 200 with the same row. *)
Theorem created_checklist_can_be_fetched (s : store) (req : request) :
  let owner := field "profile_id" (body req) in
  let title := field "title" (body req) in
  let id := Z.pos (next_id s) in
  let row := created_checklist s owner title in
  truthy owner = true → truthy title = true → calm 2 s = true →
  checklists_with_id s (VStr (pretty id)) = [] →
  result_of (post_checklists req) s = Returned (json 201 (VObj row))
  ∧ result_of (get_checklist (checklist_at id))
      (state_after (post_checklists req) s)
    = Returned (json 200 (VObj row)).
Proof.
  intros owner title id row Howner Htitle Hcalm Hfresh.
  subst owner title id row.
  pose proof (calm_next _ _ Hcalm) as Hnf.
  pose proof (calm_next _ _ (calm_without_fault _ _ Hcalm)) as Hnf'.
  unfold result_of at 1. unfold state_after, post_checklists.
  rewrite Howner, Htitle. cbn [negb orb].
  rewrite (run_supabase_memory
             (insert_checklist (field "profile_id" (body req))
                (field "title" (body req)))).
  rewrite (insert_checklist_step _ _ _ Hnf). cbn [fst snd destructured truthy].
  split; [done|].
  set (row := created_checklist s _ _).
  cbn -[rows with_table created_checklist get_checklist].
  unfold result_of, get_checklist.
  rewrite run_supabase_memory.
  pose proof (fetch_checklist_step
                (ticked (with_table (without_fault s) "checklists"
                           (rows s "checklists" ++ [row])))
                (VStr (pretty (Z.pos (next_id s))))) as Hstep.
  unfold fetch_checklist in Hstep. cbn [params_id checklist_at].
  rewrite Hstep.
  change (next_fault (ticked _)) with (next_fault (without_fault s)).
  rewrite Hnf'. unfold checklists_with_id.
  rewrite rows_ticked, rows_with_table_eq, List.filter_app.
  unfold checklists_with_id in Hfresh. rewrite Hfresh.
  assert (matches row ("id", VStr (pretty (Z.pos (next_id s)))) = true)
    as Hrow.
  { unfold matches. change (field _ row) with (VNum (Z.pos (next_id s))).
    apply String.eqb_refl. }
  cbn [List.filter app]. by rewrite Hrow.
Qed.

Lemma created_checklist_can_be_fetched_witness :
  result_of (post_checklists new_list) trip_store
  = Returned (json 201 (VObj (created_checklist trip_store (VNum 10)
                                (VStr "Groceries"))))
  ∧ result_of (get_checklist (checklist_at 5))
      (state_after (post_checklists new_list) trip_store)
    = Returned (json 200 (VObj (created_checklist trip_store (VNum 10)
                                  (VStr "Groceries")))).
Proof.
  apply (created_checklist_can_be_fetched trip_store new_list); reflexivity.
Defined.

(** ** The earlier version *)

Lemma field_assign_other f g b o :
  f ≠ g → field f (assign_if_defined g b o) = field f o.
Proof.
  intros Hfg. unfold assign_if_defined.
  destruct (negb (is_undefined (field g b))); [|done].
  rewrite field_set_field. by destruct (String.eqb_spec f g).
Qed.

(** The task update of the earlier version is the present one without
    [description] and [allocated_time]: on a body that carries neither the
    two versions are the same program, and the earlier one never writes
    either field, whatever the body. *)
Theorem earlier_task_update_lacks_two_fields (req : request) :
  (field "description" (body req) = VUndefined →
   field "allocated_time" (body req) = VUndefined →
   Earlier.put_task req = put_task req)
  ∧ field "description" (Earlier.task_updates (body req)) = VUndefined
  ∧ field "allocated_time" (Earlier.task_updates (body req)) = VUndefined.
Proof.
  split; [|split].
  - intros Hd Ha. unfold Earlier.put_task, put_task.
    assert (Earlier.task_updates (body req) = task_updates (body req)) as ->;
      [|done].
    unfold Earlier.task_updates, task_updates.
    unfold assign_if_defined. by rewrite Hd, Ha.
  - unfold Earlier.task_updates. by rewrite !field_assign_other.
  - unfold Earlier.task_updates. by rewrite !field_assign_other.
Qed.

Lemma earlier_task_update_lacks_two_fields_witness :
  Earlier.put_task retitle = put_task retitle
  ∧ field "description" (Earlier.task_updates (body describe)) = VUndefined.
Proof.
  split.
  - apply (proj1 (earlier_task_update_lacks_two_fields retitle));
      reflexivity.
  - apply (proj1 (proj2 (earlier_task_update_lacks_two_fields describe))).
Defined.

(** The earlier version deleted a checklist for whoever asked: one delete
    by id, no look at the profiles, no password, no look at the body.  The
    present version deletes nothing for a request without a password: with
    a body to destructure it answers 400, and with no body at all
    ([req.body] is [undefined]) it throws before its guard and answers
    nothing. *)
Theorem earlier_checklist_deletion_asked_no_password (s : store)
    (r : incoming) :
  next_fault s = None →
  truthy (field "password" (own_properties (in_body r))) = false →
  (result_of (Earlier.delete_checklist (parsed r)) s = Returned (send 204)
   ∧ rows (state_after (Earlier.delete_checklist (parsed r)) s) "checklists"
     = without_id (in_params_id r) (rows s "checklists")
   ∧ calls_of (Earlier.delete_checklist (parsed r)) s
     = [Db (delete_by_id "checklists" (in_params_id r))])
  ∧ (nullish (in_body r) = false →
     result_of (serve DeleteChecklist r) s
     = Returned (json 400 (error_body
          (VStr "Profile ID and password required for deletion"))))
  ∧ (nullish (in_body r) = true →
     ∃ err, result_of (serve DeleteChecklist r) s = Uncaught err)
  ∧ state_after (serve DeleteChecklist r) s = s
  ∧ calls_of (serve DeleteChecklist r) s = [].
Proof.
  intros Hnf Hpw. split.
  - unfold result_of, state_after, calls_of, Earlier.delete_checklist.
    change (params_id (parsed r)) with (in_params_id r).
    rewrite (run_supabase_memory
               (delete_by_id "checklists" (in_params_id r))).
    rewrite (delete_step _ "checklists" _ _ eq_refl Hnf).
    cbn -[rows with_table without_id delete_by_id].
    by rewrite rows_with_table_eq.
  - destruct (nullish (in_body r)) eqn:Hbody.
    + destruct (serve_without_body DeleteChecklist r) as [err ->];
        [by rewrite Hbody|].
      split; [done|]. split; [by eauto|]. done.
    + rewrite serve_parsed by (by rewrite Hbody).
      unfold result_of, state_after, calls_of, handler, delete_checklist.
      change (body (parsed r)) with (own_properties (in_body r)).
      rewrite Hpw, orb_true_r. split; [done|]. split; [done|]. done.
Qed.

Lemma earlier_checklist_deletion_asked_no_password_witness :
  (result_of (Earlier.delete_checklist (parsed no_body)) trip_store
   = Returned (send 204)
   ∧ rows (state_after (Earlier.delete_checklist (parsed no_body))
             trip_store) "checklists"
     = without_id "1" (rows trip_store "checklists")
   ∧ calls_of (Earlier.delete_checklist (parsed no_body)) trip_store
     = [Db (delete_by_id "checklists" "1")])
  ∧ (result_of (serve DeleteChecklist empty_body) trip_store
     = Returned (json 400 (error_body
          (VStr "Profile ID and password required for deletion"))))
  ∧ (∃ err, result_of (serve DeleteChecklist no_body) trip_store
            = Uncaught err)
  ∧ state_after (serve DeleteChecklist no_body) trip_store = trip_store
  ∧ calls_of (serve DeleteChecklist no_body) trip_store = [].
Proof.
  destruct (earlier_checklist_deletion_asked_no_password trip_store no_body
              eq_refl eq_refl) as (Hearlier & _ & Hthrows & Hstate & Hcalls).
  destruct (earlier_checklist_deletion_asked_no_password trip_store
              empty_body eq_refl eq_refl) as (_ & Hguard & _).
  split; [exact Hearlier|]. split; [exact (Hguard eq_refl)|].
  split; [exact (Hthrows eq_refl)|]. split; [exact Hstate | exact Hcalls].
Defined.

Lemma earlier_insert_task_step s b :
  field "description" b = VUndefined →
  field "allocated_time" b = VUndefined →
  db_step (earlier_insert_task b) s = db_step (insert_new_task b) s.
Proof.
  intros Hd Ha. unfold db_step.
  destruct (next_fault s) as [[code msg]|]; [done|].
  unfold execute. cbn.
  change (known_columns _ _) with true. cbn.
  rewrite !shaped_single_star by done.
  unfold stored_row. cbn. by rewrite Hd, Ha.
Qed.

(** For a body without [description] and [allocated_time] the task
    creation of the earlier version and the present one give the same
    answer and leave the same database, although the present one sends the
    two columns along. *)
Theorem earlier_task_creation_agrees (s : store) (req : request) :
  field "description" (body req) = VUndefined →
  field "allocated_time" (body req) = VUndefined →
  result_of (Earlier.post_tasks req) s = result_of (post_tasks req) s
  ∧ state_after (Earlier.post_tasks req) s = state_after (post_tasks req) s.
Proof.
  intros Hd Ha. unfold result_of, state_after, Earlier.post_tasks, post_tasks.
  rewrite (run_supabase_memory (earlier_insert_task (body req))).
  rewrite (run_supabase_memory (insert_new_task (body req))).
  rewrite (earlier_insert_task_step _ _ Hd Ha).
  by destruct (run _ _) as [[o s2] t].
Qed.

Lemma earlier_task_creation_agrees_witness :
  result_of (Earlier.post_tasks plain_task) trip_store
  = result_of (post_tasks plain_task) trip_store
  ∧ state_after (Earlier.post_tasks plain_task) trip_store
    = state_after (post_tasks plain_task) trip_store.
Proof.
  apply (earlier_task_creation_agrees trip_store plain_task); reflexivity.
Defined.

(** ** What a handler reads of its request *)

Ltac same_input_step :=
  match goal with
  | H : Forall _ (_ :: _) |- _ => apply Forall_cons in H as [? H]
  | H : Forall _ [] |- _ => clear H
  | H : input _ _ = input _ _ |- _ =>
      unfold input in H; cbn [fst snd] in H; rewrite H; clear H
  end.

(** A handler is a function of the inputs it reads: two requests that
    agree on them (and on the id of the path where the handler uses it) are
    answered by the same program.  So nothing else in a request matters: who
    responds to a share request, for one, or who deletes a profile. *)
Theorem handlers_read_their_inputs_only (e : endpoint) (req req' : request) :
  same_inputs e req req' → handler e req = handler e req'.
Proof.
  intros [Hid Hin].
  destruct e; cbn [inputs_read reads_path_id fmap list_fmap
                     task_update_fields] in Hid, Hin;
    unfold_handler; unfold task_updates, assign_if_defined;
    try rewrite (Hid eq_refl); clear Hid;
    repeat same_input_step; reflexivity.
Qed.

Lemma handlers_read_their_inputs_only_witness :
  handler PostShareRequestRespond (respond_as 11)
  = handler PostShareRequestRespond (respond_as 12).
Proof.
  apply (handlers_read_their_inputs_only PostShareRequestRespond
           (respond_as 11) (respond_as 12)).
  split; [reflexivity|]. repeat constructor.
Defined.

(** ** Renaming a checklist *)

Lemma retitle_checklist_step s id title :
  next_fault s = None →
  title ≠ VUndefined →
  let renamed r :=
    if matches r ("id", VStr id)
    then apply_changes [("title", wire title)] r else r in
  db_step (retitle_checklist id title) s
  = match checklists_with_id s (VStr id) with
    | [r] => (inl (VObj (renamed r)),
              with_table (without_fault s) "checklists"
                (renamed <$> rows s "checklists"))
    | _ => (inr not_single, without_fault s)
    end.
Proof.
  intros Hnf Htitle renamed. unfold db_step. rewrite Hnf. unfold execute.
  cbn [table action retitle_checklist from update eq_filter select single].
  change (assoc "checklists" schema) with
    (Some [("id", VNull); ("profile_id", VNull); ("title", VNull);
           ("is_shared_copy", VBool false); ("created_at", VNull)]).
  cbv iota. unfold written. rewrite (keep_defined_cons wire _ _ [] Htitle).
  change (known_columns _ _) with true. cbv iota zeta.
  rewrite shaped_single_star by done.
  rewrite (hits_one_filter _ _ "id" (VStr id)) by done.
  cbn [table filters app]. rewrite rows_without_fault.
  fold (checklists_with_id s (VStr id)).
  cbn [keep_defined].
  assert (∀ r, (if forallb (matches r) [("id", VStr id)]
                then apply_changes [("title", wire title)] r
                else r) = renamed r) as Hren.
  { intros r. unfold renamed. cbn. by rewrite andb_true_r. }
  rewrite (list_fmap_ext _ renamed (checklists_with_id s (VStr id)))
    by (intros i r _; apply Hren).
  rewrite (list_fmap_ext _ renamed (rows s "checklists"))
    by (intros i r _; apply Hren).
  destruct (checklists_with_id s (VStr id)) as [| r [| r' l]]; done.
Qed.

(** [PUT /api/checklists/:id] with a title in the body renames the one
    checklist that has the id of the path: it answers 200 with the row, whose
    title is the new one and whose other columns are as before, and leaves
    every other checklist alone.  When no checklist has the id it answers
    500, not 404, and changes nothing. *)
Theorem checklist_rename_changes_the_title_only (s : store) (req : request) :
  let title := field "title" (body req) in
  let id := VStr (params_id req) in
  next_fault s = None →
  title ≠ VUndefined →
  (∀ row,
     checklists_with_id s id = [row] →
     ∃ row',
       result_of (put_checklist req) s = Returned (json 200 (VObj row'))
       ∧ rows (state_after (put_checklist req) s) "checklists"
         = (λ r, if matches r ("id", id) then row' else r)
           <$> rows s "checklists"
       ∧ (has_field "title" row = true → field "title" row' = wire title)
       ∧ ∀ f, f ≠ "title" → field f row' = field f row)
  ∧ (checklists_with_id s id = [] →
     result_of (put_checklist req) s
     = Returned (json 500 (error_body (member "message" not_single)))
     ∧ tables (state_after (put_checklist req) s) = tables s).
Proof.
  intros title id Hnf Htitle. subst title id.
  unfold result_of, state_after, put_checklist.
  rewrite (run_supabase_memory
             (retitle_checklist (params_id req) (field "title" (body req)))).
  rewrite (retitle_checklist_step _ _ _ Hnf Htitle).
  split.
  - intros row Hrow. rewrite Hrow. cbn [fst snd destructured truthy].
    assert (matches row ("id", VStr (params_id req)) = true) as Hm.
    { assert (List.In row (checklists_with_id s (VStr (params_id req))))
        as Hin by (rewrite Hrow; by left).
      by apply List.filter_In in Hin as [_ ?]. }
    rewrite Hm. eexists. split; [reflexivity|]. split; [|split].
    + cbn -[rows with_table]. rewrite rows_with_table_eq.
      apply list_fmap_ext. intros i r Hr.
      destruct (matches r ("id", VStr (params_id req))) eqn:Hmr; [|done].
      f_equal. apply (filter_singleton _ _ _ _ Hrow); [|done].
      by eapply list_elem_of_lookup_2.
    + intros Hhas. by rewrite field_apply_changes, Hhas.
    + intros f Hf. rewrite field_apply_changes.
      destruct (has_field f row) eqn:Hhas.
      * unfold has_field. cbn. by destruct (String.eqb_spec f "title").
      * destruct (field f row) eqn:Hfield; try done;
          by rewrite field_has_field in Hhas by (by rewrite Hfield).
  - intros Hnone. by rewrite Hnone.
Qed.

Lemma checklist_rename_changes_the_title_only_witness :
  (∃ row',
     result_of (put_checklist (rename_trip "1")) trip_store
     = Returned (json 200 (VObj row'))
     ∧ rows (state_after (put_checklist (rename_trip "1")) trip_store)
         "checklists"
       = (λ r, if matches r ("id", VStr "1") then row' else r)
         <$> rows trip_store "checklists"
     ∧ field "title" row' = VStr "Journey"
     ∧ field "profile_id" row' = VNum 10)
  ∧ (result_of (put_checklist (rename_trip "2")) trip_store
     = Returned (json 500 (error_body (member "message" not_single)))
     ∧ tables (state_after (put_checklist (rename_trip "2")) trip_store)
       = trip_tables).
Proof.
  split.
  - destruct (proj1 (checklist_rename_changes_the_title_only trip_store
                       (rename_trip "1") eq_refl ltac:(discriminate))
                trip_checklist eq_refl) as (row' & H1 & H2 & H3 & H4).
    exists row'. split; [exact H1|]. split; [exact H2|]. split.
    + exact (H3 eq_refl).
    + exact (H4 "profile_id" ltac:(discriminate)).
  - apply (proj2 (checklist_rename_changes_the_title_only trip_store
                    (rename_trip "2") eq_refl ltac:(discriminate))).
    reflexivity.
Defined.
